(** * OSM training-data extraction: a shallow embedding of
    [scripts/geodata/osm/osm_address_training_data.py]

    The Python functions are embedded as Rocq functions over the data the
    script manipulates: tag dictionaries ([OrderedDict], string to string) are
    ordered association lists, the [defaultdict(list)] built by the language
    attribution is a [gmap], text handed to the regular expressions is a
    sequence of code points, and the collaborators imported from other
    modules (language tables, the geo index, the disambiguation function, the
    address formatter, ...) are the fields of one interface class. *)

From Stdlib Require Import ZArith QArith Lia List Ascii String.
From stdpp Require Import gmap strings list fin_maps pretty.

Open Scope string_scope.
Open Scope Z_scope.

Set Warnings "-clear-no-such-hyp".

(** ** Python string methods used by the script *)

Module PyStr.

(** [c in s] for a one-character [c]. *)
Fixpoint contains (c : ascii) (s : string) : bool :=
  match s with
  | EmptyString => false
  | String a s' => if Ascii.eqb a c then true else contains c s'
  end.

(** [s.startswith(p)]. *)
Definition startswith (s p : string) : bool := String.prefix p s.

(** [s.split(c, 1)[0]] and [s.split(c)[0]]: what stands before the first [c]. *)
Fixpoint split_first (c : ascii) (s : string) : string :=
  match s with
  | EmptyString => EmptyString
  | String a s' => if Ascii.eqb a c then EmptyString else String a (split_first c s')
  end.

(** [s.rsplit(c, 1)[-1]] and [s.split(c)[-1]]: what stands after the last [c]. *)
Fixpoint split_last (c : ascii) (s : string) : string :=
  match s with
  | EmptyString => EmptyString
  | String a s' =>
      if contains c s' then split_last c s'
      else if Ascii.eqb a c then s' else s
  end.

(** ASCII white space, as removed by [str.strip()]. *)
Definition is_space (a : ascii) : bool :=
  let n := N_of_ascii a in
  ((9 <=? n) && (n <=? 13))%N || (n =? 32)%N.

Fixpoint lstrip (s : string) : string :=
  match s with
  | EmptyString => EmptyString
  | String a s' => if is_space a then lstrip s' else s
  end.

Fixpoint rstrip (s : string) : string :=
  match s with
  | EmptyString => EmptyString
  | String a s' =>
      match rstrip s' with
      | EmptyString => if is_space a then EmptyString else String a EmptyString
      | r => String a r
      end
  end.

(** [s.strip()]. *)
Definition strip (s : string) : string := rstrip (lstrip s).

(** [s.strip()] for a unicode object [s], as the values of the tags are.
    Text is held as the bytes of its UTF-8 encoding, so that a white-space
    character is one, two or three bytes. The white space of Python 2.7
    (Unicode 5.2) is U+0009 to U+000D, U+001C to U+0020, U+0085, U+00A0,
    U+1680, U+180E, U+2000 to U+200A, U+2028, U+2029, U+202F, U+205F and
    U+3000. (A value that is all ASCII comes from lxml as a byte string; its
    [strip()] removes the same characters of it but U+001C to U+001F, which
    the text of an XML 1.0 document cannot hold.) *)
Definition is_unicode_space1 (a : ascii) : bool :=
  let n := N_of_ascii a in
  ((9 <=? n) && (n <=? 13))%N || ((28 <=? n) && (n <=? 32))%N.

(** U+0085 is C2 85 and U+00A0 is C2 A0. *)
Definition is_unicode_space2 (a b : ascii) : bool :=
  let '(x, y) := (N_of_ascii a, N_of_ascii b) in
  ((x =? 194) && ((y =? 133) || (y =? 160)))%N.

(** U+1680 is E1 9A 80, U+180E is E1 A0 8E, U+2000 to U+200A are E2 80 80 to
    E2 80 8A, U+2028, U+2029 and U+202F are E2 80 A8, E2 80 A9 and E2 80 AF,
    U+205F is E2 81 9F and U+3000 is E3 80 80. *)
Definition is_unicode_space3 (a b c : ascii) : bool :=
  let '(x, y, z) := (N_of_ascii a, N_of_ascii b, N_of_ascii c) in
  (((x =? 225) && (y =? 154) && (z =? 128))
   || ((x =? 225) && (y =? 160) && (z =? 142))
   || ((x =? 226) && (y =? 128)
       && (((128 <=? z) && (z <=? 138)) || (z =? 168) || (z =? 169) || (z =? 175)))
   || ((x =? 226) && (y =? 129) && (z =? 159))
   || ((x =? 227) && (y =? 128) && (z =? 128)))%N.

Fixpoint unicode_lstrip (s : string) : string :=
  match s with
  | EmptyString => EmptyString
  | String a s1 =>
      if is_unicode_space1 a then unicode_lstrip s1
      else
        match s1 with
        | EmptyString => s
        | String b s2 =>
            if is_unicode_space2 a b then unicode_lstrip s2
            else
              match s2 with
              | EmptyString => s
              | String c s3 => if is_unicode_space3 a b c then unicode_lstrip s3 else s
              end
        end
  end.

(** A text that is white space throughout goes; otherwise what ends it goes. *)
Fixpoint unicode_rstrip (s : string) : string :=
  match s with
  | EmptyString => EmptyString
  | String a s' =>
      match unicode_lstrip s with
      | EmptyString => EmptyString
      | _ => String a (unicode_rstrip s')
      end
  end.

Definition unicode_strip (s : string) : string := unicode_rstrip (unicode_lstrip s).

End PyStr.

(** ** [OrderedDict]: an association list in insertion order *)

Module OD.

Section Ops.
Context {V : Type}.

Fixpoint get (k : string) (d : list (string * V)) : option V :=
  match d with
  | [] => None
  | (k', v) :: d' => if String.eqb k' k then Some v else get k d'
  end.

(** [k in d]. *)
Definition mem (k : string) (d : list (string * V)) : bool :=
  match get k d with Some _ => true | None => false end.

(** [d[k] = v]: an existing key keeps its position. *)
Fixpoint set (k : string) (v : V) (d : list (string * V)) : list (string * V) :=
  match d with
  | [] => [(k, v)]
  | (k', v') :: d' => if String.eqb k' k then (k, v) :: d' else (k', v') :: set k v d'
  end.

(** [d.pop(k, None)], the popped value dropped. *)
Fixpoint pop (k : string) (d : list (string * V)) : list (string * V) :=
  match d with
  | [] => []
  | (k', v') :: d' => if String.eqb k' k then d' else (k', v') :: pop k d'
  end.

(** [d.update(items)]. *)
Definition update (d items : list (string * V)) : list (string * V) :=
  fold_left (fun acc kv => set kv.1 kv.2 acc) items d.

(** [OrderedDict(items)]: a repeated key keeps its first place and its last value. *)
Definition of_items (items : list (string * V)) : list (string * V) := update [] items.

(** [d.keys()] (a list, a snapshot in Python 2). *)
Definition keys (d : list (string * V)) : list string := map fst d.

End Ops.

End OD.

(** The tag dictionary of one OSM element. *)
Abbreviation tagdict := (list (string * string)).

(** ** [parse_osm] *)

Definition WAY_OFFSET : Z := 10 ^ 15.
Definition RELATION_OFFSET : Z := 2 * 10 ^ 15.

Definition ALL_OSM_TAGS : gset string := {["node"; "way"; "relation"]}.
Definition WAYS_RELATIONS : gset string := {["way"; "relation"]}.

(** What [etree.iterparse] hands to the loop of [parse_osm]: the element's
    tag name, its attributes, with [id] already read by [long(...)], and the
    [k]/[v] pairs of its children named [tag]. *)
Record element := {
  elem_tag : string;
  elem_id : Z;                       (* long(elem.attrib.pop('id', 0)) *)
  elem_attrib : tagdict;             (* elem.attrib once 'id' is popped *)
  elem_tags : tagdict                (* (e.attrib['k'], e.attrib['v']) of the 'tag' children *)
}.

(** The key [parse_osm] yields: the numeric id, or the text ["{type}:{id}"]. *)
Inductive osm_key :=
| KeyId (id : Z)
| KeyText (s : string).

(** Lines 123-130: the packed id gives the element's type and local id. *)
Definition decode_id (tag : string) (elem_id : Z) : string * Z :=
  if (WAY_OFFSET <=? elem_id) && (elem_id <? RELATION_OFFSET) then
    ("way", elem_id - WAY_OFFSET)
  else if RELATION_OFFSET <=? elem_id then
    ("relation", elem_id - RELATION_OFFSET)
  else (tag, elem_id).

(** One turn of the loop of [parse_osm]: what it yields for one element. *)
Definition parse_osm_elem (allowed_types : gset string) (elem : element)
  : option (osm_key * tagdict) :=
  let single_type := bool_decide (size allowed_types = 1%nat) in
  let '(item_type, elem_id) := decode_id (elem_tag elem) (elem_id elem) in
  if bool_decide (item_type ∈ allowed_types) then
    let attrs := OD.update (OD.of_items (elem_attrib elem)) (OD.of_items (elem_tags elem)) in
    let key := if single_type then KeyId elem_id
               else KeyText (item_type +:+ ":" +:+ pretty elem_id) in
    Some (key, attrs)
  else None.

(** The generator [parse_osm], as the list of what it yields. *)
Definition parse_osm (elems : list element) (allowed_types : gset string)
  : list (osm_key * tagdict) :=
  omap (parse_osm_elem allowed_types) elems.

(** [normalize_osm_name_tag(tag, script)]. *)
Definition normalize_osm_name_tag (tag : string) (script : bool) : string :=
  let norm := PyStr.split_last ":" tag in
  if negb script then norm else PyStr.split_first "_" norm.

(** ** The regular expressions of the coordinate patterns

    Python's [re] is a backtracking matcher: alternatives are tried from left
    to right, [?], [*], [+] and [{1,2}] take as much as they can first, and a
    group holds the text of its last successful match. [rmatch] is that
    matcher in continuation-passing style, over text as a list of code
    points. *)

Abbreviation utext := (list N).

Module Re.

Inductive regex :=
| Eps                              (* the empty pattern *)
| Chr (p : N -> bool)              (* one character of a class *)
| Seq (a b : regex)
| Alt (a b : regex)                (* a|b *)
| Star (a : regex)                 (* a*, greedy *)
| Group (i : nat) (a : regex)      (* the i-th capturing group *)
| Eos.                             (* $ *)

(** [a?], [a+] and [a{1,2}], all greedy. *)
Definition Opt (a : regex) : regex := Alt a Eps.
Definition Plus (a : regex) : regex := Seq a (Star a).
Definition Rep12 (a : regex) : regex := Seq a (Opt a).

Fixpoint seqs (l : list regex) : regex :=
  match l with
  | [] => Eps
  | [a] => a
  | a :: l' => Seq a (seqs l')
  end.

Fixpoint rmatch {R : Type} (r : regex) (s : utext) (g : gmap nat utext)
    (k : utext -> gmap nat utext -> option R) : option R :=
  match r with
  | Eps => k s g
  | Chr p =>
      match s with
      | c :: s' => if p c then k s' g else None
      | [] => None
      end
  | Seq a b => rmatch a s g (fun s' g' => rmatch b s' g' k)
  | Alt a b =>
      match rmatch a s g k with
      | Some x => Some x
      | None => rmatch b s g k
      end
  | Star a =>
      (fix star (fuel : nat) (s : utext) (g : gmap nat utext) : option R :=
         match fuel with
         | O => k s g
         | S fuel' =>
             match rmatch a s g (fun s' g' =>
                     if (length s' <? length s)%nat then star fuel' s' g' else None) with
             | Some x => Some x
             | None => k s g
             end
         end) (length s) s g
  | Group i a =>
      rmatch a s g (fun s' g' => k s' (<[i := take (length s - length s') s]> g'))
  | Eos =>
      (* the end of the text, or just before a newline that ends it *)
      match s with
      | [] => k s g
      | [10%N] => k s g
      | _ => None
      end
  end.

(** [pattern.match(text)]: the groups of the match at the start of [text]. *)
Definition re_match (r : regex) (text : utext) : option (gmap nat utext) :=
  rmatch r text ∅ (fun _ g => Some g).

(** ASCII lower case. With [re.I] alone the matcher folds ASCII letters only;
    with [re.I | re.UNICODE] it uses the Unicode lower-case map, which sends
    no character outside ASCII to one of the letters d, m, s, n, e, w that
    the patterns below name. *)
Definition lower (c : N) : N :=
  if ((65 <=? c) && (c <=? 90))%N then (c + 32)%N else c.

(** A class given by its characters, matched without regard to case. *)
Definition one_of (cs : list N) (c : N) : bool :=
  existsb (N.eqb (lower c)) (map lower cs).

Definition range (lo hi : N) (c : N) : bool := ((lo <=? c) && (c <=? hi))%N.

Definition none_of (p : N -> bool) (c : N) : bool := negb (p c).

End Re.

(** The code points of an ASCII literal. *)
Definition codes (s : string) : utext :=
  map N_of_ascii (list_ascii_of_string s).

Fixpoint drop_while {A : Type} (p : A -> bool) (l : list A) : list A :=
  match l with
  | [] => []
  | x :: l' => if p x then drop_while p l' else l
  end.

(** [text.strip(chars)] and [text.replace(a, b)] on unicode text. *)
Definition ustrip (chars : list N) (text : utext) : utext :=
  let drop := drop_while (fun c => existsb (N.eqb c) chars) in
  rev (drop (rev (drop text))).

Definition ureplace (a b : N) (text : utext) : utext :=
  map (fun c => if N.eqb c a then b else c) text.

(** ** What the script imports from the rest of the package

    None of these is defined in the script: the language tables and the
    disambiguation function ([geodata.language_id.disambiguation],
    [geodata.i18n.languages]), the geo index
    ([geodata.language_id.polygon_lookup]), the address formatter, the
    helpers of [geodata.csv_utils] and [geodata.encoding], and Python's own
    [float] and Unicode digit class. The script is embedded over any
    implementation of them. *)

(** An entry of [candidate_languages] and of a polygon's [languages]. *)
Record CandidateLanguage := {
  lang : string;          (* l['lang'] *)
  is_default : bool       (* l['default'] *)
}.

(** The properties of one polygon that covers the point. *)
Record AdminLanguageProps := {
  admin_level : Z;                            (* p['admin_level'] *)
  prop_languages : list CandidateLanguage     (* p['languages'] *)
}.

Class Collaborators := {
  (** the known language codes *)
  languages : gset string;
  (** [official_languages[country]]: language to default flag, in order *)
  official_languages : string -> list (string * bool);
  WELL_REPRESENTED_LANGUAGES : gset string;
  WELL_REPRESENTED_LANGUAGE_COUNTRIES : string -> gset string;
  AMBIGUOUS_LANGUAGE : string;
  UNKNOWN_LANGUAGE : string;
  disambiguate_language : string -> list (string * bool) -> string;
  (** the geo index and its lookup *)
  rtree : Type;
  country_and_languages :
    rtree -> Q -> Q -> option string * list CandidateLanguage * list AdminLanguageProps;
  (** [AddressFormatter().format_address(country, tags, tag_components)] *)
  format_address : string -> tagdict -> bool -> option string;
  tsv_string : string -> string;
  safe_encode : string -> string;
  (** [safe_decode]: bytes to unicode text, [None] when it raises *)
  safe_decode : string -> option utext;
  (** Python's [float] on text, [None] when it raises *)
  py_float : utext -> option Q;
  (** the class [\d] under [re.UNICODE] *)
  unicode_digit : N -> bool
}.

(** ** [latlon_to_floats] *)

Module Coord.

Import Re.

Section Patterns.
Context `{Collaborators}.

Definition sp : regex := Star (Chr (one_of (codes " "))).
Definition d09 : regex := Chr (range 48 57).
Definition d05 : regex := Chr (range 48 53).
Definition d08 : regex := Chr (range 48 56).
Definition lit (s : string) : regex := seqs (map (fun c => Chr (one_of [c])) (codes s)).
Definition minus : regex := Chr (range 45 45).
Definition dot : regex := Chr (range 46 46).

(** [ :°ºd] in a unicode pattern: U+00B0 and U+00BA. *)
Definition degree_mark : regex := Chr (one_of (codes " :" ++ [176%N; 186%N] ++ codes "d")%list).
(** [:\'′m] *)
Definition minute_mark : regex := Chr (one_of (codes ":'" ++ [8242%N] ++ codes "m")%list).
(** [:\?\x22″s], where \x22 stands for the double quote of the source *)
Definition second_mark : regex := Chr (one_of (codes ":?" ++ [34%N; 8243%N] ++ codes "s")%list).
(** [ :°ºd] in a byte pattern of a UTF-8 source: the bytes C2 B0 C2 BA. *)
Definition degree_mark_bytes : regex :=
  Chr (one_of (codes " :" ++ [194%N; 176%N; 194%N; 186%N] ++ codes "d")%list).

(** [^(-?[0-9]{1,2})[ ]*[ :°ºd][ ]*([0-5]?[0-9])?[ ]*[:\'′m]?[ ]*([0-5]?[0-9](?:\.\d+)?)?[ ]*[:\?\x22″s]?[ ]*(N|n|S|s)?$] *)
Definition latitude_dms_regex : regex :=
  seqs [ Group 1 (Seq (Opt minus) (Rep12 d09)); sp; degree_mark; sp;
         Opt (Group 2 (Seq (Opt d05) d09)); sp; Opt minute_mark; sp;
         Opt (Group 3 (seqs [Opt d05; d09; Opt (Seq dot (Plus (Chr unicode_digit)))]));
         sp; Opt second_mark; sp;
         Opt (Group 4 (Alt (lit "N") (Alt (lit "n") (Alt (lit "S") (lit "s")))));
         Eos ].

(** [^(-?1[0-8][0-9]|0?[0-9]{1,2})[ ]*[ :°ºd][ ]*([0-5]?[0-9])?[ ]*[:\'′m]?[ ]*([0-5]?[0-9](?:\.\d+)?)?[ ]*[:\?\x22″s]?[ ]*(E|e|W|w)?$] *)
Definition longitude_dms_regex : regex :=
  seqs [ Group 1 (Alt (seqs [Opt minus; lit "1"; d08; d09])
                      (Seq (Opt (lit "0")) (Rep12 d09)));
         sp; degree_mark; sp;
         Opt (Group 2 (Seq (Opt d05) d09)); sp; Opt minute_mark; sp;
         Opt (Group 3 (seqs [Opt d05; d09; Opt (Seq dot (Plus (Chr unicode_digit)))]));
         sp; Opt second_mark; sp;
         Opt (Group 4 (Alt (lit "E") (Alt (lit "e") (Alt (lit "W") (lit "w")))));
         Eos ].

(** [^(-?[0-9][0-9](?:\.[0-9]+))[ ]*[ :°ºd]?[ ]*(N|n|S|s)$] *)
Definition latitude_decimal_with_direction_regex : regex :=
  seqs [ Group 1 (seqs [Opt minus; d09; d09; dot; Plus d09]);
         sp; Opt degree_mark_bytes; sp;
         Group 2 (Alt (lit "N") (Alt (lit "n") (Alt (lit "S") (lit "s"))));
         Eos ].

(** [^(-?1[0-8][0-9]|0?[0-9][0-9](?:\.[0-9]+))[ ]*[ :°ºd]?[ ]*(E|e|W|w)$] *)
Definition longitude_decimal_with_direction_regex : regex :=
  seqs [ Group 1 (Alt (seqs [Opt minus; lit "1"; d08; d09])
                      (seqs [Opt (lit "0"); d09; d09; dot; Plus d09]));
         sp; Opt degree_mark_bytes; sp;
         Group 2 (Alt (lit "E") (Alt (lit "e") (Alt (lit "W") (lit "w"))));
         Eos ].

(** [re.sub(beginning_re, u'', text)] with [beginning_re = ^[^0-9\-]+]: the
    leading run of characters that are neither a digit nor a minus goes. *)
Definition sub_beginning_re (text : utext) : utext :=
  drop_while (fun c => negb (range 48 57 c || (c =? 45)%N)) text.

(** [re.sub(end_re, u'', text)] with [end_re = [^0-9]+$]: the search finds the
    trailing run of characters that are no digits, and it goes. *)
Definition sub_end_re (text : utext) : utext :=
  rev (drop_while (fun c => negb (range 48 57 c)) (rev text)).

(** An argument [g or 0], for a group [g] of a match: the group's text, or
    the number 0 when the group is [None] or empty. *)
Inductive text_or_zero :=
| Text (t : utext)
| Zero.

Definition or_0 (g : option utext) : text_or_zero :=
  match g with
  | Some (c :: t) => Text (c :: t)
  | _ => Zero
  end.

(** [float(x)] for such an argument. *)
Definition to_float (x : text_or_zero) : option Q :=
  match x with
  | Text t => py_float t
  | Zero => Some 0%Q
  end.

(** Modelled from the spec: [degrees_to_decimal] is imported, not defined in
    the script; the spec gives the conversion as [d + m/60 + s/3600]. *)
Definition degrees_to_decimal (d m s : text_or_zero) : option Q :=
  d ← to_float d; m ← to_float m; s ← to_float s;
  Some (d + m / 60 + s / 3600)%Q.

(** Modelled from the spec: [direction_sign] is imported, not defined in the
    script; the spec makes S and W negative, N, E and no letter positive. *)
Definition direction_sign (c : option utext) : Q :=
  match c with
  | Some [l] => if one_of (codes "SW") l then (-1)%Q else 1%Q
  | _ => 1%Q
  end.

Definition latlon_to_floats (latitude longitude : string) : option (Q * Q) :=
  latitude ← safe_decode latitude;
  longitude ← safe_decode longitude;
  let latitude := ustrip (codes " ,;|") latitude in
  let longitude := ustrip (codes " ,;|") longitude in
  let latitude := ureplace 44 46 latitude in
  let longitude := ureplace 44 46 longitude in
  let lat_dms := re_match latitude_dms_regex latitude in
  let lat_dir := re_match latitude_decimal_with_direction_regex latitude in
  latitude ←
    match lat_dms, lat_dir with
    | Some g, _ =>
        let '(d, m, s, c) := (g !! 1%nat, g !! 2%nat, g !! 3%nat, g !! 4%nat) in
        let sign := direction_sign c in
        degrees_to_decimal (or_0 d) (or_0 m) (or_0 s)
    | None, Some g =>
        let '(d, c) := (g !! 1%nat, g !! 2%nat) in
        let sign := direction_sign c in
        d ← d; d ← py_float d; Some (d * sign)%Q
    | None, None =>
        let latitude := sub_beginning_re latitude in
        let latitude := sub_end_re latitude in
        py_float latitude
    end;
  let lon_dms := re_match longitude_dms_regex longitude in
  let lon_dir := re_match longitude_decimal_with_direction_regex longitude in
  longitude ←
    match lon_dms, lon_dir with
    | Some g, _ =>
        let '(d, m, s, c) := (g !! 1%nat, g !! 2%nat, g !! 3%nat, g !! 4%nat) in
        let sign := direction_sign c in
        degrees_to_decimal (or_0 d) (or_0 m) (or_0 s)
    | None, Some g =>
        let '(d, c) := (g !! 1%nat, g !! 2%nat) in
        let sign := direction_sign c in
        d ← d; d ← py_float d; Some (d * sign)%Q
    | None, None =>
        let longitude := sub_beginning_re longitude in
        let longitude := sub_end_re longitude in
        py_float longitude
    end;
  Some (latitude, longitude).

End Patterns.

End Coord.

(** ** Calls to the disambiguation function

    [get_language_names] calls [disambiguate_language] in the middle of its
    loop and may leave the loop early with [return None, None]. [Eff] threads
    the list of the calls made so far (text and candidates of each, oldest
    first) and the early return ([None]) through the loop. *)

Definition call : Type := string * list (string * bool).

Definition Eff (A : Type) : Type := list call -> option A * list call.

#[global] Instance eff_ret : MRet Eff := fun A x log => (Some x, log).

#[global] Instance eff_bind : MBind Eff := fun A B f m log =>
  match m log with
  | (Some x, log') => f x log'
  | (None, log') => (None, log')
  end.

(** [return None, None]. *)
Definition abort {A : Type} : Eff A := fun log => (None, log).

(** The result and the calls of a computation started with no call made. *)
Definition run {A : Type} (m : Eff A) : option A * list call := m [].

(** A [for] loop whose body updates a state and may return early. *)
Fixpoint for_each {A S : Type} (body : S -> A -> Eff S) (l : list A) (st : S) : Eff S :=
  match l with
  | [] => mret st
  | x :: l' => st' ← body st x; for_each body l' st'
  end.

(** [d[k].append(x)] on a [defaultdict(list)]. *)
Definition dd_append (d : gmap string (list string)) (k x : string)
  : gmap string (list string) :=
  <[k := (default [] (d !! k) ++ [x])%list]> d.

(** [d[k]] read on a [defaultdict(list)] (a missing key reads as the empty list). *)
Definition dd_get (d : gmap string (list string)) (k : string) : list string :=
  default [] (d !! k).

(** ** [get_language_names] *)

Section Attribution.
Context `{Collaborators}.

(** The call itself, recorded. *)
Definition call_disambiguate_language (text : string) (langs : list (string * bool))
  : Eff string :=
  fun log => (Some (disambiguate_language text langs), (log ++ [(text, langs)])%list).

(** The test of line 250: a tag [prefix:<suffix>] whose suffix, its
    [_script] part stripped, is a known language. *)
Definition is_alternate (tag_prefix k : string) : bool :=
  PyStr.startswith k (tag_prefix +:+ ":")
  && bool_decide (normalize_osm_name_tag k true ∈ languages).

(** Lines 246-253: [alternate_langs] and [equivalent_alternatives]. *)
Definition collect_alternates (tag_prefix : string) (value : tagdict)
  : list (string * string) * gmap string (list string) :=
  fold_left (fun '(alternate_langs, equivalent_alternatives) '(k, v) =>
               if is_alternate tag_prefix k then
                 let lang := PyStr.split_last ":" k in
                 ((alternate_langs ++ [(lang, v)])%list, dd_append equivalent_alternatives v lang)
               else (alternate_langs, equivalent_alternatives))
            value ([], ∅).

(** Line 258: the texts that stand under more than one alternate. *)
Definition ambiguous_of (equivalent_alternatives : gmap string (list string)) : gset string :=
  dom (filter (fun kv => (1 < length kv.2)%nat) equivalent_alternatives).

(** Lines 260-270: the counters and sets read off [language_props]. *)
Record props_summary := {
  regional_defaults : nat;
  country_defaults : nat;
  regional_langs : gset string;
  country_langs : gset string
}.

Definition count_defaults (ls : list CandidateLanguage) : nat :=
  length (filter (fun l => is_default l = true) ls).

Definition summarize_props (language_props : list AdminLanguageProps) : props_summary :=
  fold_left (fun acc p =>
               if 0 <? admin_level p then
                 {| regional_defaults := regional_defaults acc + count_defaults (prop_languages p);
                    regional_langs := regional_langs acc ∪ list_to_set (map lang (prop_languages p));
                    country_defaults := country_defaults acc;
                    country_langs := country_langs acc |}
               else
                 {| regional_defaults := regional_defaults acc;
                    regional_langs := regional_langs acc;
                    country_defaults := country_defaults acc + count_defaults (prop_languages p);
                    country_langs := country_langs acc ∪ list_to_set (map lang (prop_languages p)) |})
            language_props
            {| regional_defaults := 0; country_defaults := 0;
               regional_langs := ∅; country_langs := ∅ |}.

(** [candidate_languages[0]['lang']]; the list is not empty past line 238. *)
Definition first_lang (candidate_languages : list CandidateLanguage) : string :=
  from_option lang "" (head candidate_languages).

(** The test of line 289 on a key that does not start with [prefix:]. *)
Definition is_bare (tag_prefix k : string) : bool :=
  let has_colon := PyStr.contains ":" tag_prefix in
  let tag_first_component := PyStr.split_first ":" tag_prefix in
  let tag_last_component := PyStr.split_last ":" tag_prefix in
  PyStr.startswith k tag_first_component
  && (has_colon || negb (PyStr.contains ":" k))
  && bool_decide (normalize_osm_name_tag k true = tag_last_component).

(** What the loops before line 272 have computed. *)
Record attribution_context := {
  tag_prefix : string;
  candidate_languages : list CandidateLanguage;
  default_langs : gset string;
  has_alternate_names : nat;
  equivalent_alternatives : gmap string (list string);
  ambiguous_alternatives : gset string;
  props : props_summary
}.

(** Lines 275-305: the body of the main loop, on the state
    [(name_language, ambiguous_already_seen)]. *)
Definition attribute_tag (c : attribution_context)
    (st : gmap string (list string) * gset string) (kv : string * string)
  : Eff (gmap string (list string) * gset string) :=
  let '(name_language, ambiguous_already_seen) := st in
  let '(k, v) := kv in
  let num_langs := length (candidate_languages c) in
  let num_defaults := size (default_langs c) in
  if PyStr.startswith k (tag_prefix c +:+ ":") then
    if negb (bool_decide (v ∈ ambiguous_alternatives c)) then
      let norm := normalize_osm_name_tag k false in
      let norm_sans_script := normalize_osm_name_tag k true in
      if bool_decide (norm ∈ languages) || bool_decide (norm_sans_script ∈ languages) then
        mret (dd_append name_language norm v, ambiguous_already_seen)
      else mret st
    else if negb (bool_decide (v ∈ ambiguous_already_seen)) then
      let langs := map (fun lang => (lang, bool_decide (lang ∈ default_langs c)))
                       (dd_get (equivalent_alternatives c) v) in
      lang ← call_disambiguate_language v langs;
      let name_language :=
        if bool_decide (lang ≠ AMBIGUOUS_LANGUAGE) && bool_decide (lang ≠ UNKNOWN_LANGUAGE)
        then dd_append name_language lang v else name_language in
      mret (name_language, ambiguous_already_seen ∪ {[v]})
    else mret st
  else if bool_decide (has_alternate_names c = 0%nat) && is_bare (tag_prefix c) k then
    if bool_decide (num_langs = 1%nat) then
      mret (dd_append name_language (first_lang (candidate_languages c)) v,
            ambiguous_already_seen)
    else
      lang ← call_disambiguate_language v
               (map (fun l => (lang l, is_default l)) (candidate_languages c));
      let default_lang := first_lang (candidate_languages c) in
      if bool_decide (lang = AMBIGUOUS_LANGUAGE) then abort
      else if bool_decide (lang = UNKNOWN_LANGUAGE) && bool_decide (num_defaults = 1%nat) then
        mret (dd_append name_language default_lang v, ambiguous_already_seen)
      else if bool_decide (lang ≠ UNKNOWN_LANGUAGE) then
        if bool_decide (lang ≠ default_lang)
           && bool_decide (lang ∈ country_langs (props c))
           && bool_decide (1 < country_defaults (props c))%nat
           && bool_decide (0 < regional_defaults (props c))%nat
           && bool_decide (lang ∈ WELL_REPRESENTED_LANGUAGES)
        then abort
        else mret (dd_append name_language lang v, ambiguous_already_seen)
      else abort
  else mret st.

(** Lines 241-270: the context of the main loop. *)
Definition attribution_context_of (tag_prefix : string) (value : tagdict)
    (candidate_languages : list CandidateLanguage)
    (language_props : list AdminLanguageProps) : attribution_context :=
  let '(alternate_langs, equivalent_alternatives) := collect_alternates tag_prefix value in
  {| tag_prefix := tag_prefix;
     candidate_languages := candidate_languages;
     default_langs :=
       list_to_set (map lang (filter (fun l => is_default l = true) candidate_languages));
     has_alternate_names := length alternate_langs;
     equivalent_alternatives := equivalent_alternatives;
     ambiguous_alternatives := ambiguous_of equivalent_alternatives;
     props := summarize_props language_props |}.

(** Lines 241-307, once the point has a country and candidate languages: the
    [name_language] the loop builds. *)
Definition attribute (tag_prefix : string) (value : tagdict)
    (candidate_languages : list CandidateLanguage)
    (language_props : list AdminLanguageProps) : Eff (gmap string (list string)) :=
  let c := attribution_context_of tag_prefix value candidate_languages language_props in
  st ← for_each (attribute_tag c) value (∅, ∅);
  mret st.1.

(** Lines 225-239: the coordinates of the element and the lookup of its
    point, [None] where the function returns [None, None]. *)
Definition locate (language_rtree : rtree) (value : tagdict)
  : option (string * list CandidateLanguage * list AdminLanguageProps) :=
  if negb (OD.mem "lat" value && OD.mem "lon" value) then None else
  lat ← OD.get "lat" value;
  lon ← OD.get "lon" value;
  '(latitude, longitude) ← Coord.latlon_to_floats lat lon;
  let '(country, candidate_languages, language_props) :=
    country_and_languages language_rtree latitude longitude in
  match country, candidate_languages with
  | None, _ | Some EmptyString, _ | _, [] => None
  | Some country, _ => Some (country, candidate_languages, language_props)
  end.

Definition get_language_names (language_rtree : rtree) (key : osm_key) (value : tagdict)
    (tag_prefix : string) : Eff (string * gmap string (list string)) :=
  match locate language_rtree value with
  | None => abort
  | Some (country, candidate_languages, language_props) =>
      name_language ← attribute tag_prefix value candidate_languages language_props;
      mret (country, name_language)
  end.

End Attribution.

(** ** The builders *)

(** A row handed to [writer.writerow]: its fields, in order. *)
Abbreviation row := (list string).

Definition OSM_IGNORE_KEYS : list string := ["house"].
Definition NAME_KEYS : list string := ["name"; "addr:housename"].
Definition COUNTRY_KEYS : list string := ["country"; "country_name"; "addr:country"].
Definition POSTAL_KEYS : list string :=
  ["postcode"; "postal_code"; "addr:postcode"; "addr:postal_code"].

(** [for key in keys: value.pop(key, None)]. *)
Definition strip_keys (value : tagdict) (ignore_keys : list string) : tagdict :=
  fold_left (fun value key => OD.pop key value) ignore_keys value.

Section Builders.
Context `{Collaborators}.

(** What a builder reads off [get_language_names]: [None] where the builder
    goes on to the next element ([if not name_language: continue] takes both
    the [None] of an early return and an empty dictionary). *)
Definition language_names (language_rtree : rtree) (key : osm_key) (value : tagdict)
    (tag_prefix : string) : option (string * gmap string (list string)) :=
  match (run (get_language_names language_rtree key value tag_prefix)).1 with
  | Some (country, name_language) =>
      if bool_decide (name_language = ∅) then None else Some (country, name_language)
  | None => None
  end.

(** [build_ways_training_data], lines 330-333: the rows of one element. *)
Definition ways_rows (country : string) (name_language : gmap string (list string))
  : list row :=
  flat_map (fun '(k, v) =>
              flat_map (fun s =>
                          if bool_decide (k ∈ languages) then [[k; country; tsv_string s]]
                          else []) v)
           (map_to_list name_language).

(** Lines 326-333: the rows of one element. *)
Definition ways_element_rows (language_rtree : rtree) (key : osm_key) (value : tagdict)
  : list row :=
  match language_names language_rtree key value "name" with
  | None => []
  | Some (country, name_language) => ways_rows country name_language
  end.

Definition build_ways_training_data (language_rtree : rtree) (infile : list element)
  : list row :=
  flat_map (fun '(key, value) => ways_element_rows language_rtree key value)
           (parse_osm infile WAYS_RELATIONS).

(** [build_address_training_data], lines 642-648. *)
Definition address_rows (country : string) (street_language : gmap string (list string))
  : list row :=
  flat_map (fun '(k, v) =>
              flat_map (fun s =>
                          let s := PyStr.unicode_strip s in
                          if bool_decide (s = "") then []
                          else if bool_decide (k ∈ languages) then [[k; country; tsv_string s]]
                          else []) v)
           (map_to_list street_language).

(** Lines 638-648: the rows of one element. *)
Definition address_element_rows (language_rtree : rtree) (key : osm_key) (value : tagdict)
  : list row :=
  match language_names language_rtree key value "addr:street" with
  | None => []
  | Some (country, street_language) => address_rows country street_language
  end.

Definition build_address_training_data (language_rtree : rtree) (infile : list element)
  : list row :=
  flat_map (fun '(key, value) => address_element_rows language_rtree key value)
           (parse_osm infile ALL_OSM_TAGS).

(** [build_venue_training_data], lines 669-677: the venue type of an element. *)
Definition venue_type_of (value : tagdict) : option string :=
  let try key :=
    let amenity := PyStr.unicode_strip (default "" (OD.get key value)) in
    if bool_decide (amenity = "yes") || bool_decide (amenity = "y") then None
    else if bool_decide (amenity = "") then None
    else Some (key +:+ ":" +:+ amenity) in
  match try "amenity" with
  | Some t => Some t
  | None => try "building"
  end.

(** Lines 682-686. *)
Definition venue_rows (country venue_type : string)
    (name_language : gmap string (list string)) : list row :=
  flat_map (fun '(k, v) =>
              flat_map (fun s =>
                          let s := PyStr.unicode_strip s in
                          if bool_decide (k ∈ languages)
                          then [[k; country; safe_encode venue_type; tsv_string s]]
                          else []) v)
           (map_to_list name_language).

(** Lines 665-686: the rows of one element. *)
Definition venue_element_rows (language_rtree : rtree) (key : osm_key) (value : tagdict)
  : list row :=
  match language_names language_rtree key value "name" with
  | None => []
  | Some (country, name_language) =>
      match venue_type_of value with
      | None => []
      | Some venue_type => venue_rows country venue_type name_language
      end
  end.

Definition build_venue_training_data (language_rtree : rtree) (infile : list element)
  : list row :=
  flat_map (fun '(key, value) => venue_element_rows language_rtree key value)
           (parse_osm infile ALL_OSM_TAGS).

(** [build_address_format_training_data], lines 387-419: the row of one
    element, [None] where nothing is written for it. *)
Definition address_format_row (language_rtree : rtree) (tag_components : bool)
    (value : tagdict) : option row :=
  lat ← OD.get "lat" value;
  lon ← OD.get "lon" value;
  '(latitude, longitude) ← Coord.latlon_to_floats lat lon;
  let '(country, candidate_languages, language_props) :=
    country_and_languages language_rtree latitude longitude in
  match country, candidate_languages with
  | None, _ | Some EmptyString, _ | _, [] => None
  | Some country, _ =>
      let value := strip_keys value OSM_IGNORE_KEYS in
      (* [language]: [Some None] is Python's [None], left so when not [tag_components] *)
      language ←
        (if tag_components then
           if bool_decide (length candidate_languages = 1%nat) then
             Some (Some (first_lang candidate_languages))
           else
             street ← OD.get "addr:street" value;
             Some (Some (disambiguate_language street
                           (map (fun l => (lang l, is_default l)) candidate_languages)))
         else Some None);
      formatted_address ← format_address country value tag_components;
      let formatted_address := tsv_string formatted_address in
      if bool_decide (formatted_address = "") || bool_decide (PyStr.strip formatted_address = "")
      then None
      else if tag_components then Some [default "" language; country; formatted_address]
      else Some [formatted_address]
  end.

Definition build_address_format_training_data (language_rtree : rtree)
    (infile : list element) (tag_components : bool) : list row :=
  omap (fun '(key, value) => address_format_row language_rtree tag_components value)
       (parse_osm infile ALL_OSM_TAGS).

(** [build_address_format_training_data_limited], lines 487-493: the tag bag
    of one language. [address_dict.keys()] is a list made before the loop, and
    the tests and reads are on the dictionary as changed so far. *)
Definition localized_tags (single_language : bool) (lang : string) (value : tagdict)
  : tagdict :=
  fold_left (fun address_dict k =>
               let namespaced_val := k +:+ ":" +:+ lang in
               match OD.get namespaced_val address_dict with
               | Some v => OD.set k v address_dict
               | None => if negb single_language then OD.pop k address_dict
                         else address_dict
               end)
            (OD.keys value) value.

(** Lines 483-502: what one attributed language writes. *)
Definition limited_row (country : string) (value : tagdict) (single_language : bool)
    (lang : string) : option row :=
  if negb (bool_decide (lang ∈ languages)) then None else
  let address_dict := localized_tags single_language lang value in
  match address_dict with
  | [] => None
  | _ =>
      formatted_address_untagged ← format_address country address_dict false;
      Some [lang; country; tsv_string formatted_address_untagged]
  end.

(** Lines 467-502: the rows of one element. *)
Definition limited_rows (language_rtree : rtree) (key : osm_key) (value : tagdict)
  : list row :=
  match (lat ← OD.get "lat" value; lon ← OD.get "lon" value;
         Coord.latlon_to_floats lat lon) with
  | None => []
  | Some _ =>
      let remove_keys := (NAME_KEYS ++ COUNTRY_KEYS ++ POSTAL_KEYS ++ OSM_IGNORE_KEYS)%list in
      let value := strip_keys value remove_keys in
      match value with
      | [] => []
      | _ =>
          match language_names language_rtree key value "addr:street" with
          | None => []
          | Some (country, name_language) =>
              let single_language := bool_decide (size name_language = 1%nat) in
              omap (fun '(lang, val) => limited_row country value single_language lang)
                   (map_to_list name_language)
          end
      end
  end.

Definition build_address_format_training_data_limited (language_rtree : rtree)
    (infile : list element) : list row :=
  flat_map (fun '(key, value) => limited_rows language_rtree key value)
           (parse_osm infile ALL_OSM_TAGS).

(** [build_toponym_training_data], lines 558-583: [top_lang] and the valid
    languages of a point. *)
Definition top_lang_of (country : string) : option string :=
  head (map fst (official_languages country)).

Definition toponym_default_langs (country : string) : gset string :=
  let official := official_languages country in
  let default_langs : gset string :=
    list_to_set (map fst (filter (fun ld => ld.2 = true) official)) in
  match top_lang_of country with
  | Some top_lang =>
      if negb (bool_decide (top_lang ∈ WELL_REPRESENTED_LANGUAGES))
         && bool_decide (1 < size default_langs)%nat
      then default_langs ∖ WELL_REPRESENTED_LANGUAGES
      else default_langs
  | None => default_langs
  end.

Definition toponym_valid_languages (country : string)
    (candidate_languages : list CandidateLanguage) : gset string :=
  let valid_languages : gset string := list_to_set (map lang candidate_languages) in
  let valid_languages :=
    valid_languages ∖
      filter (fun lang => lang ∈ WELL_REPRESENTED_LANGUAGES
                          ∧ country ∉ WELL_REPRESENTED_LANGUAGE_COUNTRIES lang)
             valid_languages in
  valid_languages ∪ toponym_default_langs country.

(** Line 562: the language entries of the polygons above country level. *)
Definition toponym_regional_langs (language_props : list AdminLanguageProps)
  : list CandidateLanguage :=
  flat_map prop_languages (filter (fun p => 0 < admin_level p) language_props).

(** [d[k].append(x)] where the key may be Python's [None]. *)
Definition dd_append_opt (d : gmap (option string) (list string)) (k : option string)
    (x : string) : gmap (option string) (list string) :=
  <[k := (default [] (d !! k) ++ [x])%list]> d.

(** Lines 590-606: the loop over the qualified names, on the state
    [(have_qualified_names, name_language)]. *)
Definition toponym_qualified (valid_languages : gset string) (value : tagdict)
  : bool * gmap (option string) (list string) :=
  fold_left (fun '(have_qualified_names, name_language) '(k, v) =>
               if negb (PyStr.startswith k "name:") then (have_qualified_names, name_language)
               else
                 let norm := normalize_osm_name_tag k false in
                 let norm_sans_script := normalize_osm_name_tag k true in
                 let lang :=
                   if bool_decide (norm ∈ languages) then Some norm
                   else if bool_decide (norm_sans_script ∈ languages) then Some norm_sans_script
                   else None in
                 match lang with
                 | None => (have_qualified_names, name_language)
                 | Some lang =>
                     if bool_decide (lang ∈ valid_languages)
                     then (true, dd_append_opt name_language (Some lang) v)
                     else (have_qualified_names, name_language)
                 end)
            value (false, ∅).

(** Lines 544-609: the [name_language] of one element, [None] where the
    builder goes on to the next element. *)
Definition toponym_name_language (language_rtree : rtree) (value : tagdict)
  : option (string * gmap (option string) (list string)) :=
  if negb (0 <? length (filter (fun kv => PyStr.startswith kv.1 "name" = true) value))%nat
  then None else
  lat ← OD.get "lat" value;
  lon ← OD.get "lon" value;
  '(latitude, longitude) ← Coord.latlon_to_floats lat lon;
  let '(country, candidate_languages, language_props) :=
    country_and_languages language_rtree latitude longitude in
  match country, candidate_languages with
  | None, _ | Some EmptyString, _ | _, [] => None
  | Some country, _ =>
      let regional_langs := toponym_regional_langs language_props in
      let top_lang := top_lang_of country in
      let valid_languages := toponym_valid_languages country candidate_languages in
      if bool_decide (valid_languages = ∅) then None else
      let '(have_qualified_names, name_language) :=
        toponym_qualified valid_languages value in
      let name_language :=
        match OD.get "name" value with
        | Some name =>
            if negb have_qualified_names
               && bool_decide (length regional_langs ≤ 1)%nat
               && bool_decide (size valid_languages = 1%nat)
            then dd_append_opt name_language top_lang name
            else name_language
        | None => name_language
        end in
      Some (country, name_language)
  end.

(** Lines 611-616. *)
Definition toponym_rows (country : string)
    (name_language : gmap (option string) (list string)) : list row :=
  flat_map (fun '(k, v) =>
              flat_map (fun s =>
                          let s := PyStr.unicode_strip s in
                          if bool_decide (s = "") then []
                          else [[default "" k; country; tsv_string s]]) v)
           (map_to_list name_language).

Definition build_toponym_training_data (language_rtree : rtree) (infile : list element)
  : list row :=
  flat_map (fun '(key, value) =>
              match toponym_name_language language_rtree value with
              | None => []
              | Some (country, name_language) => toponym_rows country name_language
              end)
           (parse_osm infile ALL_OSM_TAGS).

End Builders.

(** ** Sample collaborators

    Small implementations of the interface, to run the embedding on concrete
    elements. *)

Module Sample.

(** Plain decimal notation ([-12], [46.5]) read exactly: on such text it is
    what Python's [float] reads, up to the rounding of binary floating point. *)
Definition digit_val (c : N) : option N :=
  if Re.range 48 57 c then Some (c - 48)%N else None.

Fixpoint digits_val (acc : N) (t : utext) : option N :=
  match t with
  | [] => Some acc
  | c :: t' => d ← digit_val c; digits_val (acc * 10 + d)%N t'
  end.

Fixpoint split_at_dot (t : utext) : utext * option utext :=
  match t with
  | [] => ([], None)
  | c :: t' => if (c =? 46)%N then ([], Some t')
               else let '(a, b) := split_at_dot t' in (c :: a, b)
  end.

Definition unsigned_decimal (t : utext) : option Q :=
  match split_at_dot t with
  | ([], None) | ([], Some []) => None
  | (ip, None) => n ← digits_val 0 ip; Some (inject_Z (Z.of_N n))
  | (ip, Some fp) =>
      n ← digits_val 0 (ip ++ fp)%list;
      Some (Qmake (Z.of_N n) (Pos.pow 10 (Pos.of_nat (length fp))))
  end.

Definition decimal_float (t : utext) : option Q :=
  match t with
  | 45%N :: t' => q ← unsigned_decimal t'; Some (- q)%Q
  | 43%N :: t' => unsigned_decimal t'
  | _ => unsigned_decimal t
  end.

(** A formatter that joins the values of the tag bag. *)
Definition join_values (tags : tagdict) : option string :=
  match tags with
  | [] => None
  | _ => Some (String.concat " | " (map snd tags))
  end.

(** The collaborators of a run on one point: the known and the
    well-represented languages, the official languages of the country, the
    disambiguation function and the answer of the geo index. Well-represented
    languages have no origin country here. *)
Definition world (known well : list string) (official : list (string * bool))
    (disambiguate : string -> list (string * bool) -> string)
    (geo : option string * list CandidateLanguage * list AdminLanguageProps)
  : Collaborators :=
  {| languages := list_to_set known;
     official_languages := fun _ => official;
     WELL_REPRESENTED_LANGUAGES := list_to_set well;
     WELL_REPRESENTED_LANGUAGE_COUNTRIES := fun _ => ∅;
     AMBIGUOUS_LANGUAGE := "xxx";
     UNKNOWN_LANGUAGE := "unk";
     disambiguate_language := disambiguate;
     rtree := unit;
     country_and_languages := fun _ _ _ => geo;
     format_address := fun _ tags _ => join_values tags;
     tsv_string := fun s => s;
     safe_encode := fun s => s;
     safe_decode := fun s => Some (codes s);
     py_float := decimal_float;
     unicode_digit := Re.range 48 57 |}.

(** Disambiguation functions: one that always gives the same answer, and one
    that picks the first candidate it is given. *)
Definition always (answer : string) : string -> list (string * bool) -> string :=
  fun _ _ => answer.

Definition first_candidate : string -> list (string * bool) -> string :=
  fun _ langs => from_option fst "unk" (head langs).

Definition L (code : string) (d : bool) : CandidateLanguage :=
  {| lang := code; is_default := d |}.

(** A point with no country. *)
Definition plain : Collaborators :=
  world [] [] [] (always "unk") (None, [], []).

(** A point in Belgium: two default languages at country level, and a region
    above country level with a default language of its own and English. *)
Definition belgium_props : list AdminLanguageProps :=
  [ {| admin_level := 0; prop_languages := [L "nl" true; L "fr" true] |};
    {| admin_level := 4; prop_languages := [L "de" true; L "en" false] |} ].

Definition belgium_cands : list CandidateLanguage :=
  [L "nl" true; L "fr" true; L "de" true; L "en" false].

Definition belgium (disambiguate : string -> list (string * bool) -> string)
  : Collaborators :=
  world ["en"; "fr"; "nl"; "de"; "zh"] ["en"; "fr"; "de"]
        [("nl", true); ("fr", true); ("de", true)]
        disambiguate (Some "be", belgium_cands, belgium_props).

(** A point in France: one candidate language. *)
Definition france : Collaborators :=
  world ["en"; "fr"] ["en"; "fr"] [("fr", true)] (always "unk")
        (Some "fr", [L "fr" true],
         [ {| admin_level := 0; prop_languages := [L "fr" true] |} ]).

(** A point in India: Hindi is the first official language, and English is
    well represented with no origin country here. *)
Definition india_cands : list CandidateLanguage := [L "hi" true; L "en" false].

Definition india (language_props : list AdminLanguageProps) : Collaborators :=
  world ["hi"; "en"; "mr"] ["en"] [("hi", true)] (always "unk")
        (Some "in", india_cands, language_props).

Definition one_language_region : list AdminLanguageProps :=
  [ {| admin_level := 0; prop_languages := [L "hi" true; L "en" false] |};
    {| admin_level := 4; prop_languages := [L "hi" true] |} ].

Definition two_language_region : list AdminLanguageProps :=
  [ {| admin_level := 0; prop_languages := [L "hi" true; L "en" false] |};
    {| admin_level := 4; prop_languages := [L "hi" true; L "en" false] |} ].

(** Tag dictionaries and elements. *)
Definition main_street : tagdict :=
  [("lat", "50.85"); ("lon", "4.35"); ("name", "Main Street")].

Definition rue_x : tagdict :=
  [("lat", "50.85"); ("lon", "4.35"); ("name:en", "Rue X"); ("name:fr", "Rue X");
   ("name:zh_pinyin", "Lu")].

Definition rue_x_address : tagdict :=
  [("lat", "50.85"); ("lon", "4.35"); ("addr:street", "Rue X")].

Definition bilingual_address : tagdict :=
  [("lat", "50.85"); ("lon", "4.35"); ("addr:street", "Rue Principale");
   ("addr:street:en", "Main Street"); ("addr:street:fr", "Rue Principale");
   ("addr:city", "Brussels")].

Definition bilingual_element : element :=
  {| elem_tag := "node"; elem_id := 7;
     elem_attrib := [("lat", "50.85"); ("lon", "4.35")];
     elem_tags := [("addr:street", "Rue Principale");
                   ("addr:street:en", "Main Street"); ("addr:street:fr", "Rue Principale");
                   ("addr:city", "Brussels")] |}.

Definition main_street_way : element :=
  {| elem_tag := "node"; elem_id := 10 ^ 15 + 5;
     elem_attrib := [("lat", "50.85"); ("lon", "4.35")];
     elem_tags := [("name:en", "Main Street"); ("name:fr", "Rue Principale")] |}.

Definition pune : tagdict := [("lat", "18.52"); ("lon", "73.85"); ("name", "Pune")].

Definition pune_poona : tagdict :=
  [("lat", "18.52"); ("lon", "73.85"); ("name", "Pune"); ("name:en", "Poona")].

End Sample.

(** Further elements, for the builders. *)
Module SampleElements.

(** A venue in Belgium whose [amenity] tag says only [yes]. *)
Definition restaurant : element :=
  {| elem_tag := "node"; elem_id := 9;
     elem_attrib := [("lat", "50.85"); ("lon", "4.35")];
     elem_tags := [("name:fr", "Chez Leon"); ("amenity", "yes");
                   ("building", " restaurant ")] |}.

(** An address in France with an ignored key. *)
Definition rue_x_house : element :=
  {| elem_tag := "node"; elem_id := 9;
     elem_attrib := [("lat", "48.85"); ("lon", "2.35")];
     elem_tags := [("house", "yes"); ("addr:street", "Rue X")] |}.

(** A place in India with a bare and a qualified name. *)
Definition pune_node : element :=
  {| elem_tag := "node"; elem_id := 3; elem_attrib := [];
     elem_tags := Sample.pune_poona |}.

(** An address in Belgium whose street has a romanized variant only. *)
Definition pinyin_address : tagdict :=
  [("lat", "50.85"); ("lon", "4.35");
   ("addr:street", "Lu Street"); ("addr:street:zh_pinyin", "Lu")].

Definition pinyin_element : element :=
  {| elem_tag := "node"; elem_id := 9;
     elem_attrib := [("lat", "50.85"); ("lon", "4.35")];
     elem_tags := [("addr:street", "Lu Street"); ("addr:street:zh_pinyin", "Lu")] |}.

(** U+00A0 (no-break space) and U+3000 (ideographic space), in UTF-8. *)
Definition nbsp : string := String "194" (String "160" "").
Definition ideographic_space : string := String "227" (String "128" (String "128" "")).

(** Elements whose values are padded with such spaces: a street and a venue
    in France, a place in India. *)
Definition padded_street : element :=
  {| elem_tag := "node"; elem_id := 11;
     elem_attrib := [("lat", "48.85"); ("lon", "2.35")];
     elem_tags := [("addr:street", ideographic_space +:+ "Rue X" +:+ nbsp)] |}.

Definition padded_venue : element :=
  {| elem_tag := "node"; elem_id := 12;
     elem_attrib := [("lat", "48.85"); ("lon", "2.35")];
     elem_tags := [("name", nbsp +:+ "Chez Leon"); ("amenity", ideographic_space);
                   ("building", "restaurant" +:+ nbsp)] |}.

Definition padded_place : element :=
  {| elem_tag := "node"; elem_id := 13;
     elem_attrib := [("lat", "18.52"); ("lon", "73.85")];
     elem_tags := [("name", nbsp +:+ "Pune" +:+ ideographic_space)] |}.

(** An address in Belgium with a street in two languages and a city that is
    localized in one of them only. *)
Definition half_localized_address : tagdict :=
  [("lat", "50.85"); ("lon", "4.35");
   ("addr:street:en", "Main Street"); ("addr:street:fr", "Rue Principale");
   ("addr:city", "Bruxelles"); ("addr:city:en", "Brussels Centre")].

Definition half_localized : element :=
  {| elem_tag := "node"; elem_id := 8;
     elem_attrib := [("lat", "50.85"); ("lon", "4.35")];
     elem_tags := [("addr:street:en", "Main Street"); ("addr:street:fr", "Rue Principale");
                   ("addr:city", "Bruxelles"); ("addr:city:en", "Brussels Centre")] |}.

End SampleElements.

(** Decidable facts about concrete data, by evaluation. *)
Ltac by_compute :=
  match goal with
  | |- ?P => let d := constr:(_ : Decision P) in
             exact (@bool_decide_unpack P d ltac:(vm_compute; exact I))
  end.

(** * Properties *)

(** ** The stream parser *)

Lemma decode_id_cases (tag : string) (n : Z) :
  decode_id tag n =
    if n <? 10 ^ 15 then (tag, n)
    else if n <? 2 * 10 ^ 15 then ("way", n - 10 ^ 15)
    else ("relation", n - 2 * 10 ^ 15).
Proof.
  unfold decode_id, WAY_OFFSET, RELATION_OFFSET.
  destruct (Z.ltb_spec n (10 ^ 15)), (Z.ltb_spec n (2 * 10 ^ 15)),
    (Z.leb_spec (10 ^ 15) n), (Z.leb_spec (2 * 10 ^ 15) n); simpl; try reflexivity; lia.
Qed.

(** C9. An element tagged [node] (as all are in the converted input) with
    packed id [n] is decoded to (node, n) below 10^15, to (way, n - 10^15)
    from 10^15 up to 2*10^15, and to (relation, n - 2*10^15) from there on;
    the decoded type alone decides whether the element is yielded, and the
    yielded key carries the decoded local id. *)
Theorem parse_osm_decodes_packed_id (allowed_types : gset string) (elem : element) :
  elem_tag elem = "node" ->
  let n := elem_id elem in
  let decoded :=
    if n <? 10 ^ 15 then ("node", n)
    else if n <? 2 * 10 ^ 15 then ("way", n - 10 ^ 15)
    else ("relation", n - 2 * 10 ^ 15) in
  decode_id (elem_tag elem) n = decoded
  /\ (decoded.1 ∉ allowed_types -> parse_osm_elem allowed_types elem = None)
  /\ (decoded.1 ∈ allowed_types ->
      exists attrs,
        parse_osm_elem allowed_types elem =
          Some (if bool_decide (size allowed_types = 1%nat) then KeyId decoded.2
                else KeyText (decoded.1 +:+ ":" +:+ pretty decoded.2), attrs)).
Proof.
  intros Htag n decoded.
  assert (Hd : decode_id (elem_tag elem) n = decoded).
  { rewrite decode_id_cases, Htag. reflexivity. }
  split; [exact Hd|].
  unfold parse_osm_elem. fold n. rewrite Hd.
  destruct decoded as [item_type local]; simpl.
  split; intros Hin.
  - rewrite bool_decide_eq_false_2 by exact Hin. reflexivity.
  - rewrite bool_decide_eq_true_2 by exact Hin. eexists. reflexivity.
Qed.

Lemma parse_osm_decodes_packed_id_witness :
  let elem := {| elem_tag := "node"; elem_id := 10 ^ 15 + 5;
                 elem_attrib := [("lat", "50.5")]; elem_tags := [("name", "Main Street")] |} in
  decode_id (elem_tag elem) (elem_id elem) = ("way", 5)
  /\ parse_osm_elem {["node"]} elem = None
  /\ exists attrs, parse_osm_elem WAYS_RELATIONS elem = Some (KeyText "way:5", attrs).
Proof.
  intros elem.
  destruct (parse_osm_decodes_packed_id {["node"]} elem eq_refl) as (Hd & Hout & _).
  destruct (parse_osm_decodes_packed_id WAYS_RELATIONS elem eq_refl) as (_ & _ & Hin).
  split; [exact Hd|]. split.
  - apply Hout. by_compute.
  - apply Hin. by_compute.
Defined.

(** ** The coordinate normalizer *)

(** C6. On the pair ("40 42 46 N", "74 0 21 W") both texts match the
    degrees-minutes-seconds pattern and the result is
    (40 + 42/60 + 46/3600, 74 + 0/60 + 21/3600): the sign of the cardinal
    letter W is computed and not applied, the longitude comes out positive,
    more than 1e-3 away from -74.0060, and equal to that of "74 0 21 E". *)
Theorem latlon_to_floats_dms_drops_cardinal_sign :
  exists lat lon : Q,
    @Coord.latlon_to_floats Sample.plain "40 42 46 N" "74 0 21 W" = Some (lat, lon)
    /\ (lat == 40 + 42 / 60 + 46 / 3600)%Q
    /\ (lon == 74 + 0 / 60 + 21 / 3600)%Q
    /\ ~ ((-74006 # 1000) - (1 # 1000) <= lon /\ lon <= (-74006 # 1000) + (1 # 1000))%Q
    /\ @Coord.latlon_to_floats Sample.plain "40 42 46 N" "74 0 21 E" = Some (lat, lon).
Proof.
  eexists _, _. split; [vm_compute; reflexivity|].
  repeat split; try reflexivity.
  intros [_ Hle]. vm_compute in Hle. apply Hle. reflexivity.
Qed.

(** ** The rows of the builders *)

Section BuilderRows.
Context `{Collaborators}.

Lemma ways_rows_known (country : string) (name_language : gmap string (list string))
    (r : row) :
  In r (ways_rows country name_language) ->
  exists k rest, r = k :: rest /\ k ∈ languages.
Proof.
  unfold ways_rows. intros Hr.
  apply in_flat_map in Hr as ([k v] & _ & Hr).
  apply in_flat_map in Hr as (s & _ & Hr).
  case_bool_decide as Hk; [|destruct Hr].
  destruct Hr as [<-|[]]. eauto.
Qed.

Lemma address_rows_known (country : string) (street_language : gmap string (list string))
    (r : row) :
  In r (address_rows country street_language) ->
  exists k rest, r = k :: rest /\ k ∈ languages.
Proof.
  unfold address_rows. intros Hr.
  apply in_flat_map in Hr as ([k v] & _ & Hr).
  apply in_flat_map in Hr as (s & _ & Hr).
  case_bool_decide as Hs; [destruct Hr|].
  case_bool_decide as Hk; [|destruct Hr].
  destruct Hr as [<-|[]]. eauto.
Qed.

Lemma venue_rows_known (country venue_type : string)
    (name_language : gmap string (list string)) (r : row) :
  In r (venue_rows country venue_type name_language) ->
  exists k rest, r = k :: rest /\ k ∈ languages.
Proof.
  unfold venue_rows. intros Hr.
  apply in_flat_map in Hr as ([k v] & _ & Hr).
  apply in_flat_map in Hr as (s & _ & Hr).
  case_bool_decide as Hk; [|destruct Hr].
  destruct Hr as [<-|[]]. eauto.
Qed.

Lemma limited_row_known (country : string) (value : tagdict) (single_language : bool)
    (lang : string) (r : row) :
  limited_row country value single_language lang = Some r ->
  exists rest, r = lang :: rest /\ lang ∈ languages.
Proof.
  unfold limited_row. case_bool_decide as Hk; simpl; [|discriminate].
  destruct (localized_tags single_language lang value); [discriminate|].
  destruct (format_address _ _ _); simpl; [|discriminate].
  intros [= <-]. eauto.
Qed.

Lemma limited_rows_known (language_rtree : rtree) (key : osm_key) (value : tagdict)
    (r : row) :
  In r (limited_rows language_rtree key value) ->
  exists k rest, r = k :: rest /\ k ∈ languages.
Proof.
  unfold limited_rows. intros Hr.
  destruct (_ ≫= _); [|destruct Hr].
  destruct (strip_keys _ _) as [|kv value']; [destruct Hr|].
  destruct (language_names _ _ _ _) as [[country name_language]|]; [|destruct Hr].
  apply list_elem_of_In, list_elem_of_omap in Hr as ([lang val] & _ & Hr).
  apply limited_row_known in Hr as (rest & -> & Hk). eauto.
Qed.

(** C10. Every row written by the ways, address-streets, venues and limited
    formatted-address builders starts with a language code of the known set,
    whatever keys the attribution result holds. *)
Theorem builders_write_known_languages (language_rtree : rtree) (infile : list element)
    (r : row) :
  In r (build_ways_training_data language_rtree infile)
  \/ In r (build_address_training_data language_rtree infile)
  \/ In r (build_venue_training_data language_rtree infile)
  \/ In r (build_address_format_training_data_limited language_rtree infile) ->
  exists k rest, r = k :: rest /\ k ∈ languages.
Proof.
  intros [Hr|[Hr|[Hr|Hr]]]; apply in_flat_map in Hr as ([key value] & _ & Hr).
  - unfold ways_element_rows in Hr.
    destruct (language_names _ _ _ _) as [[country nl]|]; [|destruct Hr].
    eapply ways_rows_known, Hr.
  - unfold address_element_rows in Hr.
    destruct (language_names _ _ _ _) as [[country nl]|]; [|destruct Hr].
    eapply address_rows_known, Hr.
  - unfold venue_element_rows in Hr.
    destruct (language_names _ _ _ _) as [[country nl]|]; [|destruct Hr].
    destruct (venue_type_of value); [|destruct Hr].
    eapply venue_rows_known, Hr.
  - eapply limited_rows_known, Hr.
Qed.

End BuilderRows.

(** ** Loops with calls and early returns *)

Section Loops.
Context {A S : Type} (body : S -> A -> Eff S).

Lemma eff_bind_eq {B C : Type} (m : Eff B) (f : B -> Eff C) (log : list call) :
  (m ≫= f) log =
    match m log with
    | (Some x, log') => f x log'
    | (None, log') => (None, log')
    end.
Proof. reflexivity. Qed.

Lemma for_each_cons (x : A) (l : list A) (st : S) (log : list call) :
  for_each body (x :: l) st log =
    match body st x log with
    | (Some st', log') => for_each body l st' log'
    | (None, log') => (None, log')
    end.
Proof. reflexivity. Qed.

Lemma for_each_app (l1 l2 : list A) (st : S) (log : list call) :
  for_each body (l1 ++ l2)%list st log =
    match for_each body l1 st log with
    | (Some st', log') => for_each body l2 st' log'
    | (None, log') => (None, log')
    end.
Proof.
  revert st log. induction l1 as [|x l1 IH]; intros st log; [reflexivity|].
  simpl app. rewrite !for_each_cons.
  destruct (body st x log) as [[st'|] log']; [apply IH|reflexivity].
Qed.

(** An element on which the body returns early, whatever the state, makes
    the loop return early. *)
Lemma for_each_abort (x : A) (l : list A) :
  x ∈ l ->
  (forall st log, (body st x log).1 = None) ->
  forall st log, (for_each body l st log).1 = None.
Proof.
  intros Hx Hab. induction l as [|y l IH]; intros st log.
  - inversion Hx.
  - rewrite for_each_cons.
    apply elem_of_cons in Hx as [<-|Hx].
    + specialize (Hab st log). destruct (body st x log) as [[st'|] log']; [discriminate|done].
    + destruct (body st y log) as [[st'|] log']; [|done].
      by apply IH.
Qed.

(** An invariant of the state and the calls that every turn keeps, without
    early return, holds after the loop. *)
Lemma for_each_inv (I : S -> list call -> Prop) (l : list A) :
  (forall st x log, x ∈ l -> I st log ->
     exists st' log', body st x log = (Some st', log') /\ I st' log') ->
  forall st log, I st log ->
    exists st' log', for_each body l st log = (Some st', log') /\ I st' log'.
Proof.
  induction l as [|x l IH]; intros Hbody st log HI.
  - exists st, log. done.
  - rewrite for_each_cons.
    destruct (Hbody st x log) as (st' & log' & -> & HI'); [left|done|].
    apply IH; [|done]. intros ? ? ? ?. apply Hbody. by right.
Qed.

(** An invariant of the state that every turn keeps when it does not return
    early holds of what the loop returns. *)
Lemma for_each_inv_result (I : S -> Prop) (l : list A) :
  (forall st x log st' log', x ∈ l -> I st ->
     body st x log = (Some st', log') -> I st') ->
  forall st log st' log', I st ->
    for_each body l st log = (Some st', log') -> I st'.
Proof.
  induction l as [|x l IH]; intros Hbody st log st' log' HI.
  - intros [= <- _]. done.
  - rewrite for_each_cons.
    destruct (body st x log) as [[st1|] log1] eqn:Hst1; [|discriminate].
    apply IH; [|eapply Hbody; [left| |]; done].
    intros ? ? ? ? ? ?. apply Hbody. by right.
Qed.

(** Elements on which a turn changes nothing can be left out. *)
Lemma for_each_filter (P : A -> Prop) `{!forall x, Decision (P x)} (l : list A) :
  (forall x st log, x ∈ l -> ~ P x -> body st x log = (Some st, log)) ->
  forall st log, for_each body l st log = for_each body (filter P l) st log.
Proof.
  induction l as [|x l IH]; intros Hskip st log; [reflexivity|].
  rewrite filter_cons. destruct (decide (P x)) as [HP|HP].
  - rewrite !for_each_cons. destruct (body st x log) as [[st'|] log']; [|done].
    apply IH. intros ? ? ? ?. apply Hskip. by right.
  - rewrite for_each_cons, Hskip; [|left|done].
    apply IH. intros ? ? ? ?. apply Hskip. by right.
Qed.

End Loops.

(** ** The attribution engine *)

Section AttributionFacts.
Context `{Collaborators}.

Implicit Types (value : tagdict) (cands : list CandidateLanguage)
  (language_props : list AdminLanguageProps).

Lemma count_defaults_app (l1 l2 : list CandidateLanguage) :
  count_defaults (l1 ++ l2)%list = (count_defaults l1 + count_defaults l2)%nat.
Proof. unfold count_defaults. by rewrite filter_app, length_app. Qed.

(** The counters and sets of lines 260-270 in closed form: the polygons above
    country level on one side, the others on the other. *)
Lemma summarize_props_spec language_props :
  let regional := flat_map prop_languages (filter (fun p => 0 < admin_level p) language_props) in
  let national := flat_map prop_languages (filter (fun p => ~ 0 < admin_level p) language_props) in
  let s := summarize_props language_props in
  regional_defaults s = count_defaults regional
  /\ country_defaults s = count_defaults national
  /\ regional_langs s = list_to_set (map lang regional)
  /\ country_langs s = list_to_set (map lang national).
Proof.
  unfold summarize_props.
  set (f := fun acc p => if 0 <? admin_level p then _ else _).
  assert (Hgen : forall ps acc,
    let regional := flat_map prop_languages (filter (fun p => 0 < admin_level p) ps) in
    let national := flat_map prop_languages (filter (fun p => ~ 0 < admin_level p) ps) in
    let s := fold_left f ps acc in
    regional_defaults s = (regional_defaults acc + count_defaults regional)%nat
    /\ country_defaults s = (country_defaults acc + count_defaults national)%nat
    /\ regional_langs s = regional_langs acc ∪ list_to_set (map lang regional)
    /\ country_langs s = country_langs acc ∪ list_to_set (map lang national)).
  { induction ps as [|p ps IH]; intros acc; simpl.
    - repeat split; try lia; set_solver.
    - destruct (IH (f acc p)) as (IH1 & IH2 & IH3 & IH4).
      rewrite IH1, IH2, IH3, IH4. rewrite !filter_cons. subst f. simpl.
      destruct (Z.ltb_spec 0 (admin_level p)) as [Hlt|Hge].
      + rewrite decide_True by done. rewrite decide_False by (intros Hn; by apply Hn).
        simpl. rewrite count_defaults_app, map_app, list_to_set_app_L.
        repeat split; try lia; set_solver.
      + rewrite decide_False by lia. rewrite decide_True by lia.
        simpl. rewrite count_defaults_app, map_app, list_to_set_app_L.
        repeat split; try lia; set_solver. }
  destruct (Hgen language_props
              {| regional_defaults := 0; country_defaults := 0;
                 regional_langs := ∅; country_langs := ∅ |}) as (H1 & H2 & H3 & H4).
  cbv zeta. simpl in *. rewrite H1, H2, H3, H4. repeat split; try lia; set_solver.
Qed.

(** Past the lookup of the point, the function is its main loop. *)
Lemma get_language_names_located (language_rtree : rtree) (key : osm_key) value
    (prefix country : string) cands language_props (log : list call) :
  locate language_rtree value = Some (country, cands, language_props) ->
  get_language_names language_rtree key value prefix log =
    match for_each (attribute_tag (attribution_context_of prefix value cands language_props))
                   value (∅, ∅) log with
    | (Some st, log') => (Some (country, st.1), log')
    | (None, log') => (None, log')
    end.
Proof.
  intros Hloc. unfold get_language_names. rewrite Hloc.
  unfold attribute. rewrite !eff_bind_eq.
  destruct (for_each _ _ _ _) as [[st|] log']; reflexivity.
Qed.

(** The fields of the context that do not depend on the alternates. *)
Lemma attribution_context_of_fields (prefix : string) value cands language_props :
  let c := attribution_context_of prefix value cands language_props in
  tag_prefix c = prefix
  /\ candidate_languages c = cands
  /\ default_langs c =
       list_to_set (map lang (filter (fun l => is_default l = true) cands))
  /\ has_alternate_names c = length (collect_alternates prefix value).1
  /\ equivalent_alternatives c = (collect_alternates prefix value).2
  /\ ambiguous_alternatives c = ambiguous_of (collect_alternates prefix value).2
  /\ props c = summarize_props language_props.
Proof.
  unfold attribution_context_of.
  destruct (collect_alternates prefix value) as [alts eq]. simpl. done.
Qed.

End AttributionFacts.

Section Fallback.
Context `{Collaborators}.

Implicit Types (value : tagdict) (cands : list CandidateLanguage)
  (language_props : list AdminLanguageProps).

(** What a turn of the main loop does on a bare tag when the element has no
    alternate and the point has several candidate languages. *)
Lemma attribute_tag_fallback (prefix : string) value cands language_props
    (k v : string) st (log : list call) :
  (collect_alternates prefix value).1 = [] ->
  PyStr.startswith k (prefix +:+ ":") = false ->
  is_bare prefix k = true ->
  length cands <> 1%nat ->
  let c := attribution_context_of prefix value cands language_props in
  let answer := disambiguate_language v (map (fun l => (lang l, is_default l)) cands) in
  let log' := (log ++ [(v, map (fun l => (lang l, is_default l)) cands)])%list in
  attribute_tag c st (k, v) log =
    if bool_decide (answer = AMBIGUOUS_LANGUAGE) then (None, log')
    else if bool_decide (answer = UNKNOWN_LANGUAGE)
            && bool_decide (size (default_langs c) = 1%nat)
    then (Some (dd_append st.1 (first_lang cands) v, st.2), log')
    else if bool_decide (answer ≠ UNKNOWN_LANGUAGE) then
      if bool_decide (answer ≠ first_lang cands)
         && bool_decide (answer ∈ country_langs (summarize_props language_props))
         && bool_decide (1 < country_defaults (summarize_props language_props))%nat
         && bool_decide (0 < regional_defaults (summarize_props language_props))%nat
         && bool_decide (answer ∈ WELL_REPRESENTED_LANGUAGES)
      then (None, log')
      else (Some (dd_append st.1 answer v, st.2), log')
    else (None, log').
Proof.
  intros Hnone Hpre Hbare Hlen c answer log'.
  destruct (attribution_context_of_fields prefix value cands language_props)
    as (Hp & Hc & _ & Hh & _ & _ & Hs).
  fold c in Hp, Hc, Hh, Hs.
  destruct st as [name_language seen]. unfold attribute_tag.
  rewrite Hp, Hc, Hh, Hs, Hpre, Hnone, Hbare. simpl length.
  rewrite (bool_decide_eq_true_2 (0%nat = 0%nat)) by done.
  rewrite (bool_decide_eq_false_2 (length cands = 1%nat)) by done.
  cbn [andb]. rewrite eff_bind_eq. unfold call_disambiguate_language.
  fold answer. fold log'. simpl.
  repeat (case_bool_decide; simpl; try reflexivity).
Qed.

(** A tag on which the loop returns early makes the function return None. *)
Lemma get_language_names_abort (language_rtree : rtree) (key : osm_key) value
    (prefix country : string) cands language_props (kv : string * string) :
  locate language_rtree value = Some (country, cands, language_props) ->
  kv ∈ value ->
  (forall st log,
     (attribute_tag (attribution_context_of prefix value cands language_props) st kv log).1
     = None) ->
  (run (get_language_names language_rtree key value prefix)).1 = None.
Proof.
  intros Hloc Hkv Hab. unfold run.
  rewrite (get_language_names_located _ _ _ _ _ _ _ _ Hloc).
  pose proof (for_each_abort _ kv value Hkv Hab (∅, ∅) []) as Hloop.
  destruct (for_each _ _ _ _) as [[st|] log']; [discriminate|reflexivity].
Qed.

(** C4, as amended. In the bare-tag fallback, when the disambiguation gives a
    concrete language that differs from the top-ranked candidate, is
    well represented, and is declared by a country-level polygon, while the
    country-level polygons declare more than one default language and a
    polygon above country level declares a default language, the function
    returns None. *)
Theorem fallback_guard_returns_none (language_rtree : rtree) (key : osm_key) value
    (prefix country : string) cands language_props (k v : string) :
  locate language_rtree value = Some (country, cands, language_props) ->
  (collect_alternates prefix value).1 = [] ->
  (k, v) ∈ value ->
  PyStr.startswith k (prefix +:+ ":") = false ->
  is_bare prefix k = true ->
  length cands <> 1%nat ->
  let answer := disambiguate_language v (map (fun l => (lang l, is_default l)) cands) in
  let regional := flat_map prop_languages (filter (fun p => 0 < admin_level p) language_props) in
  let national := flat_map prop_languages (filter (fun p => ~ 0 < admin_level p) language_props) in
  answer <> AMBIGUOUS_LANGUAGE ->
  answer <> UNKNOWN_LANGUAGE ->
  answer <> first_lang cands ->
  answer ∈ WELL_REPRESENTED_LANGUAGES ->
  (1 < count_defaults national)%nat ->
  (0 < count_defaults regional)%nat ->
  answer ∈ map lang national ->
  (run (get_language_names language_rtree key value prefix)).1 = None.
Proof.
  intros Hloc Hnone Hkv Hpre Hbare Hlen answer regional national
    Hamb Hunk Htop Hwell Hcd Hrd Hcl.
  apply (get_language_names_abort _ _ _ _ country cands language_props (k, v)); [done..|].
  intros st log. rewrite attribute_tag_fallback by done.
  destruct (summarize_props_spec language_props) as (Hr & Hc & _ & Hcl').
  simpl in Hr, Hc, Hcl'. rewrite Hr, Hc, Hcl'.
  fold answer regional national.
  rewrite (bool_decide_eq_false_2 (answer = AMBIGUOUS_LANGUAGE)) by done.
  rewrite (bool_decide_eq_false_2 (answer = UNKNOWN_LANGUAGE)) by done.
  rewrite (bool_decide_eq_true_2 (answer ≠ UNKNOWN_LANGUAGE)) by done.
  rewrite (bool_decide_eq_true_2 (answer ≠ first_lang cands)) by done.
  rewrite (bool_decide_eq_true_2 (answer ∈ WELL_REPRESENTED_LANGUAGES)) by done.
  rewrite (bool_decide_eq_true_2 (1 < count_defaults national)%nat) by done.
  rewrite (bool_decide_eq_true_2 (0 < count_defaults regional)%nat) by done.
  rewrite (bool_decide_eq_true_2 (answer ∈ (list_to_set (map lang national) : gset string)))
    by (by apply elem_of_list_to_set).
  reflexivity.
Qed.

End Fallback.

Lemma fallback_guard_returns_none_witness :
  (run (@get_language_names (Sample.belgium (Sample.always "fr")) tt (KeyId 7)
          Sample.main_street "name")).1 = None.
Proof.
  apply (@fallback_guard_returns_none (Sample.belgium (Sample.always "fr")) tt (KeyId 7)
           Sample.main_street "name" "be" Sample.belgium_cands Sample.belgium_props
           "name" "Main Street");
    try reflexivity; try by_compute.
Defined.

(** C4 as stated fails: with the answer "en", which differs from the
    top-ranked candidate and is well represented, two country-level defaults
    and a regional default, the text is attributed to "en", because no
    country-level polygon declares "en". *)
Lemma fallback_guard_needs_country_language :
  let W := Sample.belgium (Sample.always "en") in
  let answer := @disambiguate_language W "Main Street"
                  (map (fun l => (lang l, is_default l)) Sample.belgium_cands) in
  @locate W tt Sample.main_street = Some ("be", Sample.belgium_cands, Sample.belgium_props)
  /\ (@collect_alternates W "name" Sample.main_street).1 = []
  /\ answer <> @AMBIGUOUS_LANGUAGE W /\ answer <> @UNKNOWN_LANGUAGE W
  /\ answer <> first_lang Sample.belgium_cands
  /\ answer ∈ @WELL_REPRESENTED_LANGUAGES W
  /\ (1 < country_defaults (summarize_props Sample.belgium_props))%nat
  /\ (0 < regional_defaults (summarize_props Sample.belgium_props))%nat
  /\ (run (@get_language_names W tt (KeyId 7) Sample.main_street "name")).1
     = Some ("be", {["en" := ["Main Street"]]}).
Proof.
  repeat split; try by_compute; vm_compute; lia.
Qed.

Section Skips.
Context `{Collaborators}.

Implicit Types (value : tagdict) (cands : list CandidateLanguage)
  (language_props : list AdminLanguageProps).

Lemma language_names_none (language_rtree : rtree) (key : osm_key) value (prefix : string) :
  (run (get_language_names language_rtree key value prefix)).1 = None ->
  language_names language_rtree key value prefix = None.
Proof. unfold language_names. by intros ->. Qed.

Lemma limited_rows_none (language_rtree : rtree) (key : osm_key) value :
  language_names language_rtree key
    (strip_keys value (NAME_KEYS ++ COUNTRY_KEYS ++ POSTAL_KEYS ++ OSM_IGNORE_KEYS)%list)
    "addr:street" = None ->
  limited_rows language_rtree key value = [].
Proof.
  intros Hnone. unfold limited_rows.
  destruct (_ ≫= _); [|reflexivity].
  destruct (strip_keys _ _); [reflexivity|]. by rewrite Hnone.
Qed.

(** C3, as amended. When the disambiguation of a bare tag (no alternate on
    the element, several candidate languages) answers ambiguous, or unknown
    while the candidates do not have exactly one default language, the
    function returns None for the whole element and the ways, venues,
    address-streets and limited builders write no row for it, the limited
    builder too. The tagged formatted-address builder is outside this: it
    does not test the answer of the disambiguation. *)
Theorem unresolved_bare_tag_skips_element (language_rtree : rtree) (key : osm_key) value
    (prefix country : string) cands language_props (k v : string) :
  locate language_rtree value = Some (country, cands, language_props) ->
  (collect_alternates prefix value).1 = [] ->
  (k, v) ∈ value ->
  PyStr.startswith k (prefix +:+ ":") = false ->
  is_bare prefix k = true ->
  length cands <> 1%nat ->
  let answer := disambiguate_language v (map (fun l => (lang l, is_default l)) cands) in
  let defaults : gset string :=
    list_to_set (map lang (filter (fun l => is_default l = true) cands)) in
  answer = AMBIGUOUS_LANGUAGE \/ (answer = UNKNOWN_LANGUAGE /\ size defaults <> 1%nat) ->
  (run (get_language_names language_rtree key value prefix)).1 = None
  /\ (prefix = "name" ->
      ways_element_rows language_rtree key value = []
      /\ venue_element_rows language_rtree key value = [])
  /\ (prefix = "addr:street" ->
      address_element_rows language_rtree key value = []
      /\ forall element_tags,
           strip_keys element_tags
             (NAME_KEYS ++ COUNTRY_KEYS ++ POSTAL_KEYS ++ OSM_IGNORE_KEYS)%list = value ->
           limited_rows language_rtree key element_tags = []).
Proof.
  intros Hloc Hnone Hkv Hpre Hbare Hlen answer defaults Hans.
  assert (Hret : (run (get_language_names language_rtree key value prefix)).1 = None).
  { apply (get_language_names_abort _ _ _ _ country cands language_props (k, v)); [done..|].
    intros st log. rewrite attribute_tag_fallback by done.
    destruct (attribution_context_of_fields prefix value cands language_props)
      as (_ & _ & -> & _).
    fold answer defaults.
    destruct Hans as [Hamb|[Hunk Hdef]].
    - by rewrite (bool_decide_eq_true_2 _ Hamb).
    - case_bool_decide; [done|].
      rewrite (bool_decide_eq_false_2 (size defaults = 1%nat)) by done.
      rewrite andb_false_r.
      rewrite (bool_decide_eq_false_2 (answer ≠ UNKNOWN_LANGUAGE)) by (intros Hn; by apply Hn).
      done. }
  pose proof (language_names_none _ _ _ _ Hret) as Hskip.
  split; [exact Hret|]. split; intros ->.
  - unfold ways_element_rows, venue_element_rows. by rewrite Hskip.
  - split; [unfold address_element_rows; by rewrite Hskip|].
    intros element_tags <-. by apply limited_rows_none.
Qed.

End Skips.

Lemma unresolved_bare_tag_skips_element_witness :
  let W := Sample.belgium (Sample.always "xxx") in
  (run (@get_language_names W tt (KeyId 7) Sample.main_street "name")).1 = None
  /\ @ways_element_rows W tt (KeyId 7) Sample.main_street = []
  /\ @venue_element_rows W tt (KeyId 7) Sample.main_street = [].
Proof.
  destruct (@unresolved_bare_tag_skips_element (Sample.belgium (Sample.always "xxx")) tt
              (KeyId 7) Sample.main_street "name" "be" Sample.belgium_cands
              Sample.belgium_props "name" "Main Street") as (Hret & Hname & _);
    [first [reflexivity | by_compute] ..|].
  split; [exact Hret|]. by apply Hname.
Defined.

(** C3 as stated fails on the tagged formatted-address builder: the answer of
    the disambiguation on the street is ambiguous, and the builder writes the
    row, with that answer as its language. *)
Lemma tagged_builder_writes_ambiguous_row :
  let W := Sample.belgium (Sample.always "xxx") in
  @disambiguate_language W "Rue X"
    (map (fun l => (lang l, is_default l)) Sample.belgium_cands) = @AMBIGUOUS_LANGUAGE W
  /\ @address_format_row W tt true Sample.rue_x_address
     = Some ["xxx"; "be"; "50.85 | 4.35 | Rue X"]
  /\ @build_address_format_training_data W tt
       [ {| elem_tag := "node"; elem_id := 7; elem_attrib := [("lat", "50.85"); ("lon", "4.35")];
            elem_tags := [("addr:street", "Rue X")] |} ] true
     = [["xxx"; "be"; "50.85 | 4.35 | Rue X"]].
Proof. repeat split; vm_compute; reflexivity. Qed.

(** ** Alternates and their shared texts *)

Lemma fold_left_filter {A B : Type} (f : B -> A -> B) (P : A -> Prop)
    `{!forall x, Decision (P x)} (l : list A) :
  (forall x b, x ∈ l -> ~ P x -> f b x = b) ->
  forall b, fold_left f l b = fold_left f (filter P l) b.
Proof.
  induction l as [|x l IH]; intros Hskip b; [reflexivity|].
  rewrite filter_cons. simpl. destruct (decide (P x)) as [HP|HP]; simpl.
  - apply IH. intros ? ? ? ?. apply Hskip; [by right|done].
  - rewrite Hskip; [|left|done]. apply IH. intros ? ? ? ?. apply Hskip; [by right|done].
Qed.

Lemma dd_get_append (d : gmap string (list string)) (k x k' : string) :
  dd_get (dd_append d k x) k' =
    if decide (k = k') then (dd_get d k ++ [x])%list else dd_get d k'.
Proof.
  unfold dd_get, dd_append. destruct (decide (k = k')) as [<-|Hne].
  - by rewrite lookup_insert_eq.
  - by rewrite lookup_insert_ne.
Qed.

Lemma dom_dd_append (d : gmap string (list string)) (k x : string) :
  dom (dd_append d k x) = {[k]} ∪ dom d.
Proof. unfold dd_append. apply dom_insert_L. Qed.

Lemma ambiguous_of_spec (eq : gmap string (list string)) (v : string) :
  v ∈ ambiguous_of eq <-> (1 < length (dd_get eq v))%nat.
Proof.
  unfold ambiguous_of, dd_get. rewrite elem_of_dom. split.
  - intros [l Hl]. apply map_lookup_filter_Some in Hl as [-> Hlen]. done.
  - intros Hlen. destruct (eq !! v) as [l|] eqn:Hv; simpl in Hlen; [|lia].
    exists l. apply map_lookup_filter_Some. done.
Qed.

Section Alternates.
Context `{Collaborators}.

Implicit Types (value : tagdict) (cands : list CandidateLanguage)
  (language_props : list AdminLanguageProps).

Lemma is_alternate_startswith (prefix k : string) :
  is_alternate prefix k = true -> PyStr.startswith k (prefix +:+ ":") = true.
Proof. unfold is_alternate. by intros [? _]%andb_true_iff. Qed.

Lemma is_alternate_known (prefix k : string) :
  is_alternate prefix k = true ->
  PyStr.split_first "_" (PyStr.split_last ":" k) ∈ languages.
Proof.
  unfold is_alternate. intros [_ Hk]%andb_true_iff.
  by apply bool_decide_eq_true_1 in Hk.
Qed.

(** [alternate_langs] and [equivalent_alternatives] in closed form: the
    alternates in tag order, and for each text the suffixes of the alternates
    that carry it, in tag order. *)
Lemma collect_alternates_spec (prefix : string) value :
  (collect_alternates prefix value).1 =
    map (fun kv => (PyStr.split_last ":" kv.1, kv.2))
        (filter (fun kv => is_alternate prefix kv.1 = true) value)
  /\ forall v,
       dd_get (collect_alternates prefix value).2 v =
         map (fun kv => PyStr.split_last ":" kv.1)
             (filter (fun kv => is_alternate prefix kv.1 = true /\ kv.2 = v) value).
Proof.
  unfold collect_alternates.
  set (f := fun '(alternate_langs, equivalent_alternatives) '(k, v) => _).
  assert (Hgen : forall l alts eq,
    (fold_left f l (alts, eq)).1 =
      (alts ++ map (fun kv => (PyStr.split_last ":" kv.1, kv.2))
                   (filter (fun kv => is_alternate prefix kv.1 = true) l))%list
    /\ forall v,
         dd_get (fold_left f l (alts, eq)).2 v =
           (dd_get eq v ++ map (fun kv => PyStr.split_last ":" kv.1)
              (filter (fun kv => is_alternate prefix kv.1 = true /\ kv.2 = v) l))%list).
  { induction l as [|[k w] l IH]; intros alts eq.
    - simpl. split; [|intros v]; by rewrite app_nil_r.
    - simpl fold_left. rewrite !filter_cons. simpl.
      destruct (is_alternate prefix k) eqn:Halt.
      + destruct (IH (alts ++ [(PyStr.split_last ":" k, w)])%list
                     (dd_append eq w (PyStr.split_last ":" k))) as [IH1 IH2].
        rewrite decide_True by done. split.
        * rewrite IH1. simpl. by rewrite <- app_assoc.
        * intros v. rewrite IH2, dd_get_append, filter_cons. simpl.
          destruct (decide (w = v)) as [->|Hne].
          -- rewrite decide_True by done. simpl. by rewrite <- app_assoc.
          -- rewrite decide_False by (intros [_ ?]; done). done.
      + destruct (IH alts eq) as [IH1 IH2].
        rewrite decide_False by (simpl; congruence). split; [done|].
        intros v. rewrite filter_cons. simpl.
        rewrite decide_False by (simpl; intros [? _]; congruence). apply IH2. }
  destruct (Hgen value [] ∅) as [H1 H2]. split; [exact H1|].
  intros v. rewrite H2. unfold dd_get. by rewrite lookup_empty.
Qed.

(** Only the tags [prefix:...] count as alternates. *)
Lemma collect_alternates_prefixed (prefix : string) value :
  collect_alternates prefix value =
    collect_alternates prefix
      (filter (fun kv => PyStr.startswith kv.1 (prefix +:+ ":") = true) value).
Proof.
  unfold collect_alternates. apply fold_left_filter.
  intros [k v] [alts eq] _ Hpre.
  destruct (is_alternate prefix k) eqn:Halt; [|done].
  by apply is_alternate_startswith in Halt.
Qed.

(** Without alternates there is no text shared by alternates. *)
Lemma collect_alternates_none (prefix : string) value :
  (collect_alternates prefix value).1 = [] ->
  collect_alternates prefix value = ([], ∅).
Proof.
  intros Hnone. destruct (collect_alternates_spec prefix value) as [H1 _].
  rewrite Hnone in H1. symmetry in H1. apply map_eq_nil in H1.
  unfold collect_alternates.
  rewrite (fold_left_filter _ (fun kv => is_alternate prefix kv.1 = true)).
  - by rewrite H1.
  - intros [k v] [alts eq] _ Halt. simpl in Halt.
    by destruct (is_alternate prefix k).
Qed.

End Alternates.

Section BareTag.
Context `{Collaborators}.

Implicit Types (value : tagdict) (cands : list CandidateLanguage)
  (language_props : list AdminLanguageProps).

Lemma dd_get_append_mono (d : gmap string (list string)) (k x k' y : string) :
  y ∈ dd_get d k' -> y ∈ dd_get (dd_append d k x) k'.
Proof.
  intros Hy. rewrite dd_get_append. destruct (decide (k = k')) as [->|]; [|done].
  apply elem_of_app. by left.
Qed.

(** With alternates on the element, a turn on a tag that is no [prefix:...]
    changes nothing. *)
Lemma attribute_tag_not_prefixed (prefix : string) value cands language_props
    (k v : string) st (log : list call) :
  (collect_alternates prefix value).1 <> [] ->
  PyStr.startswith k (prefix +:+ ":") = false ->
  attribute_tag (attribution_context_of prefix value cands language_props) st (k, v) log
  = (Some st, log).
Proof.
  intros Hsome Hpre.
  destruct (attribution_context_of_fields prefix value cands language_props)
    as (Hp & _ & _ & Hh & _).
  destruct st as [name_language seen]. unfold attribute_tag.
  rewrite Hp, Hh, Hpre.
  rewrite bool_decide_eq_false_2; [done|].
  by destruct (collect_alternates prefix value).1.
Qed.

(** Without alternates and with one candidate language, a turn makes no call
    and never returns early; on a bare tag it gives the text to the
    candidate. *)
Lemma attribute_tag_single (prefix : string) value (cl : CandidateLanguage) language_props
    (k v : string) st (log : list call) :
  (collect_alternates prefix value).1 = [] ->
  exists st',
    attribute_tag (attribution_context_of prefix value [cl] language_props) st (k, v) log
    = (Some st', log)
    /\ (forall l x, x ∈ dd_get st.1 l -> x ∈ dd_get st'.1 l)
    /\ (PyStr.startswith k (prefix +:+ ":") = false -> is_bare prefix k = true ->
        v ∈ dd_get st'.1 (lang cl)).
Proof.
  intros Hnone.
  destruct (attribution_context_of_fields prefix value [cl] language_props)
    as (Hp & Hc & _ & Hh & _ & Ha & _).
  rewrite (collect_alternates_none _ _ Hnone) in Hh, Ha. simpl in Hh, Ha.
  destruct st as [name_language seen]. unfold attribute_tag.
  rewrite Hp, Hc, Hh, Ha.
  destruct (PyStr.startswith k (prefix +:+ ":")) eqn:Hpre.
  - rewrite (bool_decide_eq_false_2 (v ∈ ambiguous_of ∅)).
    2:{ rewrite ambiguous_of_spec. unfold dd_get. rewrite lookup_empty. simpl. lia. }
    simpl negb. cbv iota.
    destruct (_ || _); eexists; (split; [reflexivity|]); split; try done.
    intros l x. apply dd_get_append_mono.
  - rewrite (bool_decide_eq_true_2 (0%nat = 0%nat)) by done.
    destruct (is_bare prefix k) eqn:Hbare; simpl.
    + eexists. split; [reflexivity|]. split.
      * intros l x. apply dd_get_append_mono.
      * intros _ _. simpl. rewrite dd_get_append, decide_True by done.
        apply elem_of_app. right. by apply list_elem_of_singleton.
    + eexists. split; [reflexivity|]. split; done.
Qed.

(** C2. When the element has alternates, the result and the calls are those
    of its tags [prefix:...] alone: no bare tag is consulted. When it has
    none and the point has exactly one candidate language, the function
    returns a map in which the text of every bare tag stands under that
    candidate, and the disambiguation function is not called. *)
Theorem bare_tag_fallback (language_rtree : rtree) (key : osm_key) value
    (prefix country : string) cands language_props :
  locate language_rtree value = Some (country, cands, language_props) ->
  ((collect_alternates prefix value).1 <> [] ->
     run (get_language_names language_rtree key value prefix) =
     run (name_language ←
            attribute prefix
              (filter (fun kv => PyStr.startswith kv.1 (prefix +:+ ":") = true) value)
              cands language_props;
          mret (country, name_language)))
  /\ ((collect_alternates prefix value).1 = [] ->
      forall cl, cands = [cl] ->
      exists name_language,
        run (get_language_names language_rtree key value prefix)
        = (Some (country, name_language), [])
        /\ forall k v,
             (k, v) ∈ value ->
             PyStr.startswith k (prefix +:+ ":") = false ->
             is_bare prefix k = true ->
             v ∈ dd_get name_language (lang cl)).
Proof.
  intros Hloc. split.
  - intros Hsome. unfold run.
    rewrite (get_language_names_located _ _ _ _ _ _ _ _ Hloc).
    rewrite eff_bind_eq. unfold attribute. rewrite eff_bind_eq.
    assert (Hctx : attribution_context_of prefix
                     (filter (fun kv => PyStr.startswith kv.1 (prefix +:+ ":") = true) value)
                     cands language_props
                   = attribution_context_of prefix value cands language_props).
    { unfold attribution_context_of. by rewrite <- collect_alternates_prefixed. }
    rewrite Hctx.
    rewrite (for_each_filter _ (fun kv => PyStr.startswith kv.1 (prefix +:+ ":") = true)).
    + destruct (for_each _ _ _ _) as [[st|] log']; reflexivity.
    + intros [k v] st log _ Hpre. apply attribute_tag_not_prefixed; [done|].
      simpl in Hpre. by destruct (PyStr.startswith k (prefix +:+ ":")).
  - intros Hnone cl ->. unfold run.
    rewrite (get_language_names_located _ _ _ _ _ _ _ _ Hloc).
    set (body := attribute_tag (attribution_context_of prefix value [cl] language_props)).
    destruct (for_each_inv body (fun _ log => log = []) value) with (st := (∅, ∅) : gmap string (list string) * gset string) (log := @nil call)
      as (st & log & Hrun & ->); [|done|].
    { intros st [k v] log _ ->.
      destruct (attribute_tag_single prefix value cl language_props k v st [] Hnone)
        as (st' & Hst' & _). eauto. }
    rewrite Hrun. exists st.1. split; [done|].
    intros k v Hkv Hpre Hbare.
    apply list_elem_of_split in Hkv as (l1 & l2 & Hvalue).
    rewrite Hvalue, for_each_app in Hrun.
    destruct (for_each_inv body (fun _ log => log = []) l1) with (st := (∅, ∅) : gmap string (list string) * gset string) (log := @nil call)
      as (st1 & log1 & Hrun1 & ->); [|done|].
    { intros st0 [k0 v0] log _ ->.
      destruct (attribute_tag_single prefix value cl language_props k0 v0 st0 [] Hnone)
        as (st' & Hst' & _). eauto. }
    rewrite Hrun1, for_each_cons in Hrun.
    destruct (attribute_tag_single prefix value cl language_props k v st1 [] Hnone)
      as (st2 & Hst2 & _ & Hin).
    fold body in Hst2. rewrite Hst2 in Hrun.
    destruct (for_each_inv body
                (fun st log => log = [] /\ v ∈ dd_get st.1 (lang cl)) l2 )
      with (st := st2) (log := @nil call) as (st3 & log3 & Hrun3 & _ & Hv).
    { intros st0 [k0 v0] log _ [-> Hv0].
      destruct (attribute_tag_single prefix value cl language_props k0 v0 st0 [] Hnone)
        as (st' & Hst' & Hmono & _). exists st', []. split; [done|]. split; [done|].
      by apply Hmono. }
    { split; [done|]. by apply Hin. }
    rewrite Hrun3 in Hrun. by injection Hrun as <-.
Qed.

End BareTag.

Section Keys.
Context `{Collaborators}.

Implicit Types (value : tagdict) (cands : list CandidateLanguage)
  (language_props : list AdminLanguageProps).

(** What [locate] returns comes from the geo index, and the candidate
    languages are not empty. *)
Lemma locate_inv (language_rtree : rtree) value (country : string) cands language_props :
  locate language_rtree value = Some (country, cands, language_props) ->
  cands <> []
  /\ exists latitude longitude,
       country_and_languages language_rtree latitude longitude
       = (Some country, cands, language_props).
Proof.
  unfold locate. destruct (negb _); [discriminate|].
  destruct (OD.get "lat" value) as [lat|]; [|discriminate].
  destruct (OD.get "lon" value) as [lon|]; [|discriminate]. simpl.
  destruct (Coord.latlon_to_floats lat lon) as [[latitude longitude]|]; [|discriminate].
  simpl.
  destruct (country_and_languages language_rtree latitude longitude)
    as [[c cs] ps] eqn:Hgeo.
  destruct c as [[|a c]|]; try discriminate; destruct cs as [|cl cs]; try discriminate.
  intros [= <- <- <-]. split; [done|]. eauto.
Qed.

Lemma first_lang_elem cands : cands <> [] -> first_lang cands ∈ map lang cands.
Proof. destruct cands as [|cl cands]; [done|]. intros _. simpl. left. Qed.

(** The keys a turn of the main loop may add. *)
Lemma attribute_tag_keys (prefix : string) value cands language_props
    (k v : string) st st' (log log' : list call) :
  (forall text langs,
     disambiguate_language text langs = AMBIGUOUS_LANGUAGE
     \/ disambiguate_language text langs = UNKNOWN_LANGUAGE
     \/ disambiguate_language text langs ∈ map fst langs) ->
  cands <> [] ->
  (forall l, l ∈ map lang cands -> l ∈ languages) ->
  attribute_tag (attribution_context_of prefix value cands language_props) st (k, v) log
  = (Some st', log') ->
  forall key, key ∈ dom st'.1 ->
    key ∈ dom st.1 \/ key ∈ languages \/ PyStr.split_first "_" key ∈ languages.
Proof.
  intros Hdis Hne Hknown.
  destruct (attribution_context_of_fields prefix value cands language_props)
    as (Hp & Hc & _ & _ & He & _).
  destruct st as [name_language seen]. unfold attribute_tag. rewrite Hp, Hc, He.
  assert (Hnew : forall (x : string) (seen' : gset string),
    x ∈ languages \/ PyStr.split_first "_" x ∈ languages ->
    forall key, key ∈ dom (dd_append name_language x v, seen').1 ->
      key ∈ dom (name_language, seen).1 \/ key ∈ languages
      \/ PyStr.split_first "_" key ∈ languages).
  { intros x seen' Hx key. simpl. rewrite dom_dd_append.
    intros [->%elem_of_singleton|Hkey]%elem_of_union; [by right|by left]. }
  assert (Hold : forall (seen' : gset string) key,
    key ∈ dom (name_language, seen').1 ->
    key ∈ dom (name_language, seen).1 \/ key ∈ languages
    \/ PyStr.split_first "_" key ∈ languages).
  { intros seen' key Hkey. by left. }
  destruct (PyStr.startswith k (prefix +:+ ":")) eqn:Hpre.
  - destruct (negb (bool_decide (v ∈ _))) eqn:Hamb.
    + destruct (_ || _) eqn:Hor; intros [= <- _]; [|by apply Hold].
      apply Hnew. apply orb_true_iff in Hor as [Hn|Hn]; apply bool_decide_eq_true_1 in Hn.
      * by left.
      * right. exact Hn.
    + destruct (negb (bool_decide (v ∈ seen))); [|intros [= <- _]; by apply Hold].
      rewrite eff_bind_eq. unfold call_disambiguate_language.
      set (langs := map _ (dd_get _ v)).
      pose proof (Hdis v langs) as Hanswer.
      set (answer := disambiguate_language v langs) in *. simpl.
      destruct (_ && _) eqn:Hconcrete; intros [= <- _]; [|by apply Hold].
      apply Hnew. right.
      apply andb_true_iff in Hconcrete as [Ha Hu].
      apply bool_decide_eq_true_1 in Ha. apply bool_decide_eq_true_1 in Hu.
      destruct Hanswer as [?|[?|Hin]]; [done..|].
      clearbody answer. subst langs. rewrite map_map in Hin. simpl in Hin. rewrite map_id in Hin.
      destruct (collect_alternates_spec prefix value) as [_ Hshared].
      rewrite Hshared in Hin.
      apply list_elem_of_In, in_map_iff in Hin as ([k0 v0] & <- & Hin).
      apply list_elem_of_In, list_elem_of_filter in Hin as [[Halt _] _].
      by apply is_alternate_known in Halt.
  - destruct (_ && is_bare prefix k); [|intros [= <- _]; by apply Hold].
    pose proof (Hknown _ (first_lang_elem _ Hne)) as Hfirst.
    case_bool_decide.
    + intros [= <- _]. apply Hnew. by left.
    + rewrite eff_bind_eq. unfold call_disambiguate_language.
      set (langs := map _ cands).
      pose proof (Hdis v langs) as Hanswer.
      set (answer := disambiguate_language v langs) in *. simpl.
      case_bool_decide as Ha; [discriminate|].
      destruct (_ && _); [intros [= <- _]; apply Hnew; by left|].
      case_bool_decide as Hu; [|discriminate].
      destruct (_ && _); [discriminate|].
      intros [= <- _]. apply Hnew. left. apply Hknown.
      destruct Hanswer as [?|[?|Hin]]; [done..|].
      subst langs. rewrite map_map in Hin. exact Hin.
Qed.

(** C5, as amended. When the disambiguation function answers with one of the
    languages it is given (or ambiguous, or unknown) and the geo index gives
    known languages as candidates, every key of the returned map is a known
    language code, or becomes one once its [_script] part is stripped: the
    suffix of a tag is stored as it is written. *)
Theorem name_language_keys_known_up_to_script (language_rtree : rtree) (key : osm_key)
    value (prefix country : string) (name_language : gmap string (list string))
    (log : list call) :
  (forall text langs,
     disambiguate_language text langs = AMBIGUOUS_LANGUAGE
     \/ disambiguate_language text langs = UNKNOWN_LANGUAGE
     \/ disambiguate_language text langs ∈ map fst langs) ->
  (forall latitude longitude cl,
     cl ∈ (country_and_languages language_rtree latitude longitude).1.2 ->
     lang cl ∈ languages) ->
  run (get_language_names language_rtree key value prefix)
  = (Some (country, name_language), log) ->
  forall k, k ∈ dom name_language ->
    k ∈ languages \/ PyStr.split_first "_" k ∈ languages.
Proof.
  intros Hdis Hgeo. unfold run.
  destruct (locate language_rtree value) as [[[country' cands] language_props]|] eqn:Hloc.
  2:{ unfold get_language_names. rewrite Hloc. discriminate. }
  rewrite (get_language_names_located _ _ _ _ _ _ _ _ Hloc).
  destruct (for_each _ _ _ _) as [[st|] log'] eqn:Hrun; [|discriminate].
  intros [= <- <- <-].
  apply locate_inv in Hloc as (Hne & latitude & longitude & Hlookup).
  assert (Hknown : forall l, l ∈ map lang cands -> l ∈ languages).
  { intros l Hl. apply list_elem_of_In, in_map_iff in Hl as (cl & <- & Hcl).
    apply (Hgeo latitude longitude). rewrite Hlookup. simpl. by apply list_elem_of_In. }
  refine (for_each_inv_result
            (attribute_tag (attribution_context_of prefix value cands language_props))
            (fun st => forall k, k ∈ dom st.1 ->
                         k ∈ languages \/ PyStr.split_first "_" k ∈ languages)
            value _ (∅, ∅) [] st log' _ Hrun).
  - intros st0 [k0 v0] log0 st1 log1 _ Hinv Hbody k1 Hk1.
    destruct (attribute_tag_keys _ _ _ _ _ _ _ _ _ _ Hdis Hne Hknown Hbody k1 Hk1)
      as [Hold|Hgood]; [by apply Hinv|exact Hgood].
  - intros k0. simpl. rewrite dom_empty_L. intros Hk0. by apply not_elem_of_empty in Hk0.
Qed.

End Keys.

(** ** A text shared by several alternates *)

Lemma occurrences_snoc (v w : string) (l : list string) :
  length (filter (fun x => x = v) (l ++ [w])%list) =
    (length (filter (fun x => x = v) l) + (if decide (w = v) then 1 else 0))%nat.
Proof.
  rewrite filter_app, length_app, filter_cons, filter_nil.
  by destruct (decide (w = v)).
Qed.

Lemma occurrences_dd_append_ne (d : gmap string (list string)) (k w v l : string) :
  w <> v ->
  length (filter (fun x => x = v) (dd_get (dd_append d k w) l)) =
    length (filter (fun x => x = v) (dd_get d l)).
Proof.
  intros Hne. rewrite dd_get_append. destruct (decide (k = l)) as [<-|]; [|done].
  rewrite occurrences_snoc, decide_False by done. lia.
Qed.

Section SharedText.
Context `{Collaborators}.
Variables (prefix : string) (value : tagdict) (cands : list CandidateLanguage)
  (language_props : list AdminLanguageProps) (v : string).

Local Abbreviation ctx := (attribution_context_of prefix value cands language_props).
Local Abbreviation shared :=
  (map (fun kv : string * string => PyStr.split_last ":" kv.1)
       (filter (fun kv : string * string => is_alternate prefix kv.1 = true /\ kv.2 = v)
               value)).
Local Abbreviation langs :=
  (map (fun l : string =>
          (l, bool_decide
                (l ∈ (list_to_set (map lang (filter (fun l => is_default l = true) cands))
                       : gset string))))
       shared).
Local Abbreviation answer := (disambiguate_language v langs).
Local Abbreviation expected l :=
  (if bool_decide (answer <> AMBIGUOUS_LANGUAGE /\ answer <> UNKNOWN_LANGUAGE /\ l = answer)
   then 1%nat else 0%nat).
Local Abbreviation occurrences l := (length (filter (fun x : string => x = v) l)).

Hypothesis Hshared : (1 < length shared)%nat.

(** The state of the loop as far as the text [v] goes: before its first
    occurrence it was neither disambiguated nor attributed; after it, it was
    disambiguated once, against the languages that share it, and attributed
    to the answer alone, if the answer is a language. *)
Local Abbreviation inv st log :=
  ((v ∉ st.2 ->
      filter (fun c : call => c.1 = v) log = []
      /\ forall l, occurrences (dd_get st.1 l) = 0%nat)
   /\ (v ∈ st.2 ->
       filter (fun c : call => c.1 = v) log = [(v, langs)]
       /\ forall l, occurrences (dd_get st.1 l) = expected l)).

Lemma shared_text_ambiguous : v ∈ ambiguous_alternatives ctx.
Proof.
  destruct (attribution_context_of_fields prefix value cands language_props)
    as (_ & _ & _ & _ & _ & -> & _).
  apply ambiguous_of_spec.
  destruct (collect_alternates_spec prefix value) as [_ ->]. exact Hshared.
Qed.

Lemma shared_text_alternates : has_alternate_names ctx <> 0%nat.
Proof.
  destruct (attribution_context_of_fields prefix value cands language_props)
    as (_ & _ & _ & -> & _).
  destruct (collect_alternates_spec prefix value) as [-> _].
  rewrite length_map. intros Hzero. apply length_zero_iff_nil in Hzero.
  destruct (filter (fun kv : string * string => is_alternate prefix kv.1 = true /\ kv.2 = v)
              value) as [|[k0 v0] rest] eqn:Hf; [simpl in Hshared; lia|].
  assert (Hin : (k0, v0) ∈ filter (fun kv : string * string =>
                                    is_alternate prefix kv.1 = true /\ kv.2 = v) value).
  { rewrite Hf. left. }
  apply list_elem_of_filter in Hin as [[Halt _] Hin].
  assert (Hin' : (k0, v0) ∈ filter (fun kv : string * string =>
                                     is_alternate prefix kv.1 = true) value).
  { by apply list_elem_of_filter. }
  rewrite Hzero in Hin'. inversion Hin'.
Qed.

Lemma shared_text_tag : exists k l1 l2,
  value = (l1 ++ (k, v) :: l2)%list /\ PyStr.startswith k (prefix +:+ ":") = true.
Proof.
  destruct (filter (fun kv : string * string => is_alternate prefix kv.1 = true /\ kv.2 = v)
              value) as [|[k0 v0] rest] eqn:Hf; [simpl in Hshared; lia|].
  assert (Hin : (k0, v0) ∈ filter (fun kv : string * string =>
                                    is_alternate prefix kv.1 = true /\ kv.2 = v) value).
  { rewrite Hf. left. }
  apply list_elem_of_filter in Hin as [[Halt Hv] Hin]. simpl in Halt, Hv. subst v0.
  apply list_elem_of_split in Hin as (l1 & l2 & ->).
  exists k0, l1, l2. split; [done|]. by apply is_alternate_startswith.
Qed.

(** One turn of the main loop keeps the invariant, never returns early, never
    forgets a text it has seen, and marks the text of a tag [prefix:...] as
    seen when it is shared. *)
Lemma attribute_tag_shared_text (k w : string) st (log : list call) :
  inv st log ->
  exists st' log',
    attribute_tag ctx st (k, w) log = (Some st', log')
    /\ inv st' log'
    /\ (v ∈ st.2 -> v ∈ st'.2)
    /\ (PyStr.startswith k (prefix +:+ ":") = true -> w = v -> v ∈ st'.2).
Proof.
  intros [Hunseen Hseen].
  pose proof shared_text_ambiguous as Hamb.
  pose proof shared_text_alternates as Halt.
  destruct (attribution_context_of_fields prefix value cands language_props)
    as (Hp & _ & Hd & _ & He & _).
  destruct st as [name_language seen]. unfold attribute_tag. simpl in Hunseen, Hseen.
  rewrite Hp.
  destruct (PyStr.startswith k (prefix +:+ ":")) eqn:Hpre.
  - destruct (decide (w ∈ ambiguous_alternatives ctx)) as [Hw|Hw].
    + (* [w] is shared by alternates *)
      rewrite (bool_decide_eq_true_2 _ Hw). cbn [negb].
      destruct (decide (w ∈ seen)) as [Hwseen|Hwseen].
      * rewrite (bool_decide_eq_true_2 _ Hwseen). cbn [negb].
        eexists _, _. split; [reflexivity|]. split; [done|]. split; [done|].
        intros _ <-. done.
      * rewrite (bool_decide_eq_false_2 _ Hwseen). cbn [negb].
        rewrite eff_bind_eq. unfold call_disambiguate_language. rewrite Hd, He.
        destruct (collect_alternates_spec prefix value) as [_ Hspec].
        eexists _, _. split; [reflexivity|]. simpl.
        destruct (decide (w = v)) as [->|Hne].
        -- rewrite Hspec. destruct (Hunseen Hwseen) as [Hlog Hocc].
           split; [split|split]; [set_solver| |set_solver|set_solver].
           intros _. split.
           ++ rewrite filter_app, Hlog, filter_cons, filter_nil. simpl.
              by rewrite decide_True.
           ++ intros l.
              destruct (bool_decide (answer ≠ AMBIGUOUS_LANGUAGE)
                        && bool_decide (answer ≠ UNKNOWN_LANGUAGE)) eqn:Hconcrete.
              ** apply andb_true_iff in Hconcrete as [Ha Hu].
                 apply bool_decide_eq_true_1 in Ha. apply bool_decide_eq_true_1 in Hu.
                 rewrite dd_get_append. destruct (decide (answer = l)) as [<-|Hl].
                 --- rewrite occurrences_snoc, Hocc, decide_True by done.
                     by rewrite bool_decide_eq_true_2.
                 --- rewrite Hocc. rewrite bool_decide_eq_false_2; [done|].
                     intros (_ & _ & ->). done.
              ** rewrite Hocc. rewrite bool_decide_eq_false_2; [done|].
                 intros (Ha & Hu & _).
                 apply andb_false_iff in Hconcrete
                   as [Hf|Hf]; apply bool_decide_eq_false_1 in Hf; done.
        -- match goal with
           | |- context [if ?b then dd_append ?d ?a ?x else ?d] =>
               set (nl' := if b then dd_append d a x else d)
           end.
           assert (Hocc : forall l,
             occurrences (dd_get nl' l) = occurrences (dd_get name_language l)).
           { intros l. subst nl'. destruct (_ && _); [|done].
             by apply occurrences_dd_append_ne. }
           split; [split|split]; [| |set_solver|intros _ ?; done].
           ++ intros Hv. destruct Hunseen as [Hlog Hold]; [set_solver|].
              split; [|intros l; by rewrite Hocc].
              rewrite filter_app, Hlog, filter_cons, filter_nil. simpl.
              by rewrite decide_False.
           ++ intros Hv. destruct Hseen as [Hlog Hold]; [set_solver|].
              split; [|intros l; by rewrite Hocc].
              rewrite filter_app, Hlog, filter_cons, filter_nil. simpl.
              by rewrite decide_False.
    + (* [w] stands under one alternate at most: it is not [v] *)
      rewrite (bool_decide_eq_false_2 _ Hw). cbn [negb].
      assert (Hne : w <> v) by (intros ->; done).
      destruct (_ || _); eexists _, _; (split; [reflexivity|]); simpl;
        (split; [|split; [done|intros _ ?; done]]); [|done].
      split; intros Hv; [destruct (Hunseen Hv) as [Hlog Hold]
                        |destruct (Hseen Hv) as [Hlog Hold]];
        (split; [done|]); intros l;
        rewrite occurrences_dd_append_ne by done; apply Hold.
  - rewrite (bool_decide_eq_false_2 (has_alternate_names ctx = 0%nat)) by done.
    cbn [andb].
    eexists _, _. split; [reflexivity|]. split; [done|]. split; [done|]. discriminate.
Qed.

End SharedText.

Section SharedTextResult.
Context `{Collaborators}.

(** C1. When a text stands under two or more alternates of an element, the
    function does not return early, the disambiguation function is called
    exactly once with that text, with the languages of the alternates that
    share it, each paired with its default flag, and the text is attributed
    once, to the answer, when the answer is a language, and to no language
    at all when the answer is ambiguous or unknown. *)
Theorem shared_text_disambiguated_once (language_rtree : rtree) (key : osm_key)
    (value : tagdict) (prefix country : string) (cands : list CandidateLanguage)
    (language_props : list AdminLanguageProps) (v : string) :
  locate language_rtree value = Some (country, cands, language_props) ->
  let shared :=
    map (fun kv : string * string => PyStr.split_last ":" kv.1)
        (filter (fun kv : string * string => is_alternate prefix kv.1 = true /\ kv.2 = v)
                value) in
  let langs :=
    map (fun l : string =>
           (l, bool_decide
                 (l ∈ (list_to_set (map lang (filter (fun l => is_default l = true) cands))
                        : gset string))))
        shared in
  let answer := disambiguate_language v langs in
  (1 < length shared)%nat ->
  exists name_language log,
    run (get_language_names language_rtree key value prefix)
    = (Some (country, name_language), log)
    /\ filter (fun c : call => c.1 = v) log = [(v, langs)]
    /\ forall l,
         length (filter (fun x : string => x = v) (dd_get name_language l)) =
           if bool_decide (answer <> AMBIGUOUS_LANGUAGE /\ answer <> UNKNOWN_LANGUAGE
                           /\ l = answer)
           then 1%nat else 0%nat.
Proof.
  intros Hloc shared langs answer Hshared. unfold run.
  rewrite (get_language_names_located _ _ _ _ _ _ _ _ Hloc).
  destruct (shared_text_tag prefix value v Hshared) as (k & l1 & l2 & Hvalue & Hpre).
  set (body := attribute_tag (attribution_context_of prefix value cands language_props)).
  rewrite Hvalue, for_each_app.
  destruct (for_each_inv body
              (fun st log =>
                 (v ∉ st.2 ->
                    filter (fun c : call => c.1 = v) log = []
                    /\ forall l, length (filter (fun x : string => x = v) (dd_get st.1 l)) = 0%nat)
                 /\ (v ∈ st.2 ->
                     filter (fun c : call => c.1 = v) log = [(v, langs)]
                     /\ forall l,
                          length (filter (fun x : string => x = v) (dd_get st.1 l)) =
                            if bool_decide (answer <> AMBIGUOUS_LANGUAGE
                                            /\ answer <> UNKNOWN_LANGUAGE /\ l = answer)
                            then 1%nat else 0%nat))
              l1)
    with (st := (∅, ∅) : gmap string (list string) * gset string) (log := @nil call)
    as (st1 & log1 & -> & Hinv1).
  { intros st [k0 w0] log _ Hinv.
    destruct (attribute_tag_shared_text prefix value cands language_props v Hshared
                k0 w0 st log Hinv) as (st' & log' & Hbody & Hinv' & _).
    eauto. }
  { simpl. split; [|set_solver]. intros _. split; [done|].
    intros l. unfold dd_get. by rewrite lookup_empty. }
  rewrite for_each_cons.
  destruct (attribute_tag_shared_text prefix value cands language_props v Hshared
              k v st1 log1 Hinv1) as (st2 & log2 & Hbody & Hinv2 & _ & Hseen2).
  fold body in Hbody. rewrite Hbody.
  specialize (Hseen2 Hpre eq_refl).
  destruct (for_each_inv body
              (fun st log =>
                 v ∈ st.2
                 /\ (v ∉ st.2 ->
                    filter (fun c : call => c.1 = v) log = []
                    /\ forall l, length (filter (fun x : string => x = v) (dd_get st.1 l)) = 0%nat)
                 /\ (v ∈ st.2 ->
                     filter (fun c : call => c.1 = v) log = [(v, langs)]
                     /\ forall l,
                          length (filter (fun x : string => x = v) (dd_get st.1 l)) =
                            if bool_decide (answer <> AMBIGUOUS_LANGUAGE
                                            /\ answer <> UNKNOWN_LANGUAGE /\ l = answer)
                            then 1%nat else 0%nat))
              l2)
    with (st := st2) (log := log2)
    as (st3 & log3 & -> & Hseen3 & _ & Hinv3).
  { intros st [k0 w0] log _ [Hseen Hinv].
    destruct (attribute_tag_shared_text prefix value cands language_props v Hshared
                k0 w0 st log Hinv) as (st' & log' & Hbody' & Hinv' & Hmono & _).
    exists st', log'. split; [done|]. split; [by apply Hmono|done]. }
  { by split. }
  destruct (Hinv3 Hseen3) as [Hlog Hocc].
  exists st3.1, log3. done.
Qed.

End SharedTextResult.

(** ** Ordered dictionaries *)

Section ODFacts.
Context {V : Type}.
Implicit Types (d : list (string * V)) (k : string) (v : V).

Lemma od_mem_get d k : OD.mem k d = true <-> exists v, OD.get k d = Some v.
Proof.
  unfold OD.mem. destruct (OD.get k d) as [v|].
  - split; [eauto|done].
  - split; [done|]. by intros [v ?].
Qed.

Lemma od_get_none d k : OD.get k d = None <-> OD.mem k d = false.
Proof. unfold OD.mem. by destruct (OD.get k d). Qed.

Lemma od_mem_keys d k : OD.mem k d = true <-> k ∈ OD.keys d.
Proof.
  unfold OD.mem, OD.keys. induction d as [|[k' v'] d IH]; simpl.
  - split; [done|]. intros Hin. inversion Hin.
  - destruct (String.eqb_spec k' k) as [->|Hne].
    + split; [|done]. intros _. left.
    + rewrite IH. split; [by right|].
      intros [?|?]%elem_of_cons; [congruence|done].
Qed.

Lemma od_get_set d k v k' :
  OD.get k' (OD.set k v d) = if decide (k = k') then Some v else OD.get k' d.
Proof.
  induction d as [|[k0 v0] d IH]; simpl.
  - destruct (decide (k = k')) as [->|Hne].
    + by rewrite String.eqb_refl.
    + by apply String.eqb_neq in Hne as ->.
  - destruct (String.eqb_spec k0 k) as [->|Hne0]; simpl.
    + destruct (decide (k = k')) as [->|Hne].
      * by rewrite String.eqb_refl.
      * by apply String.eqb_neq in Hne as ->.
    + destruct (String.eqb_spec k0 k') as [->|Hne1].
      * by rewrite decide_False by congruence.
      * apply IH.
Qed.

Lemma od_keys_set d k v : k ∈ OD.keys d -> OD.keys (OD.set k v d) = OD.keys d.
Proof.
  unfold OD.keys. induction d as [|[k0 v0] d IH]; simpl.
  - intros Hin. inversion Hin.
  - destruct (String.eqb_spec k0 k) as [->|Hne]; simpl; [done|].
    intros [?|Hin]%elem_of_cons; [congruence|]. by rewrite IH.
Qed.

Lemma od_keys_set_new d k v :
  k ∉ OD.keys d -> OD.keys (OD.set k v d) = (OD.keys d ++ [k])%list.
Proof.
  unfold OD.keys. induction d as [|[k0 v0] d IH]; simpl; [done|].
  intros Hnin. destruct (String.eqb_spec k0 k) as [->|Hne]; simpl.
  - exfalso. apply Hnin. left.
  - rewrite IH; [done|]. intros Hin. apply Hnin. by right.
Qed.

Lemma od_nodup_set d k v : NoDup (OD.keys d) -> NoDup (OD.keys (OD.set k v d)).
Proof.
  intros Hnd. destruct (decide (k ∈ OD.keys d)) as [Hin|Hnin].
  - by rewrite od_keys_set.
  - rewrite od_keys_set_new by done. apply NoDup_app. split; [done|].
    split; [|apply NoDup_singleton].
    intros x Hx ->%list_elem_of_singleton. done.
Qed.

Lemma od_get_pop_ne d k k' : k <> k' -> OD.get k' (OD.pop k d) = OD.get k' d.
Proof.
  intros Hne. induction d as [|[k0 v0] d IH]; simpl; [done|].
  destruct (String.eqb_spec k0 k) as [->|Hne0]; simpl.
  - by apply String.eqb_neq in Hne as ->.
  - by rewrite IH.
Qed.

Lemma od_keys_pop_sub d k x : x ∈ OD.keys (OD.pop k d) -> x ∈ OD.keys d.
Proof.
  unfold OD.keys. induction d as [|[k0 v0] d IH]; simpl; [done|].
  destruct (String.eqb_spec k0 k) as [->|Hne]; simpl.
  - intros Hx. by right.
  - intros [->|Hx]%elem_of_cons; [left|right; by apply IH].
Qed.

Lemma od_nodup_pop d k : NoDup (OD.keys d) -> NoDup (OD.keys (OD.pop k d)).
Proof.
  unfold OD.keys. induction d as [|[k0 v0] d IH]; simpl; [done|].
  intros [Hnin Hnd]%NoDup_cons. destruct (String.eqb_spec k0 k) as [->|Hne]; simpl; [done|].
  apply NoDup_cons. split; [|by apply IH].
  intros Hin. apply Hnin. by apply (od_keys_pop_sub d k).
Qed.

Lemma od_get_pop_eq d k : NoDup (OD.keys d) -> OD.get k (OD.pop k d) = None.
Proof.
  unfold OD.keys. induction d as [|[k0 v0] d IH]; simpl; [done|].
  intros [Hnin Hnd]%NoDup_cons. destruct (String.eqb_spec k0 k) as [->|Hne]; simpl.
  - apply od_get_none. destruct (OD.mem k d) eqn:Hm; [|done].
    apply od_mem_keys in Hm. done.
  - apply String.eqb_neq in Hne as ->. by apply IH.
Qed.

Lemma od_nodup_update d items : NoDup (OD.keys d) -> NoDup (OD.keys (OD.update d items)).
Proof.
  unfold OD.update. revert d. induction items as [|[k v] items IH]; intros d Hnd; [done|].
  simpl. apply IH. by apply od_nodup_set.
Qed.

End ODFacts.

Lemma strip_keys_nodup (value : tagdict) (ignore_keys : list string) :
  NoDup (OD.keys value) -> NoDup (OD.keys (strip_keys value ignore_keys)).
Proof.
  unfold strip_keys. revert value.
  induction ignore_keys as [|k ks IH]; intros value Hnd; [done|].
  simpl. apply IH. by apply od_nodup_pop.
Qed.

(** The dictionaries [parse_osm] yields have no repeated key. *)
Lemma parse_osm_nodup (infile : list element) (allowed_types : gset string)
    (key : osm_key) (value : tagdict) :
  In (key, value) (parse_osm infile allowed_types) -> NoDup (OD.keys value).
Proof.
  unfold parse_osm. intros Hin.
  apply list_elem_of_In, list_elem_of_omap in Hin as (elem & _ & Helem).
  unfold parse_osm_elem in Helem.
  destruct (decode_id _ _) as [item_type local].
  destruct (bool_decide _); [|discriminate].
  injection Helem as _ <-.
  apply od_nodup_update. unfold OD.of_items. apply od_nodup_update. apply NoDup_nil_2.
Qed.

(** ** The tag bag of the limited builder *)

Section TagBag.
Variables (lang : string) (value : tagdict).

Local Abbreviation localized k := (k +:+ ":" +:+ lang).

Lemma od_get_same_keys (d : tagdict) (k : string) :
  OD.keys d = OD.keys value -> OD.get k value = None -> OD.get k d = None.
Proof.
  intros Hkeys Hnone. apply od_get_none. apply od_get_none in Hnone.
  destruct (OD.mem k d) eqn:Hm; [|done].
  apply od_mem_keys in Hm. rewrite Hkeys in Hm. apply od_mem_keys in Hm. congruence.
Qed.

(** One language attributed: every tag is kept; a tag with a localized
    variant takes its value, the others keep theirs. *)
Lemma localized_tags_single :
  let bag := localized_tags true lang value in
  OD.keys bag = OD.keys value
  /\ forall k,
       (OD.get (localized k) value = None -> OD.get k bag = OD.get k value)
       /\ (forall w, k ∈ OD.keys value ->
             OD.get (localized k) value = Some w ->
             OD.get (localized (localized k)) value = None ->
             OD.get k bag = Some w).
Proof.
  unfold localized_tags. simpl negb. cbv iota.
  set (step := fun (address_dict : tagdict) (k : string) => _).
  assert (Hgen : forall ks d (processed : string -> Prop),
    (forall k, k ∈ ks -> k ∈ OD.keys value) ->
    OD.keys d = OD.keys value ->
    (forall k, OD.get (localized k) value = None -> OD.get k d = OD.get k value) ->
    (forall k w, processed k -> OD.get (localized k) value = Some w ->
       OD.get (localized (localized k)) value = None -> OD.get k d = Some w) ->
    OD.keys (fold_left step ks d) = OD.keys value
    /\ (forall k, OD.get (localized k) value = None ->
          OD.get k (fold_left step ks d) = OD.get k value)
    /\ (forall k w, processed k \/ k ∈ ks -> OD.get (localized k) value = Some w ->
          OD.get (localized (localized k)) value = None ->
          OD.get k (fold_left step ks d) = Some w)).
  { induction ks as [|k ks IH]; intros d processed Hks Hkeys Hsame Hdone.
    - simpl. split; [done|]. split; [done|].
      intros k w [Hk|Hk]; [by apply Hdone|inversion Hk].
    - simpl fold_left.
      assert (Hk : k ∈ OD.keys value) by (apply Hks; left).
      destruct (IH (step d k) (fun k' => processed k' \/ k' = k)) as (IH1 & IH2 & IH3).
      + intros k' Hk'. apply Hks. by right.
      + subst step. simpl. destruct (OD.get (localized k) d); [|done].
        rewrite od_keys_set; [done|]. by rewrite Hkeys.
      + intros k' Hnone. subst step. simpl.
        destruct (OD.get (localized k) d) as [u|] eqn:Hu; [|by apply Hsame].
        rewrite od_get_set. destruct (decide (k = k')) as [<-|Hne]; [|by apply Hsame].
        by rewrite (od_get_same_keys d _ Hkeys Hnone) in Hu.
      + intros k' w [Hk'| ->] Hloc Hnone; subst step; simpl.
        * destruct (OD.get (localized k) d) as [u|] eqn:Hu; [|by apply Hdone].
          rewrite od_get_set. destruct (decide (k = k')) as [<-|Hne]; [|by apply Hdone].
          rewrite (Hsame _ Hnone), Hloc in Hu. done.
        * rewrite (Hsame _ Hnone), Hloc. rewrite od_get_set, decide_True by done. done.
      + split; [done|]. split; [done|].
        intros k' w [Hk'|[->|Hk']%elem_of_cons]; apply IH3; auto. }
  destruct (Hgen (OD.keys value) value (fun _ => False)) as (H1 & H2 & H3); try done.
  split; [done|]. intros k. split; [by apply H2|].
  intros w Hk. apply H3. by right.
Qed.

(** Several languages attributed: no tag falls back on its shared value. What
    is left has a localized variant among the tags, and carries its value. *)
Lemma localized_tags_multi :
  NoDup (OD.keys value) ->
  let bag := localized_tags false lang value in
  forall k w,
    OD.get k bag = Some w ->
    k ∈ OD.keys value
    /\ OD.mem (localized k) value = true
    /\ (OD.get (localized (localized k)) value = None ->
        OD.get (localized k) value = Some w).
Proof.
  intros Hnd. unfold localized_tags. simpl negb. cbv iota.
  set (step := fun (address_dict : tagdict) (k : string) => _).
  set (settled := fun (k w : string) =>
         OD.mem (localized k) value = true
         /\ (OD.get (localized (localized k)) value = None ->
             OD.get (localized k) value = Some w)).
  assert (Hgen : forall rest d,
    NoDup rest ->
    (forall k, k ∈ rest -> k ∈ OD.keys value) ->
    NoDup (OD.keys d) ->
    (forall k w, OD.get k d = Some w -> k ∈ OD.keys value) ->
    (forall k, k ∈ rest -> OD.get k d = OD.get k value) ->
    (forall k w, OD.get k d = Some w -> k ∈ rest \/ settled k w) ->
    forall k w, OD.get k (fold_left step rest d) = Some w ->
      k ∈ OD.keys value /\ settled k w).
  { induction rest as [|k rest IH]; intros d Hrest Hsub Hd Hin Hfresh Hold k' w Hget.
    - simpl in Hget. split; [by eapply Hin|].
      destruct (Hold _ _ Hget) as [Hk|Hk]; [inversion Hk|done].
    - simpl fold_left in Hget. apply NoDup_cons in Hrest as [Hk Hrest].
      assert (Hkv : k ∈ OD.keys value) by (apply Hsub; left).
      revert Hget. apply IH; [done|intros ? ?; apply Hsub; by right|..].
      + subst step. simpl. destruct (OD.get (localized k) d).
        * by apply od_nodup_set.
        * by apply od_nodup_pop.
      + intros k0 w0. subst step. simpl.
        destruct (OD.get (localized k) d) as [u|].
        * rewrite od_get_set. destruct (decide (k = k0)) as [<-|Hne]; [done|]. apply Hin.
        * intros Hget. apply (Hin k0 w0).
          destruct (decide (k = k0)) as [<-|Hne].
          -- by rewrite od_get_pop_eq in Hget.
          -- by rewrite od_get_pop_ne in Hget.
      + intros k0 Hk0. assert (Hne : k <> k0) by (intros ->; done).
        subst step. simpl. destruct (OD.get (localized k) d) as [u|].
        * rewrite od_get_set, decide_False by done. apply Hfresh. by right.
        * rewrite od_get_pop_ne by done. apply Hfresh. by right.
      + intros k0 w0. subst step. simpl.
        destruct (OD.get (localized k) d) as [u|] eqn:Hu.
        * rewrite od_get_set. destruct (decide (k = k0)) as [<-|Hne].
          -- intros [= <-]. right. split.
             ++ apply od_mem_keys. by eapply Hin.
             ++ intros Hnone. destruct (Hold _ _ Hu) as [Hloc|[Hmem _]].
                ** by rewrite <- (Hfresh _ Hloc).
                ** apply od_get_none in Hnone. congruence.
          -- intros Hget. destruct (Hold _ _ Hget) as [[?|?]%elem_of_cons|?]; auto.
             congruence.
        * intros Hget. destruct (decide (k = k0)) as [<-|Hne].
          -- by rewrite od_get_pop_eq in Hget.
          -- rewrite od_get_pop_ne in Hget by done.
             destruct (Hold _ _ Hget) as [[?|?]%elem_of_cons|?]; auto. congruence. }
  intros k w Hget.
  destruct (Hgen (OD.keys value) value) with (k := k) (w := w) as [Hk [Hmem Hval]];
    try done.
  - intros k0 w0 Hget0. apply od_mem_keys. apply od_mem_get. eauto.
  - intros k0 w0 Hget0. left. apply od_mem_keys. apply od_mem_get. eauto.
Qed.

End TagBag.

Section Limited.
Context `{Collaborators}.

Lemma omap_heads_sublist {A : Type} (f : A -> option row) (h : A -> string) (l : list A) :
  (forall x r, f x = Some r -> hd "" r = h x) ->
  sublist (map (hd "") (omap f l)) (h <$> l).
Proof.
  intros Hf. induction l as [|x l IH]; simpl; [constructor|].
  destruct (f x) as [r|] eqn:Hx; simpl.
  - rewrite (Hf _ _ Hx). by constructor.
  - by constructor.
Qed.

(** Stripping keys invents no entry. *)
Lemma strip_keys_get_sub (value : tagdict) (ignore_keys : list string) (k v : string) :
  NoDup (OD.keys value) ->
  OD.get k (strip_keys value ignore_keys) = Some v -> OD.get k value = Some v.
Proof.
  unfold strip_keys. revert value.
  induction ignore_keys as [|k' ks IH]; intros value Hnd Hget; [done|].
  simpl in Hget. apply IH in Hget; [|by apply od_nodup_pop].
  destruct (decide (k' = k)) as [->|Hne].
  - by rewrite od_get_pop_eq in Hget.
  - by rewrite od_get_pop_ne in Hget.
Qed.

(** An element with attributed names has readable coordinates. *)
Lemma language_names_coordinates (language_rtree : rtree) (key : osm_key) (value : tagdict)
    (prefix country : string) (name_language : gmap string (list string)) :
  language_names language_rtree key value prefix = Some (country, name_language) ->
  exists lat lon coords,
    OD.get "lat" value = Some lat
    /\ OD.get "lon" value = Some lon
    /\ Coord.latlon_to_floats lat lon = Some coords.
Proof.
  unfold language_names, run, get_language_names, locate.
  destruct (negb _); [discriminate|].
  destruct (OD.get "lat" value) as [lat|] eqn:Hlat; [|discriminate].
  destruct (OD.get "lon" value) as [lon|] eqn:Hlon; [|discriminate]. simpl.
  destruct (Coord.latlon_to_floats lat lon) as [coords|] eqn:Hcoords; [|discriminate].
  intros _. by exists lat, lon, coords.
Qed.

(** What the limited builder writes for an attributed language is among the
    rows of the element. *)
Lemma limited_row_written (language_rtree : rtree) (key : osm_key) (value : tagdict)
    (country : string) (name_language : gmap string (list string)) (lang : string)
    (r : row) :
  NoDup (OD.keys value) ->
  let tags :=
    strip_keys value (NAME_KEYS ++ COUNTRY_KEYS ++ POSTAL_KEYS ++ OSM_IGNORE_KEYS)%list in
  language_names language_rtree key tags "addr:street" = Some (country, name_language) ->
  lang ∈ dom name_language ->
  limited_row country tags (bool_decide (size name_language = 1%nat)) lang = Some r ->
  In r (limited_rows language_rtree key value).
Proof.
  intros Hnd tags Hnames Hlang Hrow. unfold limited_rows. fold tags.
  destruct (language_names_coordinates _ _ _ _ _ _ Hnames)
    as (lat & lon & coords & Hlat & Hlon & Hcoords).
  rewrite (strip_keys_get_sub _ _ _ _ Hnd Hlat), (strip_keys_get_sub _ _ _ _ Hnd Hlon).
  simpl. rewrite Hcoords.
  destruct tags as [|kv tags'] eqn:Htags; [discriminate|].
  rewrite <- Htags in *. rewrite Hnames.
  apply elem_of_dom in Hlang as [val Hval].
  apply list_elem_of_In, list_elem_of_omap. exists (lang, val).
  split; [by apply elem_of_map_to_list|done].
Qed.

(** C8, as amended. For an element the limited builder reads, exactly one
    row is written for each attributed language that is of the known set,
    whose tag bag is not empty and that the formatter accepts, and no other
    row: a language whose bag is empty is skipped, and the other languages
    of the element are still written. When one language alone is attributed
    the bag has every tag of the element, with the value of its localized
    variant [key:lang] when there is one and its own value otherwise. When
    several languages are attributed there is no fallback on the shared
    value: what is left in the bag has a localized variant among the tags,
    and carries its value. (The values are stated for keys with no doubly
    localized variant [key:lang:lang].) *)
Theorem limited_rows_localized (language_rtree : rtree) (infile : list element)
    (key : osm_key) (value : tagdict) :
  In (key, value) (parse_osm infile ALL_OSM_TAGS) ->
  let tags :=
    strip_keys value (NAME_KEYS ++ COUNTRY_KEYS ++ POSTAL_KEYS ++ OSM_IGNORE_KEYS)%list in
  let rows := limited_rows language_rtree key value in
  NoDup (map (hd "") rows)
  /\ (forall country name_language lang formatted,
        language_names language_rtree key tags "addr:street" = Some (country, name_language) ->
        lang ∈ dom name_language ->
        lang ∈ languages ->
        let bag := localized_tags (bool_decide (size name_language = 1%nat)) lang tags in
        bag <> [] ->
        format_address country bag false = Some formatted ->
        In [lang; country; tsv_string formatted] rows)
  /\ forall r, In r rows ->
       exists country name_language lang formatted,
         language_names language_rtree key tags "addr:street" = Some (country, name_language)
         /\ lang ∈ dom name_language
         /\ lang ∈ languages
         /\ let bag := localized_tags (bool_decide (size name_language = 1%nat)) lang tags in
            bag <> []
            /\ format_address country bag false = Some formatted
            /\ r = [lang; country; tsv_string formatted]
            /\ (size name_language = 1%nat ->
                OD.keys bag = OD.keys tags
                /\ forall k,
                     (OD.get (k +:+ ":" +:+ lang) tags = None ->
                      OD.get k bag = OD.get k tags)
                     /\ (forall w, k ∈ OD.keys tags ->
                           OD.get (k +:+ ":" +:+ lang) tags = Some w ->
                           OD.get ((k +:+ ":" +:+ lang) +:+ ":" +:+ lang) tags = None ->
                           OD.get k bag = Some w))
            /\ (size name_language <> 1%nat ->
                forall k w,
                  OD.get k bag = Some w ->
                  k ∈ OD.keys tags
                  /\ OD.mem (k +:+ ":" +:+ lang) tags = true
                  /\ (OD.get ((k +:+ ":" +:+ lang) +:+ ":" +:+ lang) tags = None ->
                      OD.get (k +:+ ":" +:+ lang) tags = Some w)).
Proof.
  intros Hin tags rows.
  assert (Hvalue : NoDup (OD.keys value)) by (by eapply parse_osm_nodup).
  assert (Hnd : NoDup (OD.keys tags)) by (by apply strip_keys_nodup).
  assert (Hwritten : forall country name_language lang formatted,
    language_names language_rtree key tags "addr:street" = Some (country, name_language) ->
    lang ∈ dom name_language ->
    lang ∈ languages ->
    let bag := localized_tags (bool_decide (size name_language = 1%nat)) lang tags in
    bag <> [] ->
    format_address country bag false = Some formatted ->
    In [lang; country; tsv_string formatted] rows).
  { intros country name_language lang formatted Hnames Hlang Hknown bag Hbag Hformat.
    apply (limited_row_written _ _ _ country name_language lang); [done..|].
    unfold limited_row. rewrite (bool_decide_eq_true_2 _ Hknown). cbn [negb].
    subst bag. fold tags.
    destruct (localized_tags _ lang tags) as [|kv bag']; [done|].
    by rewrite Hformat. }
  subst rows. unfold limited_rows in *. fold tags in Hwritten |- *.
  destruct (_ ≫= _) as [coords|]; [|split; [constructor|split; [exact Hwritten|intros r []]]].
  destruct tags as [|kv tags'] eqn:Htags;
    [split; [constructor|split; [exact Hwritten|intros r []]]|].
  rewrite <- Htags in *. clear Htags kv tags'.
  destruct (language_names language_rtree key tags "addr:street")
    as [[country name_language]|];
    [|split; [constructor|split; [exact Hwritten|intros r []]]].
  split; [|split; [exact Hwritten|]].
  - eapply sublist_NoDup; [apply (NoDup_fst_map_to_list name_language)|].
    apply omap_heads_sublist. intros [lang val] r Hr. simpl.
    apply limited_row_known in Hr as (rest & -> & _). done.
  - intros r Hr.
    apply list_elem_of_In, list_elem_of_omap in Hr as ([lang val] & Hlang & Hr).
    apply elem_of_map_to_list in Hlang.
    exists country, name_language, lang.
    unfold limited_row in Hr. case_bool_decide as Hknown; simpl in Hr; [|discriminate].
    destruct (localized_tags _ lang tags) as [|kv bag] eqn:Hbag; [discriminate|].
    destruct (format_address country (kv :: bag) false) as [formatted|] eqn:Hformat;
      [|discriminate].
    injection Hr as <-. exists formatted.
    split; [done|]. split; [apply elem_of_dom; eauto|]. split; [done|].
    cbv zeta. split; [done|]. split; [done|]. split; [done|].
    rewrite <- Hbag. split.
    + intros Hone. rewrite (bool_decide_eq_true_2 _ Hone). apply localized_tags_single.
    + intros Hmany. rewrite (bool_decide_eq_false_2 _ Hmany).
      by apply localized_tags_multi.
Qed.

End Limited.

(** C8 as stated fails: with two attributed languages the row of "en" is built
    from the localized street alone; the shared city, which has no
    [addr:city:en] variant, is dropped from the bag and not in the row. And
    not every attributed language has a row: a street attributed to
    [zh_pinyin], which is not of the known set, is not written. *)
Lemma limited_builder_drops_shared_fields :
  let W := Sample.belgium Sample.first_candidate in
  @language_names W tt (KeyId 7) Sample.bilingual_address "addr:street"
  = Some ("be", {["en" := ["Main Street"]; "fr" := ["Rue Principale"]]})
  /\ OD.get "addr:city" Sample.bilingual_address = Some "Brussels"
  /\ OD.get "addr:city:en" Sample.bilingual_address = None
  /\ @localized_tags false "en" Sample.bilingual_address = [("addr:street", "Main Street")]
  /\ @build_address_format_training_data_limited W tt [Sample.bilingual_element]
     = [["en"; "be"; "Main Street"]; ["fr"; "be"; "Rue Principale"]]
  /\ @language_names W tt (KeyText "node:9") SampleElements.pinyin_address "addr:street"
     = Some ("be", {["zh_pinyin" := ["Lu"]]})
  /\ @build_address_format_training_data_limited W tt [SampleElements.pinyin_element] = [].
Proof. repeat split; vm_compute; reflexivity. Qed.

(** ** The toponym builder *)

Lemma od_get_elem {V : Type} (d : list (string * V)) (k : string) (v : V) :
  OD.get k d = Some v -> (k, v) ∈ d.
Proof.
  induction d as [|[k0 v0] d IH]; simpl; [discriminate|].
  destruct (String.eqb_spec k0 k) as [->|Hne].
  - intros [= ->]. left.
  - intros Hget. right. by apply IH.
Qed.

Lemma fold_left_unchanged {A B : Type} (f : B -> A -> B) (l : list A) (b : B) :
  (forall x, x ∈ l -> f b x = b) -> fold_left f l b = b.
Proof.
  induction l as [|x l IH]; intros Hf; [reflexivity|].
  simpl. rewrite Hf by left. apply IH. intros ? ?. apply Hf. by right.
Qed.

Section Toponyms.
Context `{Collaborators}.

(** When no qualified name is of a valid language, the loop over the
    qualified names attributes nothing. *)
Lemma toponym_qualified_none (valid_languages : gset string) (value : tagdict) :
  (forall k v, (k, v) ∈ value -> PyStr.startswith k "name:" = true ->
     (normalize_osm_name_tag k false ∈ languages ->
      normalize_osm_name_tag k false ∉ valid_languages)
     /\ (normalize_osm_name_tag k false ∉ languages ->
         normalize_osm_name_tag k true ∈ languages ->
         normalize_osm_name_tag k true ∉ valid_languages)) ->
  toponym_qualified valid_languages value = (false, ∅).
Proof.
  intros Hnone. unfold toponym_qualified. apply fold_left_unchanged.
  intros [k v] Hkv. simpl.
  destruct (PyStr.startswith k "name:") eqn:Hpre; [|done]. simpl.
  destruct (Hnone k v Hkv Hpre) as [Hnorm Hsans].
  case_bool_decide as Hn.
  - by rewrite bool_decide_eq_false_2 by auto.
  - case_bool_decide as Hs; [|done].
    by rewrite bool_decide_eq_false_2 by auto.
Qed.

(** C7, as amended. In the toponym builder, when no qualified name tag is of
    a valid language, the element has a bare [name] tag, the polygons above
    country level declare at most one language entry in all, and exactly one
    valid language is left, which is the first official language of the
    country, the bare name is attributed to that language, and nothing else
    is attributed. *)
Theorem toponym_bare_name (language_rtree : rtree) (value : tagdict)
    (lat lon : string) (latitude longitude : Q) (country : string)
    (cands : list CandidateLanguage) (language_props : list AdminLanguageProps)
    (name top : string) :
  OD.get "lat" value = Some lat ->
  OD.get "lon" value = Some lon ->
  Coord.latlon_to_floats lat lon = Some (latitude, longitude) ->
  country_and_languages language_rtree latitude longitude
  = (Some country, cands, language_props) ->
  country <> "" ->
  cands <> [] ->
  let valid_languages := toponym_valid_languages country cands in
  (forall k v, (k, v) ∈ value -> PyStr.startswith k "name:" = true ->
     (normalize_osm_name_tag k false ∈ languages ->
      normalize_osm_name_tag k false ∉ valid_languages)
     /\ (normalize_osm_name_tag k false ∉ languages ->
         normalize_osm_name_tag k true ∈ languages ->
         normalize_osm_name_tag k true ∉ valid_languages)) ->
  OD.get "name" value = Some name ->
  (length (toponym_regional_langs language_props) <= 1)%nat ->
  top_lang_of country = Some top ->
  valid_languages = {[top]} ->
  toponym_name_language language_rtree value
  = Some (country, {[Some top := [name]]}).
Proof.
  intros Hlat Hlon Hcoords Hgeo Hcountry Hcands valid_languages Hnone Hname Hregional
    Htop Hvalid.
  unfold toponym_name_language.
  assert (Hnames : (0 <? length (filter (fun kv : string * string =>
                                           PyStr.startswith kv.1 "name" = true) value))%nat
                   = true).
  { apply Nat.ltb_lt. apply od_get_elem in Hname.
    assert (Hin : ("name", name) ∈ filter (fun kv : string * string =>
                                             PyStr.startswith kv.1 "name" = true) value).
    { by apply list_elem_of_filter. }
    destruct (filter _ value); [inversion Hin|simpl; lia]. }
  rewrite Hnames, Hlat, Hlon. simpl. rewrite Hcoords. simpl. rewrite Hgeo.
  destruct country as [|a country]; [done|]. destruct cands as [|cl cands]; [done|].
  fold valid_languages. rewrite Hvalid.
  rewrite bool_decide_eq_false_2.
  2:{ intros Hempty. assert (Hin : top ∈ ({[top]} : gset string)) by set_solver.
      rewrite Hempty in Hin. by apply not_elem_of_empty in Hin. }
  rewrite <- Hvalid. rewrite (toponym_qualified_none _ _ Hnone).
  rewrite Hname, Htop, Hvalid. simpl negb.
  rewrite (bool_decide_eq_true_2 _ Hregional).
  rewrite bool_decide_eq_true_2 by apply size_singleton.
  simpl. unfold dd_append_opt. rewrite lookup_empty. simpl.
  by rewrite insert_empty.
Qed.

End Toponyms.

Lemma toponym_bare_name_witness :
  @toponym_name_language (Sample.india Sample.one_language_region) tt Sample.pune_poona
  = Some ("in", {[Some "hi" := ["Pune"]]}).
Proof.
  apply (@toponym_bare_name (Sample.india Sample.one_language_region) tt
           Sample.pune_poona "18.52" "73.85" (1852 # 100) (7385 # 100) "in"
           Sample.india_cands Sample.one_language_region "Pune" "hi");
    try reflexivity; try by_compute.
  intros k v Hkv Hpre.
  apply elem_of_cons in Hkv as [[= -> ->]|Hkv]; [discriminate Hpre|].
  apply elem_of_cons in Hkv as [[= -> ->]|Hkv]; [discriminate Hpre|].
  apply elem_of_cons in Hkv as [[= -> ->]|Hkv]; [discriminate Hpre|].
  apply elem_of_cons in Hkv as [[= -> ->]|Hkv]; [|inversion Hkv].
  split; [intros _; by_compute|].
  intros Hunknown. exfalso. apply Hunknown. by_compute.
Defined.

(** C7 as stated fails: one polygon above country level covers the point, no
    qualified name tag exists, the bare name does, and "hi" is the one valid
    language; the polygon declares two language entries, and the bare name
    is not attributed. *)
Lemma toponym_counts_regional_languages :
  let W := Sample.india Sample.two_language_region in
  length (filter (fun p => 0 < admin_level p) Sample.two_language_region) = 1%nat
  /\ OD.get "name" Sample.pune = Some "Pune"
  /\ filter (fun kv : string * string => PyStr.startswith kv.1 "name:" = true) Sample.pune = []
  /\ @toponym_valid_languages W "in" Sample.india_cands = {["hi"]}
  /\ @toponym_name_language W tt Sample.pune = Some ("in", ∅)
  /\ @build_toponym_training_data W tt
       [ {| elem_tag := "node"; elem_id := 7;
            elem_attrib := [("lat", "18.52"); ("lon", "73.85")];
            elem_tags := [("name", "Pune")] |} ] = [].
Proof. repeat split; try by_compute; vm_compute; reflexivity. Qed.

(** ** The theorems at work on sample elements *)

Lemma shared_text_disambiguated_once_witness :
  let W := Sample.belgium Sample.first_candidate in
  exists name_language log,
    run (@get_language_names W tt (KeyId 7) Sample.rue_x "name")
    = (Some ("be", name_language), log)
    /\ filter (fun c : call => c.1 = "Rue X") log = [("Rue X", [("en", false); ("fr", true)])]
    /\ length (filter (fun x : string => x = "Rue X") (dd_get name_language "en")) = 1%nat
    /\ length (filter (fun x : string => x = "Rue X") (dd_get name_language "fr")) = 0%nat.
Proof.
  destruct (@shared_text_disambiguated_once (Sample.belgium Sample.first_candidate) tt
              (KeyId 7) Sample.rue_x "name" "be" Sample.belgium_cands
              Sample.belgium_props "Rue X")
    as (name_language & log & Hrun & Hlog & Hocc).
  - reflexivity.
  - vm_compute. lia.
  - exists name_language, log. split; [exact Hrun|]. split; [exact Hlog|].
    split; [exact (Hocc "en")|exact (Hocc "fr")].
Defined.

Lemma bare_tag_fallback_witness :
  exists name_language,
    run (@get_language_names Sample.france tt (KeyId 7) Sample.main_street "name")
    = (Some ("fr", name_language), [])
    /\ "Main Street" ∈ dd_get name_language "fr".
Proof.
  destruct (@bare_tag_fallback Sample.france tt (KeyId 7) Sample.main_street "name" "fr"
              [Sample.L "fr" true]
              [ {| admin_level := 0; prop_languages := [Sample.L "fr" true] |} ] eq_refl)
    as [_ Hbare].
  destruct (Hbare eq_refl (Sample.L "fr" true) eq_refl) as (name_language & Hrun & Hin).
  exists name_language. split; [exact Hrun|].
  apply (Hin "name" "Main Street"); [by_compute|reflexivity|reflexivity].
Defined.

Lemma first_candidate_answers (text : string) (langs : list (string * bool)) :
  Sample.first_candidate text langs = "xxx"
  \/ Sample.first_candidate text langs = "unk"
  \/ Sample.first_candidate text langs ∈ map fst langs.
Proof.
  destruct langs as [|[l d] langs]; [right; left; reflexivity|].
  right. right. left.
Qed.

Lemma name_language_keys_known_up_to_script_witness :
  let W := Sample.belgium Sample.first_candidate in
  "zh_pinyin" ∈ @languages W \/ PyStr.split_first "_" "zh_pinyin" ∈ @languages W.
Proof.
  apply (@name_language_keys_known_up_to_script (Sample.belgium Sample.first_candidate) tt
           (KeyId 7) Sample.rue_x "name" "be"
           {["en" := ["Rue X"]; "zh_pinyin" := ["Lu"]]}
           [("Rue X", [("en", false); ("fr", true)])]).
  - exact first_candidate_answers.
  - intros latitude longitude cl Hcl. simpl in Hcl.
    repeat (apply elem_of_cons in Hcl as [->|Hcl]; [by_compute|]). inversion Hcl.
  - vm_compute. reflexivity.
  - by_compute.
Defined.

(** C5 as stated fails: the suffix of [name:zh_pinyin] passes the test on its
    stripped form "zh" and is stored whole, as the key "zh_pinyin", which is
    no known language code. *)
Lemma script_suffix_stored_as_key :
  let W := Sample.belgium Sample.first_candidate in
  (run (@get_language_names W tt (KeyId 7) Sample.rue_x "name")).1
  = Some ("be", {["en" := ["Rue X"]; "zh_pinyin" := ["Lu"]]})
  /\ "zh" ∈ @languages W
  /\ "zh_pinyin" ∉ @languages W.
Proof. repeat split; by_compute. Qed.

Lemma builders_write_known_languages_witness :
  let W := Sample.belgium Sample.first_candidate in
  exists k rest, ["en"; "be"; "Main Street"] = k :: rest /\ k ∈ @languages W.
Proof.
  apply (@builders_write_known_languages (Sample.belgium Sample.first_candidate) tt
           [Sample.main_street_way]).
  left. vm_compute. left. reflexivity.
Defined.

Lemma limited_rows_localized_witness :
  let W := Sample.belgium Sample.first_candidate in
  In ["en"; "be"; "Brussels Centre"]
     (@limited_rows W tt (KeyText "node:8") SampleElements.half_localized_address)
  /\ localized_tags false "fr"
       (strip_keys SampleElements.half_localized_address
          (NAME_KEYS ++ COUNTRY_KEYS ++ POSTAL_KEYS ++ OSM_IGNORE_KEYS)) = []
  /\ NoDup (map (hd "")
              (@limited_rows W tt (KeyText "node:8") SampleElements.half_localized_address)).
Proof.
  intros W.
  destruct (@limited_rows_localized (Sample.belgium Sample.first_candidate) tt
              [SampleElements.half_localized] (KeyText "node:8")
              SampleElements.half_localized_address)
    as (Hnodup & Hwritten & _); [vm_compute; left; reflexivity|].
  split; [|split; [reflexivity|exact Hnodup]].
  apply (Hwritten "be" {["en" := ["Main Street"]; "fr" := ["Rue Principale"]]} "en"
           "Brussels Centre").
  - vm_compute. reflexivity.
  - by_compute.
  - by_compute.
  - vm_compute. discriminate.
  - reflexivity.
Defined.


(** * Further properties *)

(** ** Packed ids and the dictionaries of [parse_osm] *)

(** X1. Packing a local way id below 10^15 by adding [WAY_OFFSET], or a
    local relation id by adding [RELATION_OFFSET], is undone by the decoding
    of lines 125-130, whatever the tag name of the element. *)
Theorem decode_id_round_trip (tag : string) (i : Z) :
  (0 <= i < WAY_OFFSET -> decode_id tag (i + WAY_OFFSET) = ("way", i))
  /\ (0 <= i -> decode_id tag (i + RELATION_OFFSET) = ("relation", i)).
Proof.
  unfold decode_id, WAY_OFFSET, RELATION_OFFSET. split; intros Hi.
  - destruct (Z.leb_spec (10 ^ 15) (i + 10 ^ 15)); [|lia].
    destruct (Z.ltb_spec (i + 10 ^ 15) (2 * 10 ^ 15)); [|lia].
    simpl. f_equal. lia.
  - destruct (Z.ltb_spec (i + 2 * 10 ^ 15) (2 * 10 ^ 15)); [lia|].
    rewrite andb_false_r.
    destruct (Z.leb_spec (2 * 10 ^ 15) (i + 2 * 10 ^ 15)); [|lia].
    f_equal. lia.
Qed.

Lemma decode_id_round_trip_witness :
  decode_id "node" (5 + WAY_OFFSET) = ("way", 5)
  /\ decode_id "node" (5 + RELATION_OFFSET) = ("relation", 5).
Proof.
  destruct (decode_id_round_trip "node" 5) as [Hway Hrel].
  split; [apply Hway; unfold WAY_OFFSET; lia|apply Hrel; lia].
Defined.

Lemma od_get_app {V : Type} (d1 d2 : list (string * V)) (k : string) :
  OD.get k (d1 ++ d2)%list =
    match OD.get k d1 with
    | Some v => Some v
    | None => OD.get k d2
    end.
Proof.
  induction d1 as [|[k0 v0] d1 IH]; simpl; [done|].
  destruct (String.eqb k0 k); [done|apply IH].
Qed.

(** [d.update(items)] read back: the last pair of [items] with the key, or
    else what [d] had. *)
Lemma od_get_update {V : Type} (d items : list (string * V)) (k : string) :
  OD.get k (OD.update d items) =
    match OD.get k (rev items) with
    | Some v => Some v
    | None => OD.get k d
    end.
Proof.
  unfold OD.update. revert d. induction items as [|[k0 v0] items IH]; intros d; [done|].
  simpl fold_left. rewrite IH. simpl rev. rewrite od_get_app, od_get_set. simpl.
  destruct (OD.get k (rev items)); [done|].
  destruct (decide (k0 = k)) as [->|Hne].
  - by rewrite String.eqb_refl.
  - by apply String.eqb_neq in Hne as ->.
Qed.

(** X2. In the dictionary [parse_osm] yields for an element, a key reads as
    the value of the last [tag] child that has it, and otherwise as the value
    of the element's own attribute: tag children win over attributes, later
    children over earlier ones, and no key is repeated. *)
Theorem parse_osm_attrs_last_wins (allowed_types : gset string) (elem : element)
    (key : osm_key) (attrs : tagdict) :
  parse_osm_elem allowed_types elem = Some (key, attrs) ->
  NoDup (OD.keys attrs)
  /\ forall k,
       OD.get k attrs =
         match OD.get k (rev (elem_tags elem)) with
         | Some v => Some v
         | None => OD.get k (rev (elem_attrib elem))
         end.
Proof.
  unfold parse_osm_elem. destruct (decode_id _ _) as [item_type local].
  destruct (bool_decide _); [|discriminate]. intros [= _ <-]. split.
  - apply od_nodup_update. unfold OD.of_items. apply od_nodup_update. apply NoDup_nil_2.
  - intros k. unfold OD.of_items. rewrite !od_get_update.
    assert (Hrev : forall items : tagdict,
              OD.get k (rev (OD.update [] items)) = OD.get k (rev items)).
    { intros items.
      assert (Hnd : NoDup (OD.keys (OD.update ([] : tagdict) items))).
      { apply od_nodup_update. apply NoDup_nil_2. }
      pose proof (od_get_update ([] : tagdict) items) as Hget.
      destruct (OD.get k (rev items)) as [v|] eqn:Hlast.
      - specialize (Hget k). rewrite Hlast in Hget.
        apply od_get_elem in Hget.
        revert Hnd Hget. generalize (OD.update ([] : tagdict) items). intros d Hnd Hin.
        clear -Hnd Hin. induction d as [|[k0 v0] d IH]; [inversion Hin|].
        simpl. rewrite od_get_app. unfold OD.keys in Hnd. simpl in Hnd.
        apply NoDup_cons in Hnd as [Hk0 Hnd].
        apply elem_of_cons in Hin as [[= <- <-]|Hin].
        + destruct (OD.get k (rev d)) as [w|] eqn:Hw.
          * exfalso. apply Hk0. apply od_get_elem in Hw.
            apply list_elem_of_In, in_rev, list_elem_of_In in Hw.
            apply list_elem_of_In, in_map_iff. exists (k, w). split; [done|].
            by apply list_elem_of_In.
          * simpl. by rewrite String.eqb_refl.
        + by rewrite (IH Hnd Hin).
      - specialize (Hget k). rewrite Hlast in Hget. simpl in Hget.
        revert Hget. generalize (OD.update ([] : tagdict) items). intros d Hnone.
        destruct (OD.get k (rev d)) as [w|] eqn:Hw; [|done].
        apply od_get_elem, list_elem_of_In, in_rev, list_elem_of_In in Hw.
        assert (Hmem : OD.mem k d = true).
        { apply od_mem_keys. apply list_elem_of_In, in_map_iff. exists (k, w).
          split; [done|]. by apply list_elem_of_In. }
        apply od_get_none in Hnone. congruence. }
    rewrite !Hrev. destruct (OD.get k (rev (elem_tags elem))); [done|].
    simpl. by destruct (OD.get k (rev (elem_attrib elem))).
Qed.

Lemma parse_osm_attrs_last_wins_witness :
  let elem := {| elem_tag := "node"; elem_id := 7;
                 elem_attrib := [("lat", "1"); ("lon", "2")];
                 elem_tags := [("name", "a"); ("lat", "3"); ("name", "b")] |} in
  exists attrs,
    parse_osm_elem ALL_OSM_TAGS elem = Some (KeyText "node:7", attrs)
    /\ OD.get "name" attrs = Some "b"
    /\ OD.get "lat" attrs = Some "3"
    /\ OD.get "lon" attrs = Some "2".
Proof.
  intros elem. eexists. split; [vm_compute; reflexivity|].
  destruct (parse_osm_attrs_last_wins ALL_OSM_TAGS elem _ _ eq_refl) as [_ Hget].
  split; [|split]; rewrite Hget; reflexivity.
Defined.

(** ** [normalize_osm_name_tag] *)

Lemma split_last_no_sep (c : ascii) (s : string) :
  PyStr.contains c (PyStr.split_last c s) = false.
Proof.
  induction s as [|a s IH]; simpl; [done|].
  destruct (PyStr.contains c s) eqn:Hs; [exact IH|].
  destruct (Ascii.eqb a c) eqn:Ha; [exact Hs|]. simpl. by rewrite Ha.
Qed.

Lemma split_first_no_sep (c : ascii) (s : string) :
  PyStr.contains c (PyStr.split_first c s) = false.
Proof.
  induction s as [|a s IH]; simpl; [done|].
  destruct (Ascii.eqb a c) eqn:Ha; [done|]. simpl. by rewrite Ha.
Qed.

Lemma split_first_keeps_absent (c c' : ascii) (s : string) :
  PyStr.contains c' s = false -> PyStr.contains c' (PyStr.split_first c s) = false.
Proof.
  induction s as [|a s IH]; simpl; [done|].
  destruct (Ascii.eqb a c') eqn:Ha'; [discriminate|]. intros Hs.
  destruct (Ascii.eqb a c); [done|]. simpl. rewrite Ha'. by apply IH.
Qed.

Lemma split_last_absent (c : ascii) (s : string) :
  PyStr.contains c s = false -> PyStr.split_last c s = s.
Proof.
  destruct s as [|a s]; simpl; [done|].
  destruct (Ascii.eqb a c); [discriminate|]. by intros ->.
Qed.

Lemma split_first_absent (c : ascii) (s : string) :
  PyStr.contains c s = false -> PyStr.split_first c s = s.
Proof.
  induction s as [|a s IH]; simpl; [done|].
  destruct (Ascii.eqb a c); [discriminate|]. intros Hs. by rewrite IH.
Qed.

Lemma contains_append (c : ascii) (s t : string) :
  PyStr.contains c (s +:+ t) = PyStr.contains c s || PyStr.contains c t.
Proof.
  induction s as [|a s IH]; simpl; [done|]. by destruct (Ascii.eqb a c).
Qed.

Lemma split_last_append (c : ascii) (s t : string) :
  PyStr.contains c t = false -> PyStr.split_last c (s +:+ String c t) = t.
Proof.
  intros Ht. induction s as [|a s IH]; simpl.
  - by rewrite Ht, Ascii.eqb_refl.
  - rewrite contains_append. simpl. rewrite Ascii.eqb_refl, orb_true_r. exact IH.
Qed.

Lemma split_first_append (c : ascii) (s t : string) :
  PyStr.contains c s = false -> PyStr.split_first c (s +:+ String c t) = s.
Proof.
  induction s as [|a s IH]; simpl.
  - by rewrite Ascii.eqb_refl.
  - destruct (Ascii.eqb a c); [discriminate|]. intros Hs. by rewrite IH.
Qed.

(** X4. What [normalize_osm_name_tag] returns holds no colon, and with
    [script=True] no underscore either; normalizing it again changes nothing. *)
Theorem normalize_osm_name_tag_normal (tag : string) (script : bool) :
  PyStr.contains ":" (normalize_osm_name_tag tag script) = false
  /\ PyStr.contains "_" (normalize_osm_name_tag tag true) = false
  /\ normalize_osm_name_tag (normalize_osm_name_tag tag script) script
     = normalize_osm_name_tag tag script.
Proof.
  unfold normalize_osm_name_tag.
  pose proof (split_last_no_sep ":" tag) as Hlast.
  assert (Hfirst : PyStr.contains ":" (PyStr.split_first "_" (PyStr.split_last ":" tag))
                   = false) by (by apply split_first_keeps_absent).
  split; [by destruct script|]. split; [apply split_first_no_sep|].
  destruct script; simpl.
  - rewrite (split_last_absent _ _ Hfirst).
    apply split_first_absent, split_first_no_sep.
  - by apply split_last_absent.
Qed.

(** X5. A key written as [prefix:lang], where [lang] holds no colon,
    normalizes to [lang]; written as [prefix:lang_script], where [lang] holds
    no underscore either, it normalizes to [lang] with [script=True] and to
    [lang_script] without, whatever the prefix (which may hold colons, as
    [addr:street] does). *)
Theorem normalize_osm_name_tag_suffix (prefix lang script : string) :
  PyStr.contains ":" lang = false ->
  PyStr.contains ":" script = false ->
  PyStr.contains "_" lang = false ->
  normalize_osm_name_tag (prefix +:+ ":" +:+ lang) false = lang
  /\ normalize_osm_name_tag (prefix +:+ ":" +:+ lang) true = lang
  /\ normalize_osm_name_tag (prefix +:+ ":" +:+ lang +:+ "_" +:+ script) true = lang
  /\ normalize_osm_name_tag (prefix +:+ ":" +:+ lang +:+ "_" +:+ script) false
     = lang +:+ "_" +:+ script.
Proof.
  intros Hlang Hscript Hus. unfold normalize_osm_name_tag. simpl negb. cbv iota.
  change (":" +:+ lang) with (String ":" lang).
  change (":" +:+ lang +:+ "_" +:+ script) with (String ":" (lang +:+ String "_" script)).
  assert (Hboth : PyStr.contains ":" (lang +:+ String "_" script) = false).
  { rewrite contains_append, Hlang. simpl. exact Hscript. }
  rewrite !split_last_append by done.
  split; [done|]. split; [by apply split_first_absent|].
  split; [by apply split_first_append|done].
Qed.

Lemma normalize_osm_name_tag_suffix_witness :
  normalize_osm_name_tag "addr:street:zh" false = "zh"
  /\ normalize_osm_name_tag "addr:street:zh" true = "zh"
  /\ normalize_osm_name_tag "addr:street:zh_pinyin" true = "zh"
  /\ normalize_osm_name_tag "addr:street:zh_pinyin" false = "zh_pinyin".
Proof.
  apply (normalize_osm_name_tag_suffix "addr:street" "zh" "pinyin"); reflexivity.
Defined.

(** ** The ways builder reads ways and relations only *)

(** X3. Elements that decode to nodes (tag [node], id below 10^15) give the
    ways builder no row, whatever their tags. *)
Theorem build_ways_skips_nodes `{Collaborators} (language_rtree : rtree)
    (infile : list element) :
  (forall e, e ∈ infile -> elem_tag e = "node" /\ elem_id e < WAY_OFFSET) ->
  build_ways_training_data language_rtree infile = [].
Proof.
  intros Hnodes. unfold build_ways_training_data.
  assert (Hnone : parse_osm infile WAYS_RELATIONS = []).
  { unfold parse_osm. induction infile as [|e infile IH]; [done|].
    simpl. destruct (Hnodes e) as [Htag Hid]; [left|].
    unfold parse_osm_elem at 1. rewrite decode_id_cases, Htag.
    unfold WAY_OFFSET in Hid. destruct (Z.ltb_spec (elem_id e) (10 ^ 15)); [|lia].
    rewrite bool_decide_eq_false_2 by (by vm_compute).
    apply IH. intros e' He'. apply Hnodes. by right. }
  by rewrite Hnone.
Qed.

Lemma build_ways_skips_nodes_witness :
  @build_ways_training_data (Sample.belgium Sample.first_candidate) tt
    [ {| elem_tag := "node"; elem_id := 5;
         elem_attrib := [("lat", "50.85"); ("lon", "4.35")];
         elem_tags := [("name:en", "Main Street")] |} ] = [].
Proof.
  apply (@build_ways_skips_nodes (Sample.belgium Sample.first_candidate) tt).
  intros e He. apply list_elem_of_singleton in He as ->. split; [reflexivity|].
  unfold WAY_OFFSET. simpl. lia.
Defined.

(** ** More on the attribution engine *)

(** A property of the calls made so far that every turn keeps is kept by the
    loop, whether it returns early or not. *)
Lemma for_each_calls {A S : Type} (body : S -> A -> Eff S) (P : list call -> Prop)
    (l : list A) :
  (forall st x log, x ∈ l -> P log -> P (body st x log).2) ->
  forall st log, P log -> P (for_each body l st log).2.
Proof.
  induction l as [|x l IH]; intros Hbody st log HP; [done|].
  rewrite for_each_cons.
  pose proof (Hbody st x log ltac:(left) HP) as Hx.
  destruct (body st x log) as [[st'|] log']; [|done].
  apply IH; [|done]. intros ? ? ? ?. apply Hbody. by right.
Qed.

Section Turns.
Context `{Collaborators}.

Implicit Types (value : tagdict) (cands : list CandidateLanguage)
  (language_props : list AdminLanguageProps).

(** What one turn of the main loop can do: it makes at most one call, on the
    text of the tag and with two candidates or more, and if it goes on, the
    map is unchanged or has the text of the tag appended under one key. *)
Lemma attribute_tag_turn (prefix : string) value cands language_props
    (k v : string) st (log : list call) :
  cands <> [] ->
  exists res log',
    attribute_tag (attribution_context_of prefix value cands language_props) st (k, v) log
    = (res, log')
    /\ (log' = log
        \/ exists langs, log' = (log ++ [(v, langs)])%list /\ (2 <= length langs)%nat)
    /\ forall st', res = Some st' ->
         st'.1 = st.1 \/ exists x, st'.1 = dd_append st.1 x v.
Proof.
  intros Hne.
  destruct (attribution_context_of_fields prefix value cands language_props)
    as (Hp & Hc & _ & _ & He & Ha & _).
  destruct st as [name_language seen]. unfold attribute_tag. rewrite Hp, Hc, He, Ha.
  destruct (PyStr.startswith k (prefix +:+ ":")).
  - destruct (decide (v ∈ ambiguous_of (collect_alternates prefix value).2)) as [Hv|Hv].
    + rewrite (bool_decide_eq_true_2 _ Hv). cbn [negb].
      destruct (negb (bool_decide (v ∈ seen))).
      * rewrite eff_bind_eq. unfold call_disambiguate_language.
        eexists _, _. split; [reflexivity|]. split.
        -- right. eexists. split; [reflexivity|].
           rewrite length_map. apply ambiguous_of_spec in Hv. lia.
        -- intros st' [= <-]. simpl. destruct (_ && _); eauto.
      * eexists _, _. split; [reflexivity|]. split; [by left|].
        intros st' [= <-]. by left.
    + rewrite (bool_decide_eq_false_2 _ Hv). cbn [negb].
      destruct (_ || _); eexists _, _; (split; [reflexivity|]); (split; [by left|]);
        intros st' [= <-]; simpl; eauto.
  - destruct (_ && is_bare prefix k).
    + case_bool_decide as Hone.
      * eexists _, _. split; [reflexivity|]. split; [by left|].
        intros st' [= <-]. simpl. eauto.
      * rewrite eff_bind_eq. unfold call_disambiguate_language.
        assert (Hlen : (2 <= length (map (fun l => (lang l, is_default l)) cands))%nat).
        { rewrite length_map. destruct cands as [|c1 [|c2 cands']]; simpl in *; [done|done|lia]. }
        repeat (match goal with
                | |- context [if ?b then _ else _] => destruct b
                end);
          eexists _, _; (split; [reflexivity|]);
          (split; [right; eexists; split; [reflexivity|exact Hlen]|]);
          intros st' Hst'; try discriminate; injection Hst' as <-; simpl; eauto.
    + eexists _, _. split; [reflexivity|]. split; [by left|].
      intros st' [= <-]. by left.
Qed.

(** With alternates on the element no turn returns early; a call is on a
    text shared by alternates; what was attributed stays; and the text of an
    alternate that shares it with no other is attributed to its suffix. *)
Lemma attribute_tag_with_alternates (prefix : string) value cands language_props
    (k w : string) st (log : list call) :
  (collect_alternates prefix value).1 <> [] ->
  let c := attribution_context_of prefix value cands language_props in
  exists st' log',
    attribute_tag c st (k, w) log = (Some st', log')
    /\ (log' = log
        \/ w ∈ ambiguous_alternatives c /\ exists langs, log' = (log ++ [(w, langs)])%list)
    /\ (forall l x, x ∈ dd_get st.1 l -> x ∈ dd_get st'.1 l)
    /\ (is_alternate prefix k = true -> w ∉ ambiguous_alternatives c ->
        w ∈ dd_get st'.1 (PyStr.split_last ":" k)).
Proof.
  intros Hsome c.
  destruct (attribution_context_of_fields prefix value cands language_props)
    as (Hp & _ & _ & Hh & _).
  fold c in Hp, Hh.
  destruct st as [name_language seen]. unfold attribute_tag. rewrite Hp, Hh.
  destruct (PyStr.startswith k (prefix +:+ ":")) eqn:Hpre.
  - destruct (decide (w ∈ ambiguous_alternatives c)) as [Hw|Hw].
    + rewrite (bool_decide_eq_true_2 _ Hw). cbn [negb].
      destruct (negb (bool_decide (w ∈ seen))).
      * rewrite eff_bind_eq. unfold call_disambiguate_language.
        eexists _, _. split; [reflexivity|]. split; [right; eauto|].
        split; [|done]. intros l x Hx. simpl.
        destruct (_ && _); [by apply dd_get_append_mono|done].
      * eexists _, _. split; [reflexivity|]. split; [by left|]. done.
    + rewrite (bool_decide_eq_false_2 _ Hw). cbn [negb].
      destruct (_ || _) eqn:Hor.
      * eexists _, _. split; [reflexivity|]. split; [by left|]. split.
        -- intros l x. apply dd_get_append_mono.
        -- intros _ _. simpl. unfold normalize_osm_name_tag. simpl.
           rewrite dd_get_append, decide_True by done.
           apply elem_of_app. right. by apply list_elem_of_singleton.
      * eexists _, _. split; [reflexivity|]. split; [by left|]. split; [done|].
        intros Halt _. exfalso. unfold is_alternate in Halt.
        apply andb_true_iff in Halt as [_ Hk]. apply orb_false_iff in Hor as [_ Hs].
        congruence.
  - rewrite bool_decide_eq_false_2.
    2:{ by destruct (collect_alternates prefix value).1. }
    cbn [andb]. eexists _, _. split; [reflexivity|]. split; [by left|].
    split; [done|]. intros Halt. apply is_alternate_startswith in Halt. congruence.
Qed.

(** A turn that goes on leaves the map as it is, or appends the text of its
    tag under one key; the tag is then of the prefix family: [prefix:<suffix>],
    or a bare tag in the sense of line 289. *)
Lemma attribute_tag_appends (c : attribution_context) (k v : string) st st'
    (log log' : list call) :
  attribute_tag c st (k, v) log = (Some st', log') ->
  st'.1 = st.1
  \/ exists x, st'.1 = dd_append st.1 x v
       /\ (PyStr.startswith k (tag_prefix c +:+ ":") = true
           \/ is_bare (tag_prefix c) k = true).
Proof.
  destruct st as [name_language seen]. unfold attribute_tag.
  destruct (PyStr.startswith k (tag_prefix c +:+ ":")) eqn:Hpre.
  - destruct (negb (bool_decide (v ∈ ambiguous_alternatives c))).
    + destruct (_ || _); intros [= <- _]; simpl; eauto.
    + destruct (negb (bool_decide (v ∈ seen))).
      * rewrite eff_bind_eq. unfold call_disambiguate_language.
        intros [= <- _]. simpl. destruct (_ && _); eauto.
      * intros [= <- _]. by left.
  - destruct (bool_decide (has_alternate_names c = 0%nat)); cbn [andb].
    2:{ intros [= <- _]. by left. }
    destruct (is_bare (tag_prefix c) k) eqn:Hbare.
    2:{ intros [= <- _]. by left. }
    case_bool_decide as Hone.
    + intros [= <- _]. simpl. eauto.
    + rewrite eff_bind_eq. unfold call_disambiguate_language.
      repeat (match goal with
              | |- context [if ?b then _ else _] => destruct b
              end);
        intros Hst'; try discriminate; injection Hst' as <- _; simpl; eauto.
Qed.

(** Every text the main loop attributes is the value of a tag of the prefix
    family. *)
Lemma attribute_loop_texts (c : attribution_context) (value : tagdict) st
    (log : list call) :
  for_each (attribute_tag c) value (∅, ∅) [] = (Some st, log) ->
  forall l x, x ∈ dd_get st.1 l ->
    exists k, (k, x) ∈ value
      /\ (PyStr.startswith k (tag_prefix c +:+ ":") = true
          \/ is_bare (tag_prefix c) k = true).
Proof.
  intros Hrun.
  refine (for_each_inv_result (attribute_tag c)
            (fun st => forall l x, x ∈ dd_get st.1 l ->
               exists k, (k, x) ∈ value
                 /\ (PyStr.startswith k (tag_prefix c +:+ ":") = true
                     \/ is_bare (tag_prefix c) k = true))
            value _ (∅, ∅) [] st log _ Hrun).
  - intros st0 [k v] log0 st1 log1 Hkv Hinv Hbody l x.
    destruct (attribute_tag_appends _ _ _ _ _ _ _ Hbody) as [->|(y & -> & Htag)];
      [apply Hinv|].
    rewrite dd_get_append. destruct (decide (y = l)) as [->|_]; [|apply Hinv].
    intros [Hx|Hx%list_elem_of_singleton]%elem_of_app; [by eapply Hinv|].
    subst x. eauto.
  - intros l x. unfold dd_get. simpl. rewrite lookup_empty. simpl. intros Hx. inversion Hx.
Qed.

End Turns.

Section Engine.
Context `{Collaborators}.

Implicit Types (value : tagdict) (cands : list CandidateLanguage)
  (language_props : list AdminLanguageProps).

(** X6. An element with no [lat] or no [lon] tag makes the function return
    None without a call to the disambiguation function; and whenever the
    function returns a map, the element has both tags, their texts parse as
    coordinates, and the geo index gave for that point the returned country,
    not empty, and at least one candidate language. *)
Theorem get_language_names_needs_location (language_rtree : rtree) (key : osm_key)
    value (prefix : string) :
  (OD.get "lat" value = None \/ OD.get "lon" value = None ->
   run (get_language_names language_rtree key value prefix) = (None, []))
  /\ forall country name_language,
       (run (get_language_names language_rtree key value prefix)).1
       = Some (country, name_language) ->
       exists lat lon latitude longitude cands language_props,
         OD.get "lat" value = Some lat
         /\ OD.get "lon" value = Some lon
         /\ Coord.latlon_to_floats lat lon = Some (latitude, longitude)
         /\ country_and_languages language_rtree latitude longitude
            = (Some country, cands, language_props)
         /\ country <> ""
         /\ cands <> [].
Proof.
  split.
  - intros Hmissing. unfold run, get_language_names, locate, OD.mem.
    destruct Hmissing as [-> | ->]; [done|].
    by destruct (OD.get "lat" value).
  - intros country name_language. unfold run, get_language_names.
    destruct (locate language_rtree value) as [[[country' cands] language_props]|] eqn:Hloc;
      [|discriminate].
    rewrite eff_bind_eq.
    destruct (attribute _ _ _ _ _) as [[nl|] log]; [|discriminate].
    intros [= <- _]. revert Hloc. unfold locate.
    destruct (negb _); [discriminate|].
    destruct (OD.get "lat" value) as [lat|] eqn:Hlat; [|discriminate].
    destruct (OD.get "lon" value) as [lon|] eqn:Hlon; [|discriminate]. simpl.
    destruct (Coord.latlon_to_floats lat lon) as [[latitude longitude]|] eqn:Hcoords;
      [|discriminate].
    simpl.
    destruct (country_and_languages language_rtree latitude longitude)
      as [[c cs] ps] eqn:Hgeo.
    destruct c as [[|a c]|]; try discriminate; destruct cs as [|cl cs]; try discriminate.
    intros [= <- <- <-].
    exists lat, lon, latitude, longitude, (cl :: cs), ps.
    repeat split; done.
Qed.

(** X7. The disambiguation function is never called with fewer than two
    candidate languages, and the text of every call is the value of a tag of
    the element. *)
Theorem disambiguation_calls_have_two_candidates (language_rtree : rtree)
    (key : osm_key) value (prefix : string) (text : string)
    (langs : list (string * bool)) :
  (text, langs) ∈ (run (get_language_names language_rtree key value prefix)).2 ->
  (2 <= length langs)%nat /\ exists k, (k, text) ∈ value.
Proof.
  unfold run.
  destruct (locate language_rtree value) as [[[country cands] language_props]|] eqn:Hloc.
  2:{ unfold get_language_names. rewrite Hloc. intros Hin. inversion Hin. }
  rewrite (get_language_names_located _ _ _ _ _ _ _ _ Hloc).
  apply locate_inv in Hloc as [Hne _].
  set (body := attribute_tag (attribution_context_of prefix value cands language_props)).
  pose proof (for_each_calls body
                (fun log => forall c, c ∈ log ->
                   (2 <= length c.2)%nat /\ exists k, (k, c.1) ∈ value)
                value) as Hcalls.
  intros Hin.
  assert (Hlog : forall c, c ∈ (for_each body value (∅, ∅) []).2 ->
            (2 <= length c.2)%nat /\ exists k, (k, c.1) ∈ value).
  { apply Hcalls.
    - intros st [k v] log Hkv Hold c.
      destruct (attribute_tag_turn prefix value cands language_props k v st log Hne)
        as (res & log' & Hturn & [->|(ls & -> & Hlen)] & _);
        fold body in Hturn; rewrite Hturn; simpl; [apply Hold|].
      intros [Hc|Hc%list_elem_of_singleton]%elem_of_app; [by apply Hold|].
      subst c. simpl. split; [done|]. eauto.
    - intros c Hc. inversion Hc. }
  destruct (for_each body value (∅, ∅) []) as [[st|] log]; exact (Hlog _ Hin).
Qed.

(** X8. Every text in the map the function returns is the value of a tag of
    the element, and that tag is of the prefix family: [prefix:<suffix>], or
    a bare tag (its key starts with the first component of the prefix, has a
    colon only if the prefix has one, and ends, the script part apart, with
    the last component of the prefix). *)
Theorem attributed_texts_are_tag_values (language_rtree : rtree) (key : osm_key)
    value (prefix country : string) (name_language : gmap string (list string))
    (log : list call) (l x : string) :
  run (get_language_names language_rtree key value prefix)
  = (Some (country, name_language), log) ->
  x ∈ dd_get name_language l ->
  exists k, (k, x) ∈ value
    /\ (PyStr.startswith k (prefix +:+ ":") = true \/ is_bare prefix k = true).
Proof.
  unfold run.
  destruct (locate language_rtree value) as [[[country' cands] language_props]|] eqn:Hloc.
  2:{ unfold get_language_names. rewrite Hloc. discriminate. }
  rewrite (get_language_names_located _ _ _ _ _ _ _ _ Hloc).
  destruct (for_each _ _ _ _) as [[st|] log'] eqn:Hrun; [|discriminate].
  intros [= _ <- _] Hx.
  destruct (attribute_loop_texts _ _ _ _ Hrun _ _ Hx) as (k & Hk & Htag).
  destruct (attribution_context_of_fields prefix value cands language_props) as (Hp & _).
  rewrite Hp in Htag. eauto.
Qed.

(** X9. An element that has an alternate is never rejected: the function
    returns a map, and every call it made was on a text that two alternates
    or more share. *)
Theorem alternates_are_never_rejected (language_rtree : rtree) (key : osm_key) value
    (prefix country : string) cands language_props :
  locate language_rtree value = Some (country, cands, language_props) ->
  (collect_alternates prefix value).1 <> [] ->
  exists name_language log,
    run (get_language_names language_rtree key value prefix)
    = (Some (country, name_language), log)
    /\ forall text langs, (text, langs) ∈ log ->
         (1 < length (filter (fun kv : string * string =>
                                is_alternate prefix kv.1 = true /\ kv.2 = text) value))%nat.
Proof.
  intros Hloc Hsome. unfold run.
  rewrite (get_language_names_located _ _ _ _ _ _ _ _ Hloc).
  set (c := attribution_context_of prefix value cands language_props).
  destruct (for_each_inv (attribute_tag c)
              (fun _ log => forall call, call ∈ log -> call.1 ∈ ambiguous_alternatives c)
              value)
    with (st := (∅, ∅) : gmap string (list string) * gset string) (log := @nil call)
    as (st & log & -> & Hlog).
  - intros st [k w] log _ Hold.
    destruct (attribute_tag_with_alternates prefix value cands language_props k w st log
                Hsome) as (st' & log' & Hturn & Hcall & _).
    exists st', log'. split; [exact Hturn|].
    destruct Hcall as [->|[Hw [langs ->]]]; [done|].
    intros call [Hc|Hc%list_elem_of_singleton]%elem_of_app; [by apply Hold|by subst call].
  - intros call Hc. inversion Hc.
  - exists st.1, log. split; [done|]. intros text langs Hin.
    specialize (Hlog _ Hin). simpl in Hlog.
    destruct (attribution_context_of_fields prefix value cands language_props)
      as (_ & _ & _ & _ & _ & Ha & _).
    fold c in Ha. rewrite Ha in Hlog. apply ambiguous_of_spec in Hlog.
    destruct (collect_alternates_spec prefix value) as [_ Hspec].
    rewrite Hspec, length_map in Hlog. exact Hlog.
Qed.

End Engine.

Lemma get_language_names_needs_location_witness :
  run (@get_language_names (Sample.belgium Sample.first_candidate) tt (KeyId 7)
         [("lon", "4.35"); ("name", "Main Street")] "name") = (None, []).
Proof.
  apply (@get_language_names_needs_location (Sample.belgium Sample.first_candidate) tt
           (KeyId 7) [("lon", "4.35"); ("name", "Main Street")] "name").
  left. reflexivity.
Defined.

Lemma disambiguation_calls_have_two_candidates_witness :
  (2 <= length [("en", false); ("fr", true)])%nat
  /\ exists k, (k, "Rue X") ∈ Sample.rue_x.
Proof.
  apply (@disambiguation_calls_have_two_candidates
           (Sample.belgium Sample.first_candidate) tt (KeyId 7) Sample.rue_x "name").
  vm_compute. left.
Defined.

Lemma attributed_texts_are_tag_values_witness :
  exists k, (k, "Lu") ∈ Sample.rue_x
    /\ (PyStr.startswith k ("name" +:+ ":") = true
        \/ is_bare "name" k = true).
Proof.
  apply (@attributed_texts_are_tag_values (Sample.belgium Sample.first_candidate) tt
           (KeyId 7) Sample.rue_x "name" "be"
           {["en" := ["Rue X"]; "zh_pinyin" := ["Lu"]]}
           [("Rue X", [("en", false); ("fr", true)])] "zh_pinyin" "Lu").
  - vm_compute. reflexivity.
  - vm_compute. left.
Defined.

Lemma alternates_are_never_rejected_witness :
  exists name_language log,
    run (@get_language_names (Sample.belgium (Sample.always "xxx")) tt (KeyId 7)
           Sample.rue_x "name")
    = (Some ("be", name_language), log)
    /\ forall text langs, (text, langs) ∈ log ->
         (1 < length (filter (fun kv : string * string =>
                                @is_alternate (Sample.belgium (Sample.always "xxx"))
                                  "name" kv.1 = true /\ kv.2 = text) Sample.rue_x))%nat.
Proof.
  apply (@alternates_are_never_rejected (Sample.belgium (Sample.always "xxx")) tt (KeyId 7)
           Sample.rue_x "name" "be" Sample.belgium_cands Sample.belgium_props).
  - reflexivity.
  - vm_compute. discriminate.
Defined.

Section Direct.
Context `{Collaborators}.

Implicit Types (value : tagdict) (cands : list CandidateLanguage)
  (language_props : list AdminLanguageProps).

(** X10. The text of an alternate that no other alternate of the element
    shares is attributed directly: the function returns a map in which the
    text stands under the suffix of its tag, and it makes no call to the
    disambiguation function with that text. *)
Theorem unshared_alternate_attributed_directly (language_rtree : rtree) (key : osm_key)
    value (prefix country : string) cands language_props (k v : string) :
  locate language_rtree value = Some (country, cands, language_props) ->
  (k, v) ∈ value ->
  is_alternate prefix k = true ->
  (length (filter (fun kv : string * string =>
                     is_alternate prefix kv.1 = true /\ kv.2 = v) value) <= 1)%nat ->
  exists name_language log,
    run (get_language_names language_rtree key value prefix)
    = (Some (country, name_language), log)
    /\ v ∈ dd_get name_language (PyStr.split_last ":" k)
    /\ forall langs, (v, langs) ∉ log.
Proof.
  intros Hloc Hkv Halt Hunshared. unfold run.
  rewrite (get_language_names_located _ _ _ _ _ _ _ _ Hloc).
  set (c := attribution_context_of prefix value cands language_props).
  assert (Hsome : (collect_alternates prefix value).1 <> []).
  { destruct (collect_alternates_spec prefix value) as [-> _].
    intros Hnil. apply map_eq_nil in Hnil.
    assert (Hin : (k, v) ∈ filter (fun kv : string * string =>
                                     is_alternate prefix kv.1 = true) value).
    { by apply list_elem_of_filter. }
    rewrite Hnil in Hin. inversion Hin. }
  assert (Hv : v ∉ ambiguous_alternatives c).
  { destruct (attribution_context_of_fields prefix value cands language_props)
      as (_ & _ & _ & _ & _ & Ha & _).
    fold c in Ha. rewrite Ha, ambiguous_of_spec.
    destruct (collect_alternates_spec prefix value) as [_ ->].
    rewrite length_map. lia. }
  assert (Hturn : forall k0 w0 st log,
    (forall langs, (v, langs) ∉ log) ->
    exists st' log',
      attribute_tag c st (k0, w0) log = (Some st', log')
      /\ (forall langs, (v, langs) ∉ log')
      /\ (forall l x, x ∈ dd_get st.1 l -> x ∈ dd_get st'.1 l)
      /\ (is_alternate prefix k0 = true -> w0 = v ->
          v ∈ dd_get st'.1 (PyStr.split_last ":" k0))).
  { intros k0 w0 st log Hlog.
    destruct (attribute_tag_with_alternates prefix value cands language_props k0 w0 st log
                Hsome) as (st' & log' & Hstep & Hcall & Hmono & Hdirect).
    exists st', log'. split; [exact Hstep|]. split; [|split; [exact Hmono|]].
    - destruct Hcall as [->|[Hw [langs0 ->]]]; [done|].
      intros langs [Hin|Hin%list_elem_of_singleton]%elem_of_app; [by eapply Hlog|].
      injection Hin as -> _. done.
    - intros Halt0 ->. by apply Hdirect. }
  apply list_elem_of_split in Hkv as (l1 & l2 & Hvalue).
  rewrite Hvalue, for_each_app.
  destruct (for_each_inv (attribute_tag c) (fun _ log => forall langs, (v, langs) ∉ log) l1)
    with (st := (∅, ∅) : gmap string (list string) * gset string) (log := @nil call)
    as (st1 & log1 & -> & Hlog1).
  { intros st [k0 w0] log _ Hlog.
    destruct (Hturn k0 w0 st log Hlog) as (st' & log' & ? & ? & _). eauto. }
  { intros langs Hin. inversion Hin. }
  rewrite for_each_cons.
  destruct (Hturn k v st1 log1 Hlog1) as (st2 & log2 & -> & Hlog2 & _ & Hin2).
  specialize (Hin2 Halt eq_refl).
  destruct (for_each_inv (attribute_tag c)
              (fun st log => (forall langs, (v, langs) ∉ log)
                             /\ v ∈ dd_get st.1 (PyStr.split_last ":" k)) l2)
    with (st := st2) (log := log2) as (st3 & log3 & -> & Hlog3 & Hin3).
  { intros st [k0 w0] log _ [Hlog Hin].
    destruct (Hturn k0 w0 st log Hlog) as (st' & log' & ? & ? & Hmono & _).
    exists st', log'. split; [done|]. split; [done|]. by apply Hmono. }
  { by split. }
  exists st3.1, log3. done.
Qed.

(** X11. In the bare-tag fallback with several candidate languages, when the
    function returns a map, the disambiguation function was called with the
    bare tag's text and all the candidates, its answer was not ambiguous, and
    the text stands under the answer, or, when the answer is unknown (the
    candidates then have exactly one default language), under the top-ranked
    candidate. *)
Theorem bare_tag_attributed_to_answer (language_rtree : rtree) (key : osm_key) value
    (prefix country : string) cands language_props (k v : string)
    (name_language : gmap string (list string)) (log : list call) :
  locate language_rtree value = Some (country, cands, language_props) ->
  (collect_alternates prefix value).1 = [] ->
  (k, v) ∈ value ->
  PyStr.startswith k (prefix +:+ ":") = false ->
  is_bare prefix k = true ->
  length cands <> 1%nat ->
  run (get_language_names language_rtree key value prefix)
  = (Some (country, name_language), log) ->
  let langs := map (fun l => (lang l, is_default l)) cands in
  let answer := disambiguate_language v langs in
  let defaults : gset string :=
    list_to_set (map lang (filter (fun l => is_default l = true) cands)) in
  (v, langs) ∈ log
  /\ answer <> AMBIGUOUS_LANGUAGE
  /\ (answer = UNKNOWN_LANGUAGE ->
      size defaults = 1%nat /\ v ∈ dd_get name_language (first_lang cands))
  /\ (answer <> UNKNOWN_LANGUAGE -> v ∈ dd_get name_language answer).
Proof.
  intros Hloc Hnone Hkv Hpre Hbare Hlen. unfold run.
  rewrite (get_language_names_located _ _ _ _ _ _ _ _ Hloc).
  pose proof (locate_inv _ _ _ _ _ Hloc) as [Hne _].
  set (c := attribution_context_of prefix value cands language_props).
  intros Hrun. cbv zeta.
  set (langs := map (fun l => (lang l, is_default l)) cands).
  set (answer := disambiguate_language v langs).
  set (defaults := (list_to_set (map lang (filter (fun l => is_default l = true) cands)) : gset string)).
  destruct (for_each (attribute_tag c) value (∅, ∅) []) as [[st|] log0] eqn:Hloop;
    [|discriminate].
  injection Hrun as <- <-.
  apply list_elem_of_split in Hkv as (l1 & l2 & Hvalue).
  rewrite Hvalue, for_each_app in Hloop.
  destruct (for_each (attribute_tag c) l1 (∅, ∅) []) as [[st1|] log1] eqn:Hloop1;
    [|discriminate].
  rewrite for_each_cons in Hloop.
  pose proof (attribute_tag_fallback prefix value cands language_props k v st1 log1
                Hnone Hpre Hbare Hlen) as Hstep.
  cbv zeta in Hstep. fold c langs answer in Hstep.
  destruct (attribution_context_of_fields prefix value cands language_props)
    as (_ & _ & Hd & _).
  fold c in Hd. rewrite Hd in Hstep. fold defaults in Hstep.
  destruct (attribute_tag c st1 (k, v) log1) as [[st2|] log2] eqn:Hturn; [|discriminate].
  (* what the loop keeps after the turn on the bare tag *)
  assert (Hkeep : forall l,
    (v, langs) ∈ log2 -> v ∈ dd_get st2.1 l ->
    (v, langs) ∈ log0 /\ v ∈ dd_get st.1 l).
  { intros l Hcall Hin.
    pose proof (for_each_calls (attribute_tag c) (fun log => (v, langs) ∈ log) l2) as Hcalls.
    split.
    - specialize (Hcalls ltac:(
        intros st0 [k0 v0] log3 _ Hold;
        destruct (attribute_tag_turn prefix value cands language_props k0 v0 st0 log3 Hne)
          as (res & log4 & Hturn0 & [->|(ls & -> & _)] & _);
        fold c in Hturn0; rewrite Hturn0; simpl; [done|];
        apply elem_of_app; by left) st2 log2 Hcall).
      by rewrite Hloop in Hcalls.
    - refine (for_each_inv_result (attribute_tag c) (fun st => v ∈ dd_get st.1 l) l2
                _ st2 log2 st log0 Hin Hloop).
      intros st0 [k0 v0] log3 st4 log4 _ Hold Hbody.
      destruct (attribute_tag_turn prefix value cands language_props k0 v0 st0 log3 Hne)
        as (res & log5 & Hturn0 & _ & Hmap).
      fold c in Hturn0. rewrite Hbody in Hturn0. injection Hturn0 as <- <-.
      destruct (Hmap st4 eq_refl) as [->|[y ->]]; [done|].
      by apply dd_get_append_mono. }
  assert (Hself : forall (d : gmap string (list string)) (y : string),
            v ∈ dd_get (dd_append d y v) y).
  { intros d y. rewrite dd_get_append, decide_True by done.
    apply elem_of_app. right. by apply list_elem_of_singleton. }
  assert (Hcalled : (v, langs) ∈ (log1 ++ [(v, langs)])%list).
  { apply elem_of_app. right. by apply list_elem_of_singleton. }
  revert Hstep. case_bool_decide as Hamb; [discriminate|].
  destruct (decide (answer = UNKNOWN_LANGUAGE)) as [Hunk|Hunk].
  - rewrite (bool_decide_eq_true_2 _ Hunk). cbn [andb].
    case_bool_decide as Hone.
    + intros [= -> ->].
      destruct (Hkeep (first_lang cands)) as [Hcall Hin]; [exact Hcalled|apply Hself|].
      split; [done|]. split; [done|]. split; [done|]. intros Hn. by destruct Hn.
    + rewrite (bool_decide_eq_false_2 (answer ≠ UNKNOWN_LANGUAGE)) by (intros Hn; by apply Hn).
      discriminate.
  - rewrite (bool_decide_eq_false_2 _ Hunk). cbn [andb].
    rewrite (bool_decide_eq_true_2 (answer ≠ UNKNOWN_LANGUAGE)) by done.
    destruct (_ && _); [discriminate|].
    intros [= -> ->].
    destruct (Hkeep answer) as [Hcall Hin]; [exact Hcalled|apply Hself|].
    split; [done|]. split; [done|]. split; [intros ?; done|done].
Qed.

End Direct.

Lemma unshared_alternate_attributed_directly_witness :
  exists name_language log,
    run (@get_language_names (Sample.belgium Sample.first_candidate) tt (KeyId 7)
           Sample.rue_x "name")
    = (Some ("be", name_language), log)
    /\ "Lu" ∈ dd_get name_language (PyStr.split_last ":" "name:zh_pinyin")
    /\ forall langs, ("Lu", langs) ∉ log.
Proof.
  apply (@unshared_alternate_attributed_directly (Sample.belgium Sample.first_candidate) tt
           (KeyId 7) Sample.rue_x "name" "be" Sample.belgium_cands Sample.belgium_props
           "name:zh_pinyin" "Lu").
  - reflexivity.
  - by_compute.
  - reflexivity.
  - vm_compute. lia.
Defined.

Lemma bare_tag_attributed_to_answer_witness :
  let W := Sample.belgium Sample.first_candidate in
  let langs := map (fun l => (lang l, is_default l)) Sample.belgium_cands in
  (("Main Street", langs) ∈ [("Main Street", langs)])
  /\ @disambiguate_language W "Main Street" langs <> @AMBIGUOUS_LANGUAGE W
  /\ "Main Street" ∈ dd_get ({["nl" := ["Main Street"]]} : gmap string (list string)) "nl".
Proof.
  destruct (@bare_tag_attributed_to_answer (Sample.belgium Sample.first_candidate) tt
              (KeyId 7) Sample.main_street "name" "be" Sample.belgium_cands
              Sample.belgium_props "name" "Main Street" {["nl" := ["Main Street"]]}
              [("Main Street", map (fun l => (lang l, is_default l)) Sample.belgium_cands)])
    as (Hcall & Hamb & _ & Hin);
    [first [reflexivity | by_compute | (vm_compute; reflexivity)] ..|].
  split; [exact Hcall|]. split; [exact Hamb|].
  apply Hin. by_compute.
Defined.

(** ** Stripped keys and the tag bag of the limited builder *)

Lemma fold_left_invariant {A B : Type} (f : B -> A -> B) (I : B -> Prop) (l : list A) (b : B) :
  (forall b x, x ∈ l -> I b -> I (f b x)) -> I b -> I (fold_left f l b).
Proof.
  revert b. induction l as [|x l IH]; intros b Hf Hb; [done|].
  simpl. apply IH.
  - intros b' y Hy. apply Hf. by right.
  - apply Hf; [by left|done].
Qed.

Lemma filter_all {A : Type} (P : A -> Prop) `{!forall x, Decision (P x)} (l : list A) :
  (forall x, x ∈ l -> P x) -> filter P l = l.
Proof.
  induction l as [|x l IH]; intros Hall; [done|].
  rewrite filter_cons, decide_True by (apply Hall; left).
  f_equal. apply IH. intros y Hy. apply Hall. by right.
Qed.

Lemma od_pop_filter {V : Type} (d : list (string * V)) (k : string) :
  NoDup (OD.keys d) -> OD.pop k d = filter (fun kv => kv.1 <> k) d.
Proof.
  unfold OD.keys. induction d as [|[k' v'] d IH]; simpl; [done|].
  intros [Hnin Hnd]%NoDup_cons. rewrite filter_cons. simpl.
  destruct (String.eqb_spec k' k) as [->|Hne].
  - rewrite decide_False by (intros Hn; by apply Hn).
    symmetry. apply filter_all. intros [k2 v2] Hin. simpl. intros ->. apply Hnin.
    apply list_elem_of_fmap. by exists (k, v2).
  - rewrite decide_True by done. f_equal. by apply IH.
Qed.

(** On a dictionary, stripping keys is a filter on the keys. *)
Lemma strip_keys_as_filter (value : tagdict) (ignore_keys : list string) :
  NoDup (OD.keys value) ->
  strip_keys value ignore_keys
  = filter (fun kv : string * string => kv.1 ∉ ignore_keys) value.
Proof.
  unfold strip_keys. revert value.
  induction ignore_keys as [|k ks IH]; intros value Hnd; simpl.
  - symmetry. apply filter_all. intros x _ Hx. inversion Hx.
  - rewrite IH by (by apply od_nodup_pop). rewrite od_pop_filter by done.
    rewrite list_filter_filter. apply list_filter_iff. intros [k' v']. simpl.
    rewrite not_elem_of_cons. tauto.
Qed.

Lemma od_get_filter_keys {V : Type} (P : string -> Prop) `{!forall k, Decision (P k)}
    (d : list (string * V)) (k : string) :
  OD.get k (filter (fun kv => P kv.1) d) = if decide (P k) then OD.get k d else None.
Proof.
  induction d as [|[k' v'] d IH]; simpl; [by destruct (decide (P k))|].
  rewrite filter_cons. simpl.
  destruct (String.eqb_spec k' k) as [->|Hne].
  - destruct (decide (P k)); simpl; [by rewrite String.eqb_refl|done].
  - destruct (decide (P k')); simpl; [|done].
    by apply String.eqb_neq in Hne as ->.
Qed.

(** X12. On a dictionary (no key twice), [strip_keys] removes every key to
    ignore and nothing else: a lookup of an ignored key finds nothing, every
    other lookup finds what it found before, and the entries left stand in
    their order. *)
Theorem strip_keys_removes_ignored (value : tagdict) (ignore_keys : list string) :
  NoDup (OD.keys value) ->
  (forall k, OD.get k (strip_keys value ignore_keys)
             = if decide (k ∈ ignore_keys) then None else OD.get k value)
  /\ sublist (strip_keys value ignore_keys) value.
Proof.
  intros Hnd. rewrite strip_keys_as_filter by done. split.
  - intros k.
    pose proof (od_get_filter_keys (fun k => k ∉ ignore_keys) value k) as Hget.
    simpl in Hget. rewrite Hget.
    destruct (decide (k ∈ ignore_keys)) as [Hin|Hnin].
    + by rewrite decide_False by (intros Hn; by apply Hn).
    + by rewrite decide_True.
  - apply sublist_filter.
Qed.

Lemma strip_keys_removes_ignored_witness :
  sublist (strip_keys [("house", "yes"); ("addr:street", "Main Street"); ("name", "Bar")]
                      (NAME_KEYS ++ OSM_IGNORE_KEYS))
          [("house", "yes"); ("addr:street", "Main Street"); ("name", "Bar")].
Proof.
  apply (strip_keys_removes_ignored
           [("house", "yes"); ("addr:street", "Main Street"); ("name", "Bar")]
           (NAME_KEYS ++ OSM_IGNORE_KEYS)).
  by_compute.
Defined.

Lemma localized_tags_keys (single_language : bool) (lang : string) (tags : tagdict)
    (k : string) :
  k ∈ OD.keys (localized_tags single_language lang tags) -> k ∈ OD.keys tags.
Proof.
  unfold localized_tags. revert k.
  apply (fold_left_invariant _ (fun d => forall k, k ∈ OD.keys d -> k ∈ OD.keys tags)).
  - intros d x Hx Hd k. simpl.
    destruct (OD.get (x +:+ ":" +:+ lang) d) as [v|].
    + destruct (decide (x ∈ OD.keys d)) as [Hin|Hnin].
      * rewrite od_keys_set by done. apply Hd.
      * rewrite od_keys_set_new by done.
        intros [Hk|Hk%list_elem_of_singleton]%elem_of_app; [by apply Hd|by subst k].
    + destruct (negb single_language); [|apply Hd].
      intros Hk. apply Hd. by apply (od_keys_pop_sub d x).
  - done.
Qed.

(** X13. The tag bag the limited builder formats for a language holds only
    keys of the element, and none of the name, country, postal and ignored
    keys. *)
Theorem limited_bag_without_removed_keys (value : tagdict) (single_language : bool)
    (lang k : string) :
  NoDup (OD.keys value) ->
  let remove_keys := (NAME_KEYS ++ COUNTRY_KEYS ++ POSTAL_KEYS ++ OSM_IGNORE_KEYS)%list in
  k ∈ OD.keys (localized_tags single_language lang (strip_keys value remove_keys)) ->
  k ∈ OD.keys value /\ k ∉ remove_keys.
Proof.
  intros Hnd remove_keys Hk. apply localized_tags_keys in Hk.
  rewrite strip_keys_as_filter in Hk by done.
  apply list_elem_of_fmap in Hk as ([k' v] & -> & Hin).
  apply list_elem_of_filter in Hin as [Hnot Hin]. split; [|done].
  apply list_elem_of_fmap. by exists (k', v).
Qed.

Lemma limited_bag_without_removed_keys_witness :
  "addr:street" ∈ OD.keys Sample.bilingual_address
  /\ "addr:street" ∉ (NAME_KEYS ++ COUNTRY_KEYS ++ POSTAL_KEYS ++ OSM_IGNORE_KEYS)%list.
Proof.
  apply (limited_bag_without_removed_keys Sample.bilingual_address false "fr" "addr:street").
  - by_compute.
  - by_compute.
Defined.

(** ** The toponym builder *)

Section ToponymNames.
Context `{Collaborators}.

(** The names of a tag [name:<suffix>] that the loop over the qualified names
    can attribute to the language [l]. *)
Local Abbreviation qualified_for value l s :=
  (exists tag : string, (tag, s) ∈ (value : tagdict)
     /\ PyStr.startswith tag "name:" = true
     /\ (l = normalize_osm_name_tag tag false \/ l = normalize_osm_name_tag tag true)).

(** What the loop over the qualified names builds: nothing as long as the
    flag is down, and only texts of qualified tags, under known and valid
    languages. *)
Lemma toponym_qualified_spec (valid_languages : gset string) (value : tagdict) :
  ((toponym_qualified valid_languages value).1 = false ->
   (toponym_qualified valid_languages value).2 = ∅)
  /\ forall k texts,
       (toponym_qualified valid_languages value).2 !! k = Some texts ->
       exists l, k = Some l /\ l ∈ languages /\ l ∈ valid_languages
         /\ forall s, s ∈ texts -> qualified_for value l s.
Proof.
  unfold toponym_qualified.
  apply (fold_left_invariant _
           (fun st : bool * gmap (option string) (list string) =>
              (st.1 = false -> st.2 = ∅)
              /\ forall k texts, st.2 !! k = Some texts ->
                   exists l, k = Some l /\ l ∈ languages /\ l ∈ valid_languages
                     /\ forall s, s ∈ texts -> qualified_for value l s)).
  - intros [have nl] [tag v] Htag [Hflag Hnl]. simpl in Hflag, Hnl. simpl.
    destruct (PyStr.startswith tag "name:") eqn:Hpre; simpl; [|done].
    assert (Hstep : forall l, l ∈ languages ->
              l = normalize_osm_name_tag tag false \/ l = normalize_osm_name_tag tag true ->
              let st' := if bool_decide (l ∈ valid_languages)
                         then (true, dd_append_opt nl (Some l) v) else (have, nl) in
              (st'.1 = false -> st'.2 = ∅)
              /\ forall k texts, st'.2 !! k = Some texts ->
                   exists l, k = Some l /\ l ∈ languages /\ l ∈ valid_languages
                     /\ forall s, s ∈ texts -> qualified_for value l s).
    { intros l Hknown Hl. simpl. case_bool_decide as Hvalid; [|done].
      simpl. split; [done|]. intros k texts. unfold dd_append_opt.
      destruct (decide (k = Some l)) as [->|Hne].
      - rewrite lookup_insert_eq. intros [= <-]. exists l. repeat (split; [done|]).
        intros s [Hs|Hs%list_elem_of_singleton]%elem_of_app.
        + destruct (nl !! Some l) as [old|] eqn:Hold; [|inversion Hs].
          destruct (Hnl _ _ Hold) as (l' & [= <-] & _ & _ & Hq). by apply Hq.
        + subst s. by exists tag.
      - rewrite lookup_insert_ne by done. apply Hnl. }
    case_bool_decide as Hnorm; [by apply Hstep; [|left]|].
    case_bool_decide as Hsans; [by apply Hstep; [|right]|done].
  - split; [done|]. intros k texts. simpl. by rewrite lookup_empty.
Qed.

(** The names the builder attributes on an element it does not skip: the bare
    name alone, under the first official language of the country, or only
    qualified names, under known languages that are valid for the point. *)
Lemma toponym_name_language_spec (language_rtree : rtree) (value : tagdict)
    (lat lon : string) (latitude longitude : Q) (country country' : string)
    (cands : list CandidateLanguage) (language_props : list AdminLanguageProps)
    (name_language : gmap (option string) (list string)) :
  OD.get "lat" value = Some lat ->
  OD.get "lon" value = Some lon ->
  Coord.latlon_to_floats lat lon = Some (latitude, longitude) ->
  country_and_languages language_rtree latitude longitude
  = (Some country, cands, language_props) ->
  toponym_name_language language_rtree value = Some (country', name_language) ->
  country' = country
  /\ ((exists name, OD.get "name" value = Some name
         /\ name_language = {[top_lang_of country := [name]]})
      \/ forall k texts, name_language !! k = Some texts ->
           exists l, k = Some l /\ l ∈ languages
             /\ l ∈ toponym_valid_languages country cands
             /\ forall s, s ∈ texts -> qualified_for value l s).
Proof.
  intros Hlat Hlon Hcoords Hgeo. unfold toponym_name_language.
  destruct (negb _); [discriminate|].
  rewrite Hlat, Hlon. simpl. rewrite Hcoords. simpl. rewrite Hgeo.
  destruct country as [|a country]; [discriminate|].
  destruct cands as [|cl cands]; [discriminate|].
  set (valid_languages := toponym_valid_languages _ _).
  destruct (bool_decide (valid_languages = ∅)); [discriminate|].
  pose proof (toponym_qualified_spec valid_languages value) as [Hflag Hnl].
  destruct (toponym_qualified valid_languages value) as [have nl]. simpl in Hflag, Hnl.
  intros [= <- <-]. split; [done|].
  destruct (OD.get "name" value) as [name|]; [|by right].
  destruct (negb have && _ && _) eqn:Hbare; [|by right].
  left. exists name. split; [done|].
  destruct have; [discriminate|]. rewrite Hflag by done.
  unfold dd_append_opt. rewrite lookup_empty. simpl. by rewrite insert_empty.
Qed.

(** X14. On an element the toponym builder does not skip, either the bare
    name alone is attributed, under the first official language of the
    country, or only names of [name:<suffix>] tags are, each under a known
    language that is valid for the point and that is the suffix of its tag,
    with or without the script part. *)
Theorem toponym_names_qualified_or_bare (language_rtree : rtree) (value : tagdict)
    (lat lon : string) (latitude longitude : Q) (country : string)
    (cands : list CandidateLanguage) (language_props : list AdminLanguageProps)
    (name_language : gmap (option string) (list string)) :
  OD.get "lat" value = Some lat ->
  OD.get "lon" value = Some lon ->
  Coord.latlon_to_floats lat lon = Some (latitude, longitude) ->
  country_and_languages language_rtree latitude longitude
  = (Some country, cands, language_props) ->
  toponym_name_language language_rtree value = Some (country, name_language) ->
  (exists name, OD.get "name" value = Some name
     /\ name_language = {[top_lang_of country := [name]]})
  \/ forall k texts, name_language !! k = Some texts ->
       exists l, k = Some l /\ l ∈ languages
         /\ l ∈ toponym_valid_languages country cands
         /\ forall s, s ∈ texts ->
              exists tag, (tag, s) ∈ value
                /\ PyStr.startswith tag "name:" = true
                /\ (l = normalize_osm_name_tag tag false
                    \/ l = normalize_osm_name_tag tag true).
Proof.
  intros Hlat Hlon Hcoords Hgeo Hnames.
  by destruct (toponym_name_language_spec _ _ _ _ _ _ _ _ _ _ _
                 Hlat Hlon Hcoords Hgeo Hnames) as [_ Hspec].
Qed.

(** The element has its coordinates and a point with a country whenever the
    builder does not skip it. *)
Lemma toponym_name_language_located (language_rtree : rtree) (value : tagdict)
    (country : string) (name_language : gmap (option string) (list string)) :
  toponym_name_language language_rtree value = Some (country, name_language) ->
  exists lat lon latitude longitude country' cands language_props,
    OD.get "lat" value = Some lat
    /\ OD.get "lon" value = Some lon
    /\ Coord.latlon_to_floats lat lon = Some (latitude, longitude)
    /\ country_and_languages language_rtree latitude longitude
       = (Some country', cands, language_props).
Proof.
  unfold toponym_name_language.
  destruct (negb _); [discriminate|].
  destruct (OD.get "lat" value) as [lat|] eqn:Hlat; [|discriminate].
  destruct (OD.get "lon" value) as [lon|] eqn:Hlon; [|discriminate]. simpl.
  destruct (Coord.latlon_to_floats lat lon) as [[latitude longitude]|] eqn:Hcoords;
    [|discriminate].
  simpl.
  destruct (country_and_languages language_rtree latitude longitude)
    as [[[c|] cs] ps] eqn:Hgeo; [|discriminate].
  intros _. by exists lat, lon, latitude, longitude, c, cs, ps.
Qed.

(** X15. Every row of the toponym builder carries the value of a tag of an
    element, stripped of the white space of Unicode around it and not empty
    once stripped: the value of a [name:<suffix>] tag, under a known
    language that is its suffix with or without the script part, or of the
    bare [name] tag, under the first official language of the country (an
    empty field when the country has none). *)
Theorem toponym_rows_from_name_tags (language_rtree : rtree) (infile : list element)
    (r : row) :
  In r (build_toponym_training_data language_rtree infile) ->
  exists key value tag s l country,
    In (key, value) (parse_osm infile ALL_OSM_TAGS)
    /\ (tag, s) ∈ value
    /\ PyStr.unicode_strip s <> ""
    /\ r = [l; country; tsv_string (PyStr.unicode_strip s)]
    /\ ((PyStr.startswith tag "name:" = true
         /\ l ∈ languages
         /\ (l = normalize_osm_name_tag tag false \/ l = normalize_osm_name_tag tag true))
        \/ (tag = "name" /\ l = default "" (top_lang_of country))).
Proof.
  unfold build_toponym_training_data. intros Hr.
  apply in_flat_map in Hr as ([key value] & Hparsed & Hr).
  destruct (toponym_name_language language_rtree value) as [[country nl]|] eqn:Hnames;
    [|destruct Hr].
  unfold toponym_rows in Hr.
  apply in_flat_map in Hr as ([k texts] & Hk & Hr).
  apply list_elem_of_In, elem_of_map_to_list in Hk.
  apply in_flat_map in Hr as (s & Hs%list_elem_of_In & Hr). simpl in Hr.
  case_bool_decide as Hblank; [destruct Hr|].
  destruct Hr as [<-|[]].
  destruct (toponym_name_language_located _ _ _ _ Hnames)
    as (lat & lon & latitude & longitude & country' & cands & props
        & Hlat & Hlon & Hcoords & Hgeo).
  destruct (toponym_name_language_spec _ _ _ _ _ _ _ _ _ _ _
              Hlat Hlon Hcoords Hgeo Hnames) as [-> [(name & Hname & ->)|Hspec]].
  - apply lookup_singleton_Some in Hk as [<- <-].
    apply list_elem_of_singleton in Hs as ->.
    exists key, value, "name", name, (default "" (top_lang_of country')), country'.
    repeat (split; [done|]).
    split; [by apply od_get_elem|]. split; [done|]. split; [done|]. by right.
  - destruct (Hspec _ _ Hk) as (l & -> & Hknown & _ & Hq).
    destruct (Hq _ Hs) as (tag & Htag & Hpre & Hl).
    exists key, value, tag, s, l, country'. simpl.
    split; [done|]. split; [done|]. split; [done|]. split; [done|]. by left.
Qed.

(** X16. For the toponym builder, a well-represented language outside its
    countries of origin is valid only as a default official language of the
    country, and not even so when the country has several default languages
    and its first official language is not well represented. *)
Theorem toponym_well_represented_valid (country : string)
    (cands : list CandidateLanguage) (l top : string) :
  top_lang_of country = Some top ->
  l ∈ WELL_REPRESENTED_LANGUAGES ->
  country ∉ WELL_REPRESENTED_LANGUAGE_COUNTRIES l ->
  let default_langs : gset string :=
    list_to_set (map fst (filter (fun ld : string * bool => ld.2 = true)
                                 (official_languages country))) in
  l ∈ toponym_valid_languages country cands
  <-> l ∈ default_langs
      /\ (top ∈ WELL_REPRESENTED_LANGUAGES \/ size default_langs = 1%nat).
Proof.
  intros Htop Hwell Hforeign default_langs.
  unfold toponym_valid_languages, toponym_default_langs. rewrite Htop.
  fold default_langs.
  assert (Hsize : l ∈ default_langs ->
            (size default_langs = 1 \/ 1 < size default_langs)%nat).
  { intros Hin. assert (size default_langs <> 0%nat); [|lia].
    intros Hz. apply size_empty_inv in Hz. set_solver. }
  destruct (decide (top ∈ WELL_REPRESENTED_LANGUAGES)) as [Hw|Hw].
  - rewrite (bool_decide_eq_true_2 _ Hw). cbn [negb andb]. set_solver.
  - rewrite (bool_decide_eq_false_2 _ Hw). cbn [negb andb].
    case_bool_decide as Hmany.
    + split; [set_solver|]. intros [_ [?|?]]; [done|lia].
    + split.
      * intros Hin. assert (Hd : l ∈ default_langs) by set_solver.
        split; [done|]. right. destruct (Hsize Hd); [done|lia].
      * set_solver.
Qed.

End ToponymNames.

Lemma toponym_names_qualified_or_bare_witness :
  (exists name, OD.get "name" Sample.pune_poona = Some name
     /\ ({[Some "hi" := ["Pune"]]} : gmap (option string) (list string))
        = {[@top_lang_of (Sample.india Sample.one_language_region) "in" := [name]]})
  \/ forall k texts,
       ({[Some "hi" := ["Pune"]]} : gmap (option string) (list string)) !! k = Some texts ->
       exists l, k = Some l /\ l ∈ @languages (Sample.india Sample.one_language_region)
         /\ l ∈ @toponym_valid_languages (Sample.india Sample.one_language_region)
                  "in" Sample.india_cands
         /\ forall s, s ∈ texts ->
              exists tag, (tag, s) ∈ Sample.pune_poona
                /\ PyStr.startswith tag "name:" = true
                /\ (l = normalize_osm_name_tag tag false
                    \/ l = normalize_osm_name_tag tag true).
Proof.
  apply (@toponym_names_qualified_or_bare (Sample.india Sample.one_language_region) tt
           Sample.pune_poona "18.52" "73.85" (1852 # 100) (7385 # 100) "in"
           Sample.india_cands Sample.one_language_region {[Some "hi" := ["Pune"]]});
    vm_compute; reflexivity.
Defined.

Lemma toponym_rows_from_name_tags_witness :
  exists key value tag s l country,
    In (key, value)
       (parse_osm [SampleElements.padded_place] ALL_OSM_TAGS)
    /\ (tag, s) ∈ value
    /\ PyStr.unicode_strip s <> ""
    /\ ["hi"; "in"; "Pune"]
       = [l; country; @tsv_string (Sample.india Sample.one_language_region) (PyStr.unicode_strip s)]
    /\ ((PyStr.startswith tag "name:" = true
         /\ l ∈ @languages (Sample.india Sample.one_language_region)
         /\ (l = normalize_osm_name_tag tag false \/ l = normalize_osm_name_tag tag true))
        \/ (tag = "name"
            /\ l = default "" (@top_lang_of (Sample.india Sample.one_language_region)
                                 country))).
Proof.
  apply (@toponym_rows_from_name_tags (Sample.india Sample.one_language_region) tt
           [SampleElements.padded_place] ["hi"; "in"; "Pune"]).
  vm_compute. left. reflexivity.
Defined.

Lemma toponym_well_represented_valid_witness :
  let W := Sample.world ["hi"; "en"] ["en"] [("hi", true); ("en", true)]
             (Sample.always "unk") (Some "in", Sample.india_cands, []) in
  "en" ∉ @toponym_valid_languages W "in" Sample.india_cands.
Proof.
  intros W Hin.
  apply (@toponym_well_represented_valid
           (Sample.world ["hi"; "en"] ["en"] [("hi", true); ("en", true)]
              (Sample.always "unk") (Some "in", Sample.india_cands, []))
           "in" Sample.india_cands "en" "hi") in Hin as [_ [Hw|Hone]].
  - revert Hw. by_compute.
  - revert Hone. vm_compute. discriminate.
  - reflexivity.
  - by_compute.
  - by_compute.
Defined.

(** ** The rows of the street, venue and formatted-address builders *)

Section BuilderTexts.
Context `{Collaborators}.

(** Every text a builder reads off the attribution is the value of a tag of
    the prefix family. *)
Lemma language_names_texts (language_rtree : rtree) (key : osm_key) (value : tagdict)
    (prefix country : string) (name_language : gmap string (list string))
    (l : string) (texts : list string) (x : string) :
  language_names language_rtree key value prefix = Some (country, name_language) ->
  name_language !! l = Some texts ->
  x ∈ texts ->
  exists k, (k, x) ∈ value
    /\ (PyStr.startswith k (prefix +:+ ":") = true \/ is_bare prefix k = true).
Proof.
  unfold language_names, run.
  destruct (locate language_rtree value) as [[[country' cands] language_props]|] eqn:Hloc.
  2:{ unfold get_language_names. rewrite Hloc. discriminate. }
  rewrite (get_language_names_located _ _ _ _ _ _ _ _ Hloc).
  destruct (for_each _ _ _ _) as [[st|] log'] eqn:Hrun; [|discriminate]. simpl.
  case_bool_decide; [discriminate|]. intros [= _ <-] Hl Hx.
  destruct (attribute_loop_texts _ _ _ _ Hrun l x) as (k & Hk & Htag).
  { unfold dd_get. by rewrite Hl. }
  destruct (attribution_context_of_fields prefix value cands language_props) as (Hp & _).
  rewrite Hp in Htag. eauto.
Qed.

(** X17. Every row of the address-streets builder carries the value of a tag
    of the [addr:street] family of an element, stripped of the white space of
    Unicode around it and never empty once stripped, under a known
    language. *)
Theorem address_rows_from_street_tags (language_rtree : rtree) (infile : list element)
    (r : row) :
  In r (build_address_training_data language_rtree infile) ->
  exists key value tag s l country,
    In (key, value) (parse_osm infile ALL_OSM_TAGS)
    /\ (tag, s) ∈ value
    /\ (PyStr.startswith tag "addr:street:" = true \/ is_bare "addr:street" tag = true)
    /\ l ∈ languages
    /\ PyStr.unicode_strip s <> ""
    /\ r = [l; country; tsv_string (PyStr.unicode_strip s)].
Proof.
  unfold build_address_training_data. intros Hr.
  apply in_flat_map in Hr as ([key value] & Hparsed & Hr).
  unfold address_element_rows in Hr.
  destruct (language_names language_rtree key value "addr:street")
    as [[country nl]|] eqn:Hnames; [|destruct Hr].
  unfold address_rows in Hr.
  apply in_flat_map in Hr as ([l texts] & Hl & Hr).
  apply list_elem_of_In, elem_of_map_to_list in Hl.
  apply in_flat_map in Hr as (s & Hs%list_elem_of_In & Hr). simpl in Hr.
  case_bool_decide as Hblank; [destruct Hr|].
  case_bool_decide as Hknown; [|destruct Hr].
  destruct Hr as [<-|[]].
  destruct (language_names_texts _ _ _ _ _ _ _ _ _ Hnames Hl Hs) as (tag & Htag & Hfam).
  by exists key, value, tag, s, l, country.
Qed.

(** The venue type: the stripped value of the [amenity] tag, or else of the
    [building] tag, that is neither empty nor [yes] nor [y]. *)
Lemma venue_type_of_spec (value : tagdict) (venue_type : string) :
  venue_type_of value = Some venue_type ->
  let stripped key := PyStr.unicode_strip (default "" (OD.get key value)) in
  let usable a := a <> "" /\ a <> "yes" /\ a <> "y" in
  (usable (stripped "amenity") /\ venue_type = "amenity:" +:+ stripped "amenity")
  \/ (~ usable (stripped "amenity") /\ usable (stripped "building")
      /\ venue_type = "building:" +:+ stripped "building").
Proof.
  intros Htype stripped usable. unfold venue_type_of in Htype.
  assert (Htry : forall key t,
    (let amenity := PyStr.unicode_strip (default "" (OD.get key value)) in
     if bool_decide (amenity = "yes") || bool_decide (amenity = "y") then None
     else if bool_decide (amenity = "") then None
     else Some (key +:+ ":" +:+ amenity)) = t ->
    match t with
    | Some t => usable (stripped key) /\ t = key +:+ ":" +:+ stripped key
    | None => ~ usable (stripped key)
    end).
  { intros key t <-. cbv zeta. fold (stripped key). unfold usable.
    repeat case_bool_decide; simpl; tauto. }
  pose proof (Htry "amenity" _ eq_refl) as Ha.
  pose proof (Htry "building" _ eq_refl) as Hb.
  cbv zeta in Ha, Hb, Htype.
  destruct (if bool_decide (PyStr.unicode_strip (default "" (OD.get "amenity" value)) = "yes")
               || bool_decide (PyStr.unicode_strip (default "" (OD.get "amenity" value)) = "y")
            then None else _) as [t|].
  - injection Htype as <-. left. exact Ha.
  - rewrite Htype in Hb. right. destruct Hb as [Hu ->]. done.
Qed.

(** X18. Every row of the venues builder has four fields: a known language,
    the country, the venue type and the value of a tag of the [name] family
    of an element, stripped of the white space of Unicode around it. The
    venue type is [amenity:<value>] for the value of the [amenity] tag so
    stripped, when that is neither empty nor [yes] nor [y], and otherwise
    [building:<value>] in the same way. *)
Theorem venue_rows_typed (language_rtree : rtree) (infile : list element) (r : row) :
  In r (build_venue_training_data language_rtree infile) ->
  exists key value tag s l country venue_type,
    In (key, value) (parse_osm infile ALL_OSM_TAGS)
    /\ (tag, s) ∈ value
    /\ (PyStr.startswith tag "name:" = true \/ is_bare "name" tag = true)
    /\ l ∈ languages
    /\ r = [l; country; safe_encode venue_type; tsv_string (PyStr.unicode_strip s)]
    /\ let stripped key := PyStr.unicode_strip (default "" (OD.get key value)) in
       let usable a := a <> "" /\ a <> "yes" /\ a <> "y" in
       (usable (stripped "amenity") /\ venue_type = "amenity:" +:+ stripped "amenity")
       \/ (~ usable (stripped "amenity") /\ usable (stripped "building")
           /\ venue_type = "building:" +:+ stripped "building").
Proof.
  unfold build_venue_training_data. intros Hr.
  apply in_flat_map in Hr as ([key value] & Hparsed & Hr).
  unfold venue_element_rows in Hr.
  destruct (language_names language_rtree key value "name")
    as [[country nl]|] eqn:Hnames; [|destruct Hr].
  destruct (venue_type_of value) as [venue_type|] eqn:Htype; [|destruct Hr].
  unfold venue_rows in Hr.
  apply in_flat_map in Hr as ([l texts] & Hl & Hr).
  apply list_elem_of_In, elem_of_map_to_list in Hl.
  apply in_flat_map in Hr as (s & Hs%list_elem_of_In & Hr). simpl in Hr.
  case_bool_decide as Hknown; [|destruct Hr].
  destruct Hr as [<-|[]].
  destruct (language_names_texts _ _ _ _ _ _ _ _ _ Hnames Hl Hs) as (tag & Htag & Hfam).
  exists key, value, tag, s, l, country, venue_type.
  repeat (split; [done|]). by apply venue_type_of_spec.
Qed.

(** X19. Every row of the formatted-address builder comes from an element
    with coordinates and a country, and carries what the formatter gave for
    the tags of the element without the ignored keys, never a blank text. An
    untagged row has that one field. A tagged row has the language and the
    country before it: the language is the only candidate when there is one,
    and otherwise the answer of the disambiguation function on the
    [addr:street] value, whatever it is. *)
Theorem format_rows_not_blank (language_rtree : rtree) (infile : list element)
    (tag_components : bool) (r : row) :
  In r (build_address_format_training_data language_rtree infile tag_components) ->
  exists key value lat lon latitude longitude country cands language_props formatted,
    In (key, value) (parse_osm infile ALL_OSM_TAGS)
    /\ OD.get "lat" value = Some lat
    /\ OD.get "lon" value = Some lon
    /\ Coord.latlon_to_floats lat lon = Some (latitude, longitude)
    /\ country_and_languages language_rtree latitude longitude
       = (Some country, cands, language_props)
    /\ country <> "" /\ cands <> []
    /\ let tags := strip_keys value OSM_IGNORE_KEYS in
       format_address country tags tag_components = Some formatted
       /\ PyStr.strip (tsv_string formatted) <> ""
       /\ if tag_components then
            exists language,
              r = [language; country; tsv_string formatted]
              /\ (length cands = 1%nat -> language = first_lang cands)
              /\ (length cands <> 1%nat ->
                  exists street, OD.get "addr:street" tags = Some street
                    /\ language = disambiguate_language street
                                    (map (fun l => (lang l, is_default l)) cands))
          else r = [tsv_string formatted].
Proof.
  unfold build_address_format_training_data. intros Hr.
  apply list_elem_of_In, list_elem_of_omap in Hr as ([key value] & Hparsed & Hrow).
  apply list_elem_of_In in Hparsed.
  unfold address_format_row in Hrow.
  destruct (OD.get "lat" value) as [lat|] eqn:Hlat; [|discriminate].
  destruct (OD.get "lon" value) as [lon|] eqn:Hlon; [|discriminate]. simpl in Hrow.
  destruct (Coord.latlon_to_floats lat lon) as [[latitude longitude]|] eqn:Hcoords;
    [|discriminate].
  simpl in Hrow.
  destruct (country_and_languages language_rtree latitude longitude)
    as [[c cs] ps] eqn:Hgeo.
  destruct c as [[|a c]|]; try discriminate; destruct cs as [|cl cs]; try discriminate.
  assert (Hcountry : String a c <> "") by done.
  assert (Hcands : cl :: cs <> []) by done.
  remember (String a c) as country eqn:Hc. remember (cl :: cs) as cands eqn:Hcs.
  exists key, value, lat, lon, latitude, longitude, country, cands, ps.
  cbv zeta. change (strip_keys value OSM_IGNORE_KEYS) with (OD.pop "house" value).
  remember (OD.pop "house" value) as tags eqn:Htags.
  clear Hc Hcs Htags.
  destruct tag_components.
  - destruct (decide (length cands = 1%nat)) as [Hone|Hmany].
    + rewrite (bool_decide_eq_true_2 _ Hone) in Hrow. simpl in Hrow.
      destruct (format_address country tags true) as [formatted|] eqn:Hfmt;
        [|discriminate].
      simpl in Hrow.
      destruct (bool_decide (tsv_string formatted = "")); [discriminate|].
      simpl in Hrow. case_bool_decide as Hblank; [discriminate|].
      injection Hrow as <-. exists formatted.
      repeat (apply conj; [done|]).
      eexists. split; [reflexivity|]. split; [done|]. intros Hn. by destruct Hn.
    + rewrite (bool_decide_eq_false_2 _ Hmany) in Hrow.
      destruct (OD.get "addr:street" tags) as [street|] eqn:Hstreet; [|discriminate].
      simpl in Hrow.
      destruct (format_address country tags true) as [formatted|] eqn:Hfmt;
        [|discriminate].
      simpl in Hrow.
      destruct (bool_decide (tsv_string formatted = "")); [discriminate|].
      simpl in Hrow. case_bool_decide as Hblank; [discriminate|].
      injection Hrow as <-. exists formatted.
      repeat (apply conj; [done|]).
      eexists. split; [reflexivity|]. split; [done|]. intros _. eauto.
  - simpl in Hrow.
    destruct (format_address country tags false) as [formatted|] eqn:Hfmt;
      [|discriminate].
    simpl in Hrow.
    destruct (bool_decide (tsv_string formatted = "")); [discriminate|].
    simpl in Hrow. case_bool_decide as Hblank; [discriminate|].
    injection Hrow as <-. exists formatted.
    repeat (apply conj; [done|]). done.
Qed.

End BuilderTexts.

Lemma address_rows_from_street_tags_witness :
  exists key value tag s l country,
    In (key, value) (parse_osm [SampleElements.padded_street] ALL_OSM_TAGS)
    /\ (tag, s) ∈ value
    /\ (PyStr.startswith tag "addr:street:" = true \/ is_bare "addr:street" tag = true)
    /\ l ∈ @languages Sample.france
    /\ PyStr.unicode_strip s <> ""
    /\ ["fr"; "fr"; "Rue X"]
       = [l; country; @tsv_string Sample.france (PyStr.unicode_strip s)].
Proof.
  apply (@address_rows_from_street_tags Sample.france tt
           [SampleElements.padded_street] ["fr"; "fr"; "Rue X"]).
  vm_compute. left. reflexivity.
Defined.

Lemma venue_rows_typed_witness :
  exists key value tag s l country venue_type,
    In (key, value) (parse_osm [SampleElements.padded_venue] ALL_OSM_TAGS)
    /\ (tag, s) ∈ value
    /\ (PyStr.startswith tag "name:" = true \/ is_bare "name" tag = true)
    /\ l ∈ @languages Sample.france
    /\ ["fr"; "fr"; "building:restaurant"; "Chez Leon"]
       = [l; country; @safe_encode Sample.france venue_type;
          @tsv_string Sample.france (PyStr.unicode_strip s)]
    /\ let stripped key := PyStr.unicode_strip (default "" (OD.get key value)) in
       let usable a := a <> "" /\ a <> "yes" /\ a <> "y" in
       (usable (stripped "amenity") /\ venue_type = "amenity:" +:+ stripped "amenity")
       \/ (~ usable (stripped "amenity") /\ usable (stripped "building")
           /\ venue_type = "building:" +:+ stripped "building").
Proof.
  apply (@venue_rows_typed Sample.france tt
           [SampleElements.padded_venue] ["fr"; "fr"; "building:restaurant"; "Chez Leon"]).
  vm_compute. left. reflexivity.
Defined.

Lemma format_rows_not_blank_witness :
  exists key value lat lon latitude longitude country cands language_props formatted,
    In (key, value) (parse_osm [SampleElements.rue_x_house] ALL_OSM_TAGS)
    /\ OD.get "lat" value = Some lat
    /\ OD.get "lon" value = Some lon
    /\ @Coord.latlon_to_floats Sample.france lat lon = Some (latitude, longitude)
    /\ @country_and_languages Sample.france tt latitude longitude
       = (Some country, cands, language_props)
    /\ country <> "" /\ cands <> []
    /\ let tags := strip_keys value OSM_IGNORE_KEYS in
       @format_address Sample.france country tags true = Some formatted
       /\ PyStr.strip (@tsv_string Sample.france formatted) <> ""
       /\ exists language,
            ["fr"; "fr"; "48.85 | 2.35 | Rue X"]
            = [language; country; @tsv_string Sample.france formatted]
            /\ (length cands = 1%nat -> language = first_lang cands)
            /\ (length cands <> 1%nat ->
                exists street, OD.get "addr:street" tags = Some street
                  /\ language = @disambiguate_language Sample.france street
                                  (map (fun l => (lang l, is_default l)) cands)).
Proof.
  apply (@format_rows_not_blank Sample.france tt [SampleElements.rue_x_house] true
           ["fr"; "fr"; "48.85 | 2.35 | Rue X"]).
  vm_compute. left. reflexivity.
Defined.

(** ** The coordinate patterns *)

Section Matcher.
Import Re.
Context {R : Type}.

Implicit Types (s rest : utext) (g : gmap nat utext) (k : utext -> gmap nat utext -> option R).

(** A greedy run of one class takes every character of the class when what
    follows the run matches. *)
Lemma rmatch_star_chr (p : N -> bool) (l rest : utext) g k (x : R) :
  Forall (fun c => p c = true) l ->
  match rest with [] => True | c :: _ => p c = false end ->
  k rest g = Some x ->
  rmatch (Star (Chr p)) (l ++ rest) g k = Some x.
Proof.
  intros Hl Hrest Hk. cbn [rmatch].
  match goal with
  | |- ?star (length ?s) ?s ?g = _ =>
      enough (Hgen : forall n, (length s <= n)%nat -> star n s g = Some x)
        by (apply Hgen; lia)
  end.
  induction Hl as [|c l Hc Hl IH]; intros n Hn.
  - simpl. destruct n as [|n]; [done|].
    destruct rest as [|c rest']; [done|]. by rewrite Hrest.
  - destruct n as [|n]; [simpl in Hn; lia|].
    cbn [app]. rewrite Hc.
    replace (length (l ++ rest) <? length (c :: l ++ rest))%nat with true
      by (symmetry; apply Nat.ltb_lt; simpl; lia).
    rewrite IH by (simpl in Hn; lia). done.
Qed.

End Matcher.

Section DecimalDirection.
Import Re Coord.
Context `{Collaborators}.

Local Abbreviation digit c := (range 48 57 c = true).

Lemma digit_cases (P : N -> Prop) :
  Forall P [48; 49; 50; 51; 52; 53; 54; 55; 56; 57]%N ->
  forall d, digit d -> P d.
Proof.
  intros HP d Hd. unfold range in Hd.
  apply andb_true_iff in Hd as [Hlo%N.leb_le Hhi%N.leb_le].
  rewrite Forall_forall in HP. apply HP.
  assert (Hd : (d = 48 \/ d = 49 \/ d = 50 \/ d = 51 \/ d = 52 \/ d = 53 \/ d = 54
                \/ d = 55 \/ d = 56 \/ d = 57)%N) by lia.
  repeat (destruct Hd as [->|Hd]; [set_solver|]). subst d. set_solver.
Qed.

Ltac each_of_list :=
  first [apply Forall_nil_2 | apply Forall_cons_2; [cbv beta | each_of_list]].

Ltac by_digits :=
  match goal with
  | |- forall d, range 48 57 d = true -> @?P d => apply (digit_cases P); each_of_list
  end.

Lemma rmatch_group_seq {R : Type} (i : nat) (a b : regex) (s : utext) (g : gmap nat utext)
    (k : utext -> gmap nat utext -> option R) :
  rmatch (Seq (Group i a) b) s g k
  = rmatch a s g (fun s' g' =>
      rmatch b s' (<[i := take (length s - length s') s]> g') k).
Proof. reflexivity. Qed.

Lemma rmatch_plus_chr {R : Type} (p : N -> bool) (c : N) (l rest : utext)
    (g : gmap nat utext) (k : utext -> gmap nat utext -> option R) (x : R) :
  p c = true ->
  Forall (fun c => p c = true) l ->
  match rest with [] => True | c :: _ => p c = false end ->
  k rest g = Some x ->
  rmatch (Plus (Chr p)) (c :: l ++ rest) g k = Some x.
Proof.
  intros Hc Hl Hrest Hk. unfold Plus.
  change (rmatch (Seq (Chr p) (Star (Chr p))) (c :: l ++ rest) g k)
    with (if p c then rmatch (Star (Chr p)) (l ++ rest) g k else None).
  rewrite Hc. by apply rmatch_star_chr.
Qed.

(** Two digits and a dot do not start a degrees-minutes-seconds text. *)
Lemma latitude_dms_no_decimal (rest : utext) :
  forall d1, digit d1 -> forall d2, digit d2 ->
  re_match latitude_dms_regex (d1 :: d2 :: 46%N :: rest) = None.
Proof. by_digits; by_digits; reflexivity. Qed.

Lemma longitude_dms_no_decimal (rest : utext) :
  forall d1, digit d1 -> forall d2, digit d2 ->
  re_match longitude_dms_regex (d1 :: d2 :: 46%N :: rest) = None.
Proof. by_digits; by_digits; reflexivity. Qed.

(** The integer part of a decimal with direction. *)
Lemma latitude_decimal_prefix {R : Type} (r : regex) (s : utext) (g : gmap nat utext)
    (k : utext -> gmap nat utext -> option R) :
  forall d1, digit d1 -> forall d2, digit d2 ->
  rmatch (seqs [Opt minus; d09; d09; dot; r]) (d1 :: d2 :: 46%N :: s) g k
  = rmatch r s g k.
Proof. by_digits; by_digits; reflexivity. Qed.

Lemma longitude_decimal_prefix {R : Type} (r : regex) (s : utext) (g : gmap nat utext)
    (k : utext -> gmap nat utext -> option R) :
  forall d1, digit d1 -> forall d2, digit d2 ->
  rmatch (Alt (seqs [Opt minus; lit "1"; d08; d09])
              (seqs [Opt (lit "0"); d09; d09; dot; r])) (d1 :: d2 :: 46%N :: s) g k
  = rmatch r s g k.
Proof. by_digits; by_digits; reflexivity. Qed.

(** What follows the number: the direction letter alone. *)
Lemma latitude_direction_letter (g : gmap nat utext) (spaces : utext) (c : N) :
  Forall (fun x => x = 32%N) spaces ->
  c ∈ codes "NnSs" ->
  rmatch (seqs [sp; Opt degree_mark_bytes; sp;
                Group 2 (Alt (lit "N") (Alt (lit "n") (Alt (lit "S") (lit "s")))); Eos])
         (spaces ++ [c])%list g (fun _ g => Some g)
  = Some (<[2%nat := [c]]> g).
Proof.
  intros Hspaces Hc.
  change (seqs [sp; Opt degree_mark_bytes; sp;
                Group 2 (Alt (lit "N") (Alt (lit "n") (Alt (lit "S") (lit "s")))); Eos])
    with (Seq sp (seqs [Opt degree_mark_bytes; sp;
                        Group 2 (Alt (lit "N") (Alt (lit "n") (Alt (lit "S") (lit "s")))); Eos])).
  change (rmatch (Seq sp ?r) ?s ?g ?k) with (rmatch sp s g (fun s' g' => rmatch r s' g' k)).
  cbv [codes list_ascii_of_string map N_of_ascii N_of_digits N.add N.mul
       Pos.add Pos.succ Pos.mul] in Hc.
  apply rmatch_star_chr.
  - eapply Forall_impl; [exact Hspaces|]. by intros x ->.
  - repeat (apply elem_of_cons in Hc as [->|Hc]; [reflexivity|]). inversion Hc.
  - repeat (apply elem_of_cons in Hc as [->|Hc]; [reflexivity|]). inversion Hc.
Qed.

Lemma longitude_direction_letter (g : gmap nat utext) (spaces : utext) (c : N) :
  Forall (fun x => x = 32%N) spaces ->
  c ∈ codes "EeWw" ->
  rmatch (seqs [sp; Opt degree_mark_bytes; sp;
                Group 2 (Alt (lit "E") (Alt (lit "e") (Alt (lit "W") (lit "w")))); Eos])
         (spaces ++ [c])%list g (fun _ g => Some g)
  = Some (<[2%nat := [c]]> g).
Proof.
  intros Hspaces Hc.
  change (seqs [sp; Opt degree_mark_bytes; sp;
                Group 2 (Alt (lit "E") (Alt (lit "e") (Alt (lit "W") (lit "w")))); Eos])
    with (Seq sp (seqs [Opt degree_mark_bytes; sp;
                        Group 2 (Alt (lit "E") (Alt (lit "e") (Alt (lit "W") (lit "w")))); Eos])).
  change (rmatch (Seq sp ?r) ?s ?g ?k) with (rmatch sp s g (fun s' g' => rmatch r s' g' k)).
  cbv [codes list_ascii_of_string map N_of_ascii N_of_digits N.add N.mul
       Pos.add Pos.succ Pos.mul] in Hc.
  apply rmatch_star_chr.
  - eapply Forall_impl; [exact Hspaces|]. by intros x ->.
  - repeat (apply elem_of_cons in Hc as [->|Hc]; [reflexivity|]). inversion Hc.
  - repeat (apply elem_of_cons in Hc as [->|Hc]; [reflexivity|]). inversion Hc.
Qed.

Lemma letter_after_digits (c : N) :
  c ∈ codes "NnSsEeWw" -> range 48 57 c = false.
Proof.
  intros Hc. cbv [codes list_ascii_of_string map N_of_ascii N_of_digits N.add N.mul
                  Pos.add Pos.succ Pos.mul] in Hc.
  repeat (apply elem_of_cons in Hc as [->|Hc]; [reflexivity|]). inversion Hc.
Qed.

Lemma latitude_decimal_with_direction_match (d1 d2 f : N) (frac spaces : utext) (c : N) :
  digit d1 -> digit d2 -> digit f -> Forall (fun c => digit c) frac ->
  Forall (fun x => x = 32%N) spaces ->
  c ∈ codes "NnSs" ->
  re_match latitude_decimal_with_direction_regex (d1 :: d2 :: 46%N :: f :: frac ++ spaces ++ [c])%list
  = Some (<[2%nat := [c]]> (<[1%nat := d1 :: d2 :: 46%N :: f :: frac]> ∅)).
Proof.
  intros Hd1 Hd2 Hf Hfrac Hspaces Hc. unfold re_match.
  change latitude_decimal_with_direction_regex
    with (Seq (Group 1 (seqs [Opt minus; d09; d09; dot; Plus d09]))
              (seqs [sp; Opt degree_mark_bytes; sp;
                     Group 2 (Alt (lit "N") (Alt (lit "n") (Alt (lit "S") (lit "s"))));
                     Eos])).
  rewrite rmatch_group_seq, latitude_decimal_prefix by done.
  apply rmatch_plus_chr; [done|done| |].
  - destruct Hspaces as [|x spaces -> _]; [|reflexivity].
    apply letter_after_digits.
    cbv [codes list_ascii_of_string map N_of_ascii N_of_digits N.add N.mul
         Pos.add Pos.succ Pos.mul] in Hc |- *. set_solver.
  - rewrite latitude_direction_letter by done. do 2 f_equal.
    change (d1 :: d2 :: 46%N :: f :: frac ++ spaces ++ [c])%list
      with ((d1 :: d2 :: 46%N :: f :: frac) ++ spaces ++ [c])%list.
    rewrite (length_app (d1 :: d2 :: 46%N :: f :: frac)).
    replace (length (d1 :: d2 :: 46%N :: f :: frac) + length (spaces ++ [c])
             - length (spaces ++ [c]))%nat
      with (length (d1 :: d2 :: 46%N :: f :: frac)) by lia.
    by rewrite take_app_length.
Qed.

Lemma longitude_decimal_with_direction_match (d1 d2 f : N) (frac spaces : utext) (c : N) :
  digit d1 -> digit d2 -> digit f -> Forall (fun c => digit c) frac ->
  Forall (fun x => x = 32%N) spaces ->
  c ∈ codes "EeWw" ->
  re_match longitude_decimal_with_direction_regex (d1 :: d2 :: 46%N :: f :: frac ++ spaces ++ [c])%list
  = Some (<[2%nat := [c]]> (<[1%nat := d1 :: d2 :: 46%N :: f :: frac]> ∅)).
Proof.
  intros Hd1 Hd2 Hf Hfrac Hspaces Hc. unfold re_match.
  change longitude_decimal_with_direction_regex
    with (Seq (Group 1 (Alt (seqs [Opt minus; lit "1"; d08; d09])
                            (seqs [Opt (lit "0"); d09; d09; dot; Plus d09])))
              (seqs [sp; Opt degree_mark_bytes; sp;
                     Group 2 (Alt (lit "E") (Alt (lit "e") (Alt (lit "W") (lit "w"))));
                     Eos])).
  rewrite rmatch_group_seq, longitude_decimal_prefix by done.
  apply rmatch_plus_chr; [done|done| |].
  - destruct Hspaces as [|x spaces -> _]; [|reflexivity].
    apply letter_after_digits.
    cbv [codes list_ascii_of_string map N_of_ascii N_of_digits N.add N.mul
         Pos.add Pos.succ Pos.mul] in Hc |- *. set_solver.
  - rewrite longitude_direction_letter by done. do 2 f_equal.
    change (d1 :: d2 :: 46%N :: f :: frac ++ spaces ++ [c])%list
      with ((d1 :: d2 :: 46%N :: f :: frac) ++ spaces ++ [c])%list.
    rewrite (length_app (d1 :: d2 :: 46%N :: f :: frac)).
    replace (length (d1 :: d2 :: 46%N :: f :: frac) + length (spaces ++ [c])
             - length (spaces ++ [c]))%nat
      with (length (d1 :: d2 :: 46%N :: f :: frac)) by lia.
    by rewrite take_app_length.
Qed.

Lemma ustrip_kept (chars : list N) (x y : N) (l : utext) :
  existsb (N.eqb x) chars = false ->
  existsb (N.eqb y) chars = false ->
  ustrip chars (x :: l ++ [y])%list = (x :: l ++ [y])%list.
Proof.
  intros Hx Hy. unfold ustrip. cbn [drop_while]. rewrite Hx.
  change (x :: l ++ [y])%list with ((x :: l) ++ [y])%list.
  rewrite rev_unit. cbn [drop_while]. rewrite Hy.
  change (rev (y :: rev (x :: l))) with (rev (rev (x :: l)) ++ [y])%list.
  by rewrite rev_involutive.
Qed.

Lemma ureplace_kept (a b : N) (text : utext) :
  Forall (fun c => c <> a) text -> ureplace a b text = text.
Proof.
  unfold ureplace. induction 1 as [|c text Hc _ IH]; [done|].
  simpl. rewrite IH. by apply N.eqb_neq in Hc as ->.
Qed.

(** A decimal with direction goes through the clean-up unchanged. *)
Lemma decimal_with_direction_clean (d1 d2 f : N) (frac spaces : utext) (c : N) :
  Forall (fun c => digit c) (d1 :: d2 :: f :: frac) ->
  Forall (fun x => x = 32%N) spaces ->
  c ∈ codes "NnSsEeWw" ->
  let text := (d1 :: d2 :: 46%N :: f :: frac ++ spaces ++ [c])%list in
  ureplace 44 46 (ustrip (codes " ,;|") text) = text.
Proof.
  intros Hdigits Hspaces Hc text.
  assert (Hne : forall d, digit d -> d <> 44%N).
  { intros d Hd. unfold range in Hd. apply andb_true_iff in Hd as [Hlo%N.leb_le _]. lia. }
  assert (Hletter : existsb (N.eqb c) (codes " ,;|") = false /\ c <> 44%N).
  { cbv [codes list_ascii_of_string map N_of_ascii N_of_digits N.add N.mul
         Pos.add Pos.succ Pos.mul] in Hc.
    repeat (apply elem_of_cons in Hc as [->|Hc]; [by split|]). inversion Hc. }
  destruct Hletter as [Hkept Hc44].
  apply Forall_cons in Hdigits as [Hd1 Hdigits].
  unfold text. clear text.
  change (d1 :: d2 :: 46%N :: f :: frac ++ spaces ++ [c])%list
    with (d1 :: (d2 :: 46%N :: f :: frac) ++ spaces ++ [c])%list.
  rewrite (app_assoc (d2 :: 46%N :: f :: frac)).
  rewrite ustrip_kept; [| |exact Hkept].
  - apply ureplace_kept. apply Forall_cons. split; [by apply Hne|].
    apply Forall_cons in Hdigits as [Hd2 Hdigits]. apply Forall_cons. split; [by apply Hne|].
    apply Forall_cons. split; [done|].
    apply Forall_cons in Hdigits as [Hf Hdigits].
    apply Forall_cons. split; [by apply Hne|].
    apply Forall_app. split; [|by apply Forall_singleton].
    apply Forall_app. split.
    + eapply Forall_impl; [exact Hdigits|]. apply Hne.
    + eapply Forall_impl; [exact Hspaces|]. by intros x ->.
  - revert d1 Hd1. by_digits; reflexivity.
Qed.

(** X20. A latitude written as two digits, a dot, one digit or more, any
    number of spaces and one of the letters N, n, S, s, with a longitude
    written likewise with E, e, W, w, is read as the number before the
    spaces, negated when the letter is S, s, W or w, the sign being that of
    [direction_sign] (None when Python's float does not read one of the two
    numbers). *)
Theorem decimal_with_direction_signed (latitude longitude : string)
    (d1 d2 f : N) (frac spaces : utext) (c : N)
    (e1 e2 f' : N) (frac' spaces' : utext) (c' : N) :
  safe_decode latitude = Some (d1 :: d2 :: 46%N :: f :: frac ++ spaces ++ [c])%list ->
  safe_decode longitude = Some (e1 :: e2 :: 46%N :: f' :: frac' ++ spaces' ++ [c'])%list ->
  Forall (fun x => x = 32%N) spaces ->
  Forall (fun x => x = 32%N) spaces' ->
  Forall (fun c => range 48 57 c = true) (d1 :: d2 :: f :: frac) ->
  Forall (fun c => range 48 57 c = true) (e1 :: e2 :: f' :: frac') ->
  c ∈ codes "NnSs" ->
  c' ∈ codes "EeWw" ->
  latlon_to_floats latitude longitude
  = (x ← py_float (d1 :: d2 :: 46%N :: f :: frac);
     y ← py_float (e1 :: e2 :: 46%N :: f' :: frac');
     Some ((x * (if bool_decide (c ∈ codes "Ss") then -1 else 1))%Q,
           (y * (if bool_decide (c' ∈ codes "Ww") then -1 else 1))%Q)).
Proof.
  intros Hlat Hlon Hspaces Hspaces' Hdigits Hdigits' Hc Hc'.
  assert (Hcl : c ∈ codes "NnSsEeWw").
  { cbv [codes list_ascii_of_string map N_of_ascii N_of_digits N.add N.mul
         Pos.add Pos.succ Pos.mul] in Hc |- *. set_solver. }
  assert (Hcl' : c' ∈ codes "NnSsEeWw").
  { cbv [codes list_ascii_of_string map N_of_ascii N_of_digits N.add N.mul
         Pos.add Pos.succ Pos.mul] in Hc' |- *. set_solver. }
  pose proof (decimal_with_direction_clean _ _ _ _ _ _ Hdigits Hspaces Hcl) as Hclean.
  pose proof (decimal_with_direction_clean _ _ _ _ _ _ Hdigits' Hspaces' Hcl') as Hclean'.
  cbv zeta in Hclean, Hclean'.
  apply Forall_cons in Hdigits as [Hd1 [Hd2 [Hf Hfrac]%Forall_cons]%Forall_cons].
  apply Forall_cons in Hdigits' as [He1 [He2 [Hf' Hfrac']%Forall_cons]%Forall_cons].
  unfold latlon_to_floats. rewrite Hlat, Hlon. cbn [mbind option_bind]. cbv zeta.
  rewrite Hclean, Hclean'.
  rewrite (latitude_dms_no_decimal _ d1 Hd1 d2 Hd2).
  rewrite (longitude_dms_no_decimal _ e1 He1 e2 He2).
  rewrite latitude_decimal_with_direction_match by done.
  rewrite longitude_decimal_with_direction_match by done.
  rewrite !lookup_insert_eq.
  rewrite (lookup_insert_ne _ 2%nat 1%nat) by done.
  rewrite (lookup_insert_ne _ 2%nat 1%nat) by done.
  rewrite !lookup_insert_eq.
  cbn [mbind option_bind].
  assert (Hsign : direction_sign (Some [c])
                  = if bool_decide (c ∈ codes "Ss") then (-1)%Q else 1%Q).
  { cbv [codes list_ascii_of_string map N_of_ascii N_of_digits N.add N.mul
         Pos.add Pos.succ Pos.mul] in Hc.
    repeat (apply elem_of_cons in Hc as [->|Hc]; [reflexivity|]). inversion Hc. }
  assert (Hsign' : direction_sign (Some [c'])
                   = if bool_decide (c' ∈ codes "Ww") then (-1)%Q else 1%Q).
  { cbv [codes list_ascii_of_string map N_of_ascii N_of_digits N.add N.mul
         Pos.add Pos.succ Pos.mul] in Hc'.
    repeat (apply elem_of_cons in Hc' as [->|Hc']; [reflexivity|]). inversion Hc'. }
  rewrite Hsign, Hsign'.
  destruct (py_float (d1 :: d2 :: 46%N :: f :: frac)) as [x|]; [|done].
  destruct (py_float (e1 :: e2 :: 46%N :: f' :: frac')) as [y|]; done.
Qed.

(** One digit and a dot, or three digits and a dot, start neither a
    degrees-minutes-seconds text nor a decimal with direction. *)
Lemma latitude_one_digit_no_match (rest : utext) :
  forall d1, digit d1 ->
  re_match latitude_dms_regex (d1 :: 46%N :: rest) = None
  /\ re_match latitude_decimal_with_direction_regex (d1 :: 46%N :: rest) = None.
Proof. by_digits; split; reflexivity. Qed.

Lemma longitude_three_digits_no_match (rest : utext) :
  forall d1, digit d1 -> d1 <> 48%N -> forall d2, digit d2 -> forall d3, digit d3 ->
  re_match longitude_dms_regex (d1 :: d2 :: d3 :: 46%N :: rest) = None
  /\ re_match longitude_decimal_with_direction_regex (d1 :: d2 :: d3 :: 46%N :: rest)
     = None.
Proof.
  by_digits; (intros Hne; try (by destruct Hne)); by_digits; by_digits; split; reflexivity.
Qed.

Lemma drop_while_app {A : Type} (p : A -> bool) (l1 l2 : list A) :
  Forall (fun x => p x = true) l1 -> drop_while p (l1 ++ l2) = drop_while p l2.
Proof. induction 1 as [|x l1 Hx _ IH]; [done|]. simpl. by rewrite Hx. Qed.

Lemma digits_last (f : N) (frac : utext) :
  Forall (fun c => digit c) (f :: frac) ->
  exists init z, f :: frac = (init ++ [z])%list /\ digit z.
Proof.
  revert f. induction frac as [|f' frac IH]; intros f [Hf Hfrac]%Forall_cons.
  - by exists [], f.
  - destruct (IH f' Hfrac) as (init & z & -> & Hz). by exists (f :: init), z.
Qed.

(** The clean-up of a text that matches no pattern keeps a number that
    starts with a digit and drops what follows its last digit. *)
Lemma plain_decimal_clean (d1 : N) (pre frac junk : utext) (f : N) :
  digit d1 ->
  Forall (fun c => digit c) (f :: frac) ->
  Forall (fun c => range 48 57 c = false) junk ->
  sub_end_re (sub_beginning_re (d1 :: pre ++ f :: frac ++ junk)%list)
  = (d1 :: pre ++ f :: frac)%list.
Proof.
  intros Hd1 Hdigits Hjunk. unfold sub_beginning_re, sub_end_re.
  cbn [drop_while]. rewrite Hd1. cbn [orb negb].
  destruct (digits_last _ _ Hdigits) as (init & z & Heq & Hz).
  change (f :: frac ++ junk)%list with ((f :: frac) ++ junk)%list.
  rewrite Heq.
  replace (d1 :: pre ++ (init ++ [z]) ++ junk)%list
    with ((d1 :: pre ++ init) ++ [z] ++ junk)%list
    by (simpl; by rewrite <- !app_assoc).
  replace (d1 :: pre ++ init ++ [z])%list with ((d1 :: pre ++ init) ++ [z])%list
    by (simpl; by rewrite <- !app_assoc).
  generalize (d1 :: pre ++ init)%list. intros t.
  rewrite !rev_app_distr, <- app_assoc, drop_while_app.
  - change (rev [z]) with [z]. cbn [app drop_while]. rewrite Hz. cbn [negb].
    change (rev (z :: rev t)) with (rev (rev t) ++ [z])%list.
    by rewrite rev_involutive.
  - apply Forall_forall. intros x Hx.
    apply list_elem_of_In, in_rev, list_elem_of_In in Hx.
    rewrite Forall_forall in Hjunk. by rewrite (Hjunk x Hx).
Qed.

(** X21. The direction letter has no effect next to a number whose integer
    part has not two digits: a latitude written as one digit, a dot, one
    digit or more, spaces and one of N, n, S, s, with a longitude written as
    three digits (the first not 0), a dot, one digit or more, spaces and one
    of E, e, W, w, is read as the two numbers before the spaces, with no
    sign. *)
Theorem direction_ignored_without_two_digits (latitude longitude : string)
    (d1 f : N) (frac spaces : utext) (c : N)
    (e1 e2 e3 f' : N) (frac' spaces' : utext) (c' : N) :
  safe_decode latitude = Some (d1 :: 46%N :: f :: frac ++ spaces ++ [c])%list ->
  safe_decode longitude
  = Some (e1 :: e2 :: e3 :: 46%N :: f' :: frac' ++ spaces' ++ [c'])%list ->
  Forall (fun x => x = 32%N) spaces ->
  Forall (fun x => x = 32%N) spaces' ->
  Forall (fun c => range 48 57 c = true) (d1 :: f :: frac) ->
  Forall (fun c => range 48 57 c = true) (e1 :: e2 :: e3 :: f' :: frac') ->
  e1 <> 48%N ->
  c ∈ codes "NnSs" ->
  c' ∈ codes "EeWw" ->
  latlon_to_floats latitude longitude
  = (x ← py_float (d1 :: 46%N :: f :: frac);
     y ← py_float (e1 :: e2 :: e3 :: 46%N :: f' :: frac');
     Some (x, y)).
Proof.
  intros Hlat Hlon Hspaces Hspaces' Hdigits Hdigits' He1 Hc Hc'.
  assert (Hne : forall d, digit d -> d <> 44%N).
  { intros d Hd. unfold range in Hd. apply andb_true_iff in Hd as [Hlo%N.leb_le _]. lia. }
  assert (Hletter : forall x, x ∈ codes "NnSsEeWw" ->
            existsb (N.eqb x) (codes " ,;|") = false /\ x <> 44%N
            /\ range 48 57 x = false).
  { intros x Hx.
    cbv [codes list_ascii_of_string map N_of_ascii N_of_digits N.add N.mul
         Pos.add Pos.succ Pos.mul] in Hx.
    repeat (apply elem_of_cons in Hx as [->|Hx]; [by repeat split|]). inversion Hx. }
  assert (Hcl : c ∈ codes "NnSsEeWw").
  { cbv [codes list_ascii_of_string map N_of_ascii N_of_digits N.add N.mul
         Pos.add Pos.succ Pos.mul] in Hc |- *. set_solver. }
  assert (Hcl' : c' ∈ codes "NnSsEeWw").
  { cbv [codes list_ascii_of_string map N_of_ascii N_of_digits N.add N.mul
         Pos.add Pos.succ Pos.mul] in Hc' |- *. set_solver. }
  destruct (Hletter c Hcl) as (Hc1 & Hc2 & Hc3).
  destruct (Hletter c' Hcl') as (Hc1' & Hc2' & Hc3').
  assert (Hjunk : forall sp x, Forall (fun x => x = 32%N) sp -> range 48 57 x = false ->
            x <> 44%N ->
            Forall (fun c => range 48 57 c = false) (sp ++ [x])
            /\ Forall (fun c => c <> 44%N) (sp ++ [x])).
  { intros sp x Hsp Hx Hx44. split; (apply Forall_app; split; [|by apply Forall_singleton]);
      (eapply Forall_impl; [exact Hsp|]); by intros y ->. }
  destruct (Hjunk spaces c Hspaces Hc3 Hc2) as [Hj Hj44].
  destruct (Hjunk spaces' c' Hspaces' Hc3' Hc2') as [Hj' Hj44'].
  apply Forall_cons in Hdigits as [Hd1 Hfrac].
  apply Forall_cons in Hdigits' as [He1d [He2 [He3 Hfrac']%Forall_cons]%Forall_cons].
  assert (Hkept : forall d, digit d -> existsb (N.eqb d) (codes " ,;|") = false).
  { by_digits; reflexivity. }
  assert (H44 : forall l, Forall (fun c => digit c) l -> Forall (fun c => c <> 44%N) l).
  { intros l Hl. eapply Forall_impl; [exact Hl|]. apply Hne. }
  (* the clean-up before the patterns *)
  assert (Hclean : ureplace 44 46 (ustrip (codes " ,;|")
                     (d1 :: 46%N :: f :: frac ++ spaces ++ [c])%list)
                   = (d1 :: 46%N :: f :: frac ++ spaces ++ [c])%list).
  { change (d1 :: 46%N :: f :: frac ++ spaces ++ [c])%list
      with (d1 :: (46%N :: f :: frac) ++ spaces ++ [c])%list.
    rewrite (app_assoc (46%N :: f :: frac)).
    rewrite ustrip_kept by auto. apply ureplace_kept.
    apply Forall_cons. split; [auto|]. rewrite <- app_assoc.
    apply Forall_app. split; [|done]. apply Forall_cons. split; [done|]. auto. }
  assert (Hclean' : ureplace 44 46 (ustrip (codes " ,;|")
                      (e1 :: e2 :: e3 :: 46%N :: f' :: frac' ++ spaces' ++ [c'])%list)
                    = (e1 :: e2 :: e3 :: 46%N :: f' :: frac' ++ spaces' ++ [c'])%list).
  { change (e1 :: e2 :: e3 :: 46%N :: f' :: frac' ++ spaces' ++ [c'])%list
      with (e1 :: (e2 :: e3 :: 46%N :: f' :: frac') ++ spaces' ++ [c'])%list.
    rewrite (app_assoc (e2 :: e3 :: 46%N :: f' :: frac')).
    rewrite ustrip_kept by auto. apply ureplace_kept.
    apply Forall_cons. split; [auto|]. rewrite <- app_assoc.
    apply Forall_app. split; [|done].
    apply Forall_cons. split; [auto|]. apply Forall_cons. split; [auto|].
    apply Forall_cons. split; [done|]. auto. }
  unfold latlon_to_floats. rewrite Hlat, Hlon. cbn [mbind option_bind]. cbv zeta.
  rewrite Hclean, Hclean'.
  destruct (latitude_one_digit_no_match (f :: frac ++ spaces ++ [c])%list d1 Hd1)
    as [-> ->].
  destruct (longitude_three_digits_no_match (f' :: frac' ++ spaces' ++ [c'])%list
              e1 He1d He1 e2 He2 e3 He3) as [-> ->].
  pose proof (plain_decimal_clean d1 [46%N] frac (spaces ++ [c]) f Hd1 Hfrac Hj) as Hp.
  pose proof (plain_decimal_clean e1 [e2; e3; 46%N] frac' (spaces' ++ [c']) f'
                He1d Hfrac' Hj') as Hp'.
  cbn [app] in Hp, Hp'. rewrite Hp, Hp'.
  reflexivity.
Qed.

End DecimalDirection.

Lemma direction_ignored_without_two_digits_witness :
  @Coord.latlon_to_floats Sample.plain "5.5 S" "120.25 W"
  = (x ← @py_float Sample.plain (codes "5.5");
     y ← @py_float Sample.plain (codes "120.25");
     Some (x, y)).
Proof.
  apply (@direction_ignored_without_two_digits Sample.plain "5.5 S" "120.25 W"
           53%N 53%N [] [32%N] 83%N 49%N 50%N 48%N 50%N [53%N] [32%N] 87%N).
  - reflexivity.
  - reflexivity.
  - by_compute.
  - by_compute.
  - by_compute.
  - by_compute.
  - by_compute.
  - by_compute.
  - by_compute.
Defined.

Lemma decimal_with_direction_signed_witness :
  @Coord.latlon_to_floats Sample.plain "46.5 S" "12.25W"
  = (x ← @py_float Sample.plain (codes "46.5");
     y ← @py_float Sample.plain (codes "12.25");
     Some ((x * (if bool_decide (83%N ∈ codes "Ss") then -1 else 1))%Q,
           (y * (if bool_decide (87%N ∈ codes "Ww") then -1 else 1))%Q)).
Proof.
  apply (@decimal_with_direction_signed Sample.plain "46.5 S" "12.25W"
           52%N 54%N 53%N [] [32%N] 83%N 49%N 50%N 50%N [53%N] [] 87%N).
  - reflexivity.
  - reflexivity.
  - by_compute.
  - by_compute.
  - by_compute.
  - by_compute.
  - by_compute.
  - by_compute.
Defined.

(** ** The rows of the ways builder *)

Section WaysRows.
Context `{Collaborators}.

(** X22. Every row of the ways builder comes from an element that decodes to
    a way or a relation, and is (language, country, text) where the language
    is known and the text is the value, as it stands, of a tag of the [name]
    family of that element. *)
Theorem ways_rows_from_ways (language_rtree : rtree) (infile : list element) (r : row) :
  In r (build_ways_training_data language_rtree infile) ->
  exists elem key value tag s l country,
    elem ∈ infile
    /\ (decode_id (elem_tag elem) (elem_id elem)).1 ∈ WAYS_RELATIONS
    /\ parse_osm_elem WAYS_RELATIONS elem = Some (key, value)
    /\ (tag, s) ∈ value
    /\ (PyStr.startswith tag "name:" = true \/ is_bare "name" tag = true)
    /\ l ∈ languages
    /\ r = [l; country; tsv_string s].
Proof.
  unfold build_ways_training_data. intros Hr.
  apply in_flat_map in Hr as ([key value] & Hparsed & Hr).
  unfold parse_osm in Hparsed.
  apply list_elem_of_In, list_elem_of_omap in Hparsed as (elem & Helem & Hparsed).
  assert (Htype : (decode_id (elem_tag elem) (elem_id elem)).1 ∈ WAYS_RELATIONS).
  { revert Hparsed. unfold parse_osm_elem.
    destruct (decode_id (elem_tag elem) (elem_id elem)) as [item_type local].
    case_bool_decide; [done|discriminate]. }
  unfold ways_element_rows in Hr.
  destruct (language_names language_rtree key value "name")
    as [[country nl]|] eqn:Hnames; [|destruct Hr].
  unfold ways_rows in Hr.
  apply in_flat_map in Hr as ([l texts] & Hl & Hr).
  apply list_elem_of_In, elem_of_map_to_list in Hl.
  apply in_flat_map in Hr as (s & Hs%list_elem_of_In & Hr).
  case_bool_decide as Hknown; [|destruct Hr].
  destruct Hr as [<-|[]].
  destruct (language_names_texts _ _ _ _ _ _ _ _ _ Hnames Hl Hs) as (tag & Htag & Hfam).
  by exists elem, key, value, tag, s, l, country.
Qed.

End WaysRows.

Lemma ways_rows_from_ways_witness :
  exists elem key value tag s l country,
    elem ∈ [Sample.main_street_way]
    /\ (decode_id (elem_tag elem) (elem_id elem)).1 ∈ WAYS_RELATIONS
    /\ parse_osm_elem WAYS_RELATIONS elem = Some (key, value)
    /\ (tag, s) ∈ value
    /\ (PyStr.startswith tag "name:" = true \/ is_bare "name" tag = true)
    /\ l ∈ @languages (Sample.belgium Sample.first_candidate)
    /\ ["en"; "be"; "Main Street"]
       = [l; country; @tsv_string (Sample.belgium Sample.first_candidate) s].
Proof.
  apply (@ways_rows_from_ways (Sample.belgium Sample.first_candidate) tt
           [Sample.main_street_way] ["en"; "be"; "Main Street"]).
  vm_compute. left. reflexivity.
Defined.
